(** * PitchGuard: the encrypted-submission scoring pipeline

    A shallow embedding of the scoring route ([src/app/api/analyze-pitch/route.ts],
    the handler with the [ciphertext]/[aes_key]/[iv] wire contract) and of the client
    side envelope encryption ([src/utils/encryption.ts]).

    The platform primitives the two files call (UTF-8 transcoding, base64, AES-256-GCM,
    SHA-256) are modelled from their standards so that the whole pipeline computes.
    JavaScript strings are sequences of UTF-16 code units, byte buffers are sequences
    of integers in [0, 255], and JavaScript numbers are idealised as exact rationals,
    with two exceptions: a product that is floored is rounded to the double it is
    before the floor is taken, and a JSON value may hold the infinite number that a
    literal beyond the doubles parses to. *)

From Stdlib Require Import String Ascii ZArith List Lia Bool QArith Qround Qpower Lqa
  DecimalString.
Import ListNotations.
Local Open Scope Z_scope.
Set Warnings "-register-all".

(** ** Strings and buffers *)

Definition js_string := list Z.
Definition bytes := list Z.

(** An ASCII literal as a JavaScript string. *)
Definition js (s : string) : js_string :=
  map (fun a => Z.of_N (N_of_ascii a)) (list_ascii_of_string s).

Definition str_length (s : js_string) : Z := Z.of_nat (List.length s).

Definition str_eqb (a b : js_string) : bool :=
  if list_eq_dec Z.eq_dec a b then true else false.

Definition is_code_unit (c : Z) : bool := (0 <=? c) && (c <? 65536).
Definition is_byte (b : Z) : bool := (0 <=? b) && (b <? 256).
Definition is_bytes (b : bytes) : bool := forallb is_byte b.

Definition is_high_surrogate (c : Z) : bool := (0xD800 <=? c) && (c <=? 0xDBFF).
Definition is_low_surrogate (c : Z) : bool := (0xDC00 <=? c) && (c <=? 0xDFFF).

(** A string is well formed when its code units are 16-bit and every surrogate is
    half of a pair. *)
Fixpoint well_formed (s : js_string) : bool :=
  match s with
  | [] => true
  | c :: s' =>
      if is_high_surrogate c then
        match s' with
        | d :: s'' => is_low_surrogate d && well_formed s''
        | [] => false
        end
      else is_code_unit c && negb (is_low_surrogate c) && well_formed s'
  end.

Definition bytes_eqb (a b : bytes) : bool :=
  if list_eq_dec Z.eq_dec a b then true else false.

(** Big-endian integers. *)
Definition bytes_to_Z (b : bytes) : Z := fold_left (fun acc x => acc * 256 + x) b 0.

Fixpoint Z_to_bytes (n : nat) (z : Z) : bytes :=
  match n with
  | O => []
  | S n' => Z_to_bytes n' (z / 256) ++ [z mod 256]
  end.

(** At most [fuel] consecutive pieces of [n] elements. *)
Fixpoint chunks (fuel n : nat) (l : bytes) : list bytes :=
  match fuel with
  | O => []
  | S f =>
      match l with
      | [] => []
      | _ => firstn n l :: chunks f n (skipn n l)
      end
  end.

(** Unicode scalar values: the code points that are not surrogates. *)
Definition scalar (cp : Z) : Prop := 0 <= cp < 0xD800 \/ 0xE000 <= cp < 0x110000.

(** [String.prototype.includes]. *)
Fixpoint starts_with (p s : js_string) : bool :=
  match p, s with
  | [], _ => true
  | a :: p', b :: s' => (a =? b) && starts_with p' s'
  | _ :: _, [] => false
  end.


(** [n.toString()] for an integer [n]. *)
Definition int_to_string (n : Z) : js_string := js (NilZero.string_of_int (Z.to_int n)).

(** The result of a call that may throw [new Error(message)]. *)
Inductive result (A : Type) : Type :=
| Ok (a : A)
| Throw (message : js_string).
Arguments Ok {A} a.
Arguments Throw {A} message.

(** ** UTF-8 ([TextEncoder], and Node's ['utf8'] encoding) *)

Module UTF8.

Definition encode_code_point (cp : Z) : bytes :=
  if cp <? 0x80 then [cp]
  else if cp <? 0x800 then [0xC0 + cp / 64; 0x80 + cp mod 64]
  else if cp <? 0x10000 then
    [0xE0 + cp / 4096; 0x80 + (cp / 64) mod 64; 0x80 + cp mod 64]
  else
    [0xF0 + cp / 262144; 0x80 + (cp / 4096) mod 64; 0x80 + (cp / 64) mod 64;
     0x80 + cp mod 64].

(** Surrogate pairs are combined; an unpaired surrogate is encoded as U+FFFD. *)
Fixpoint encode (s : js_string) : bytes :=
  match s with
  | [] => []
  | c :: s' =>
      if is_high_surrogate c then
        match s' with
        | d :: s'' =>
            if is_low_surrogate d
            then encode_code_point (0x10000 + (c - 0xD800) * 1024 + (d - 0xDC00)) ++ encode s''
            else encode_code_point 0xFFFD ++ encode s'
        | [] => encode_code_point 0xFFFD
        end
      else if is_low_surrogate c then encode_code_point 0xFFFD ++ encode s'
      else encode_code_point c ++ encode s'
  end.

(** The code units of one decoded code point. *)
Definition emit (cp : Z) : js_string :=
  if cp <? 0x10000 then [cp]
  else [0xD800 + (cp - 0x10000) / 1024; 0xDC00 + (cp - 0x10000) mod 1024].

(** Decoder state: no sequence pending, or a partial code point with the number of
    continuation bytes still due and the range allowed for the next byte. *)
Inductive dstate : Type :=
| Start
| Cont (cp : Z) (remaining : nat) (lower upper : Z).

Definition lead (b : Z) : js_string * dstate :=
  if b <=? 0x7F then ([b], Start)
  else if (0xC2 <=? b) && (b <=? 0xDF) then ([], Cont (b - 0xC0) 1 0x80 0xBF)
  else if (0xE0 <=? b) && (b <=? 0xEF) then
    ([], Cont (b - 0xE0) 2 (if b =? 0xE0 then 0xA0 else 0x80)
                           (if b =? 0xED then 0x9F else 0xBF))
  else if (0xF0 <=? b) && (b <=? 0xF4) then
    ([], Cont (b - 0xF0) 3 (if b =? 0xF0 then 0x90 else 0x80)
                           (if b =? 0xF4 then 0x8F else 0xBF))
  else ([0xFFFD], Start).

Definition step (st : dstate) (b : Z) : js_string * dstate :=
  match st with
  | Start => lead b
  | Cont cp n lo hi =>
      if (lo <=? b) && (b <=? hi) then
        let cp' := cp * 64 + (b - 0x80) in
        match n with
        | O | S O => (emit cp', Start)
        | S n' => ([], Cont cp' n' 0x80 0xBF)
        end
      else
        let '(out, st') := lead b in (0xFFFD :: out, st')
  end.

(** Ill-formed input never fails: each maximal ill-formed subpart becomes U+FFFD. *)
Fixpoint decode_from (st : dstate) (bs : bytes) : js_string :=
  match bs with
  | [] => match st with Start => [] | Cont _ _ _ _ => [0xFFFD] end
  | b :: bs' => let '(out, st') := step st b in out ++ decode_from st' bs'
  end.

Definition decode (bs : bytes) : js_string := decode_from Start bs.

End UTF8.

(** ** Base64 ([btoa], and [Buffer.from(text, 'base64')]) *)

Module Base64.

Definition alphabet : js_string :=
  js "ABCDEFGHIJKLMNOPQRSTUVWXYZabcdefghijklmnopqrstuvwxyz0123456789+/".

Definition symbol (v : Z) : Z := nth (Z.to_nat v) alphabet 0.

Definition pad : Z := 61.

Fixpoint encode (b : bytes) : js_string :=
  match b with
  | x :: y :: z :: r =>
      [symbol (x / 4); symbol ((x mod 4) * 16 + y / 16);
       symbol ((y mod 16) * 4 + z / 64); symbol (z mod 64)] ++ encode r
  | [x; y] =>
      [symbol (x / 4); symbol ((x mod 4) * 16 + y / 16); symbol ((y mod 16) * 4); pad]
  | [x] => [symbol (x / 4); symbol ((x mod 4) * 16); pad; pad]
  | [] => []
  end.

(** The value of a byte in Node's table, which holds the standard and the URL-safe
    alphabet.  The decoder looks up bytes only: [sextets] below casts every code unit
    to its low byte before it comes here. *)
Definition unbase64 (c : Z) : option Z :=
  if (65 <=? c) && (c <=? 90) then Some (c - 65)
  else if (97 <=? c) && (c <=? 122) then Some (c - 71)
  else if (48 <=? c) && (c <=? 57) then Some (c + 4)
  else if (c =? 43) || (c =? 45) then Some 62
  else if (c =? 47) || (c =? 95) then Some 63
  else None.

(** Node's decoder does not reject anything.  It reads every code unit by its low
    byte: a byte outside the alphabet is skipped and decoding stops at the first
    padding character. *)
Fixpoint sextets (s : js_string) : list Z :=
  match s with
  | [] => []
  | c :: s' =>
      let b := c mod 256 in
      if b =? pad then []
      else match unbase64 b with
           | Some v => v :: sextets s'
           | None => sextets s'
           end
  end.

Fixpoint group (l : list Z) : bytes :=
  match l with
  | a :: b :: c :: d :: r =>
      [a * 4 + b / 16; (b mod 16) * 16 + c / 4; (c mod 4) * 64 + d] ++ group r
  | [a; b; c] => [a * 4 + b / 16; (b mod 16) * 16 + c / 4]
  | [a; b] => [a * 4 + b / 16]
  | _ => []
  end.

Definition decode (s : js_string) : bytes := group (sextets s).

End Base64.

(** ** AES-256 (FIPS 197) *)

Module AES.

Definition xtime (b : Z) : Z :=
  let d := Z.shiftl b 1 in
  if Z.testbit b 7 then Z.land (Z.lxor d 0x1b) 0xff else d.

Fixpoint gf_mul_aux (n : nat) (a b acc : Z) : Z :=
  match n with
  | O => acc
  | S n' =>
      gf_mul_aux n' (xtime a) (Z.shiftr b 1) (if Z.testbit b 0 then Z.lxor acc a else acc)
  end.

Definition gf_mul (a b : Z) : Z := gf_mul_aux 8 a b 0.

(** The inverse in GF(2^8) is the 254th power. *)
Definition gf_inv (a : Z) : Z :=
  fold_left (fun acc _ => gf_mul acc a) (repeat tt 253) a.

Definition rotl8 (x k : Z) : Z :=
  Z.land (Z.lor (Z.shiftl x k) (Z.shiftr x (8 - k))) 0xff.

Definition sbox_calc (b : Z) : Z :=
  let x := gf_inv b in
  Z.lxor (Z.lxor (Z.lxor (Z.lxor (Z.lxor x (rotl8 x 1)) (rotl8 x 2)) (rotl8 x 3))
            (rotl8 x 4)) 0x63.

Definition sbox_table : list Z :=
  Eval vm_compute in map (fun n => sbox_calc (Z.of_nat n)) (seq 0 256).

Definition SubByte (b : Z) : Z := nth (Z.to_nat b) sbox_table 0.

Definition xor_bytes (a b : bytes) : bytes :=
  map (fun p => Z.lxor (fst p) (snd p)) (combine a b).

Definition SubBytes (s : bytes) : bytes := map SubByte s.

(** The state is kept in input order (column by column). *)
Definition ShiftRows (s : bytes) : bytes :=
  map (fun i => nth i s 0) [0; 5; 10; 15; 4; 9; 14; 3; 8; 13; 2; 7; 12; 1; 6; 11]%nat.

Definition mix_column (c : bytes) : bytes :=
  match c with
  | [a0; a1; a2; a3] =>
      let m2 := xtime in
      let m3 := fun x => Z.lxor (xtime x) x in
      [ Z.lxor (Z.lxor (m2 a0) (m3 a1)) (Z.lxor a2 a3);
        Z.lxor (Z.lxor a0 (m2 a1)) (Z.lxor (m3 a2) a3);
        Z.lxor (Z.lxor a0 a1) (Z.lxor (m2 a2) (m3 a3));
        Z.lxor (Z.lxor (m3 a0) a1) (Z.lxor a2 (m2 a3)) ]
  | _ => c
  end.

Definition MixColumns (s : bytes) : bytes :=
  match s with
  | [s0; s1; s2; s3; s4; s5; s6; s7; s8; s9; s10; s11; s12; s13; s14; s15] =>
      mix_column [s0; s1; s2; s3] ++ mix_column [s4; s5; s6; s7] ++
      mix_column [s8; s9; s10; s11] ++ mix_column [s12; s13; s14; s15]
  | _ => s
  end.

Definition RotWord (w : bytes) : bytes :=
  match w with
  | a :: r => r ++ [a]
  | [] => []
  end.

(** Key schedule for Nk = 8; the words are accumulated most recent first. *)
Fixpoint expand (n : nat) (i rcon : Z) (rev_ws : list bytes) : list bytes :=
  match n with
  | O => rev_ws
  | S n' =>
      let prev := nth 0 rev_ws [] in
      let old := nth 7 rev_ws [] in
      let temp :=
        if i mod 8 =? 0 then xor_bytes (SubBytes (RotWord prev)) [rcon; 0; 0; 0]
        else if i mod 8 =? 4 then SubBytes prev
        else prev in
      let rcon' := if i mod 8 =? 0 then xtime rcon else rcon in
      expand n' (i + 1) rcon' (xor_bytes old temp :: rev_ws)
  end.

Definition KeyExpansion (key : bytes) : list bytes :=
  chunks 15 16 (concat (rev (expand 52 8 1 (rev (chunks 8 4 key))))).

Definition round (s rk : bytes) : bytes :=
  xor_bytes (MixColumns (ShiftRows (SubBytes s))) rk.

Definition Cipher (round_keys : list bytes) (block : bytes) : bytes :=
  match round_keys with
  | rk0 :: rest =>
      let s := fold_left round (firstn 13 rest) (xor_bytes block rk0) in
      xor_bytes (ShiftRows (SubBytes s)) (nth 13 rest [])
  | [] => block
  end.

End AES.

(** ** Galois/Counter Mode (NIST SP 800-38D), 96-bit IV, no associated data *)

Module GCM.

Definition R_poly : Z := Z.shiftl 0xe1 120.

(** Multiplication in GF(2^128); bit 0 of a block is its leftmost bit. *)
Fixpoint gf128_mul_aux (n : nat) (x v z : Z) : Z :=
  match n with
  | O => z
  | S n' =>
      let z' := if Z.testbit x (Z.of_nat n') then Z.lxor z v else z in
      let v' := if Z.testbit v 0 then Z.lxor (Z.shiftr v 1) R_poly else Z.shiftr v 1 in
      gf128_mul_aux n' x v' z'
  end.

Definition gf128_mul (x y : Z) : Z := gf128_mul_aux 128 x y 0.

Definition GHASH (h : Z) (blocks : list bytes) : Z :=
  fold_left (fun y blk => gf128_mul (Z.lxor y (bytes_to_Z blk)) h) blocks 0.

Definition pad16 (b : bytes) : bytes :=
  b ++ repeat 0 (Z.to_nat ((- Z.of_nat (List.length b)) mod 16)).

Definition inc32 (cb : bytes) : bytes :=
  firstn 12 cb ++ Z_to_bytes 4 ((bytes_to_Z (skipn 12 cb) + 1) mod 2 ^ 32).

Fixpoint keystream (rks : list bytes) (cb : bytes) (nblocks : nat) : bytes :=
  match nblocks with
  | O => []
  | S n => AES.Cipher rks cb ++ keystream rks (inc32 cb) n
  end.

Fixpoint xor_stream (p ks : bytes) : bytes :=
  match p with
  | [] => []
  | x :: p' => Z.land (Z.lxor x (hd 0 ks)) 0xff :: xor_stream p' (tl ks)
  end.

Definition GCTR (rks : list bytes) (cb x : bytes) : bytes :=
  xor_stream x (keystream rks cb (Nat.div (List.length x + 15) 16)).

Definition tag (rks : list bytes) (j0 c : bytes) : bytes :=
  let h := bytes_to_Z (AES.Cipher rks (repeat 0 16)) in
  let lens := Z_to_bytes 8 0 ++ Z_to_bytes 8 (8 * Z.of_nat (List.length c)) in
  let s := GHASH h (chunks (List.length c + 2) 16 (pad16 c ++ lens)) in
  GCTR rks j0 (Z_to_bytes 16 s).

Definition J0 (iv : bytes) : bytes := iv ++ [0; 0; 0; 1].

(** Authenticated encryption: the ciphertext and its 16-byte tag. *)
Definition encrypt (key iv p : bytes) : bytes * bytes :=
  let rks := AES.KeyExpansion key in
  let c := GCTR rks (inc32 (J0 iv)) p in
  (c, tag rks (J0 iv) c).

(** Tag lengths Node accepts in [setAuthTag] for GCM. *)
Definition valid_tag_length (n : nat) : bool :=
  ((n =? 4) || (n =? 8) || ((12 <=? n) && (n <=? 16)))%nat.

(** Decryption with verification; a tag shorter than 16 bytes is compared with the
    leading bytes of the computed tag. *)
Definition decrypt (key iv c t : bytes) : option bytes :=
  let rks := AES.KeyExpansion key in
  if bytes_eqb (firstn (List.length t) (tag rks (J0 iv) c)) t
  then Some (GCTR rks (inc32 (J0 iv)) c)
  else None.

End GCM.

(** ** SHA-256 (FIPS 180-4) *)

Module SHA256.

Definition mask32 (x : Z) : Z := x mod 2 ^ 32.

Definition rotr (n x : Z) : Z := mask32 (Z.lor (Z.shiftr x n) (Z.shiftl x (32 - n))).

Definition xor3 (a b c : Z) : Z := Z.lxor (Z.lxor a b) c.

Definition Ch (x y z : Z) : Z := Z.lxor (Z.land x y) (Z.land (Z.lxor x 0xffffffff) z).
Definition Maj (x y z : Z) : Z := xor3 (Z.land x y) (Z.land x z) (Z.land y z).
Definition Sigma0 (x : Z) : Z := xor3 (rotr 2 x) (rotr 13 x) (rotr 22 x).
Definition Sigma1 (x : Z) : Z := xor3 (rotr 6 x) (rotr 11 x) (rotr 25 x).
Definition sigma0 (x : Z) : Z := xor3 (rotr 7 x) (rotr 18 x) (Z.shiftr x 3).
Definition sigma1 (x : Z) : Z := xor3 (rotr 17 x) (rotr 19 x) (Z.shiftr x 10).

(** The constants are the leading 32 bits of the fractional parts of the cube roots
    (for [K]) and of the square roots (for [H0]) of the first primes. *)
Definition is_prime (n : Z) : bool :=
  forallb (fun d => negb (n mod Z.of_nat d =? 0)) (seq 2 (Z.to_nat n - 2)).

Definition primes : list Z := filter is_prime (map Z.of_nat (seq 2 310)).

Fixpoint cube_root_aux (bit : nat) (n acc : Z) : Z :=
  match bit with
  | O => acc
  | S b =>
      let c := acc + 2 ^ Z.of_nat b in
      cube_root_aux b n (if c * c * c <=? n then c else acc)
  end.

Definition cube_root (n : Z) : Z := cube_root_aux 40 n 0.

Definition K : list Z :=
  Eval vm_compute in map (fun p => cube_root (p * 2 ^ 96) mod 2 ^ 32) primes.

Definition H0 : list Z :=
  Eval vm_compute in map (fun p => Z.sqrt (p * 2 ^ 64) mod 2 ^ 32) (firstn 8 primes).

Definition pad (m : bytes) : bytes :=
  let len := Z.of_nat (List.length m) in
  m ++ [0x80] ++ repeat 0 (Z.to_nat ((55 - len) mod 64)) ++ Z_to_bytes 8 (8 * len).

(** The message schedule, most recent word first. *)
Fixpoint schedule (n : nat) (rev_w : list Z) : list Z :=
  match n with
  | O => rev_w
  | S n' =>
      let w := mask32 (sigma1 (nth 1 rev_w 0) + nth 6 rev_w 0 +
                       sigma0 (nth 14 rev_w 0) + nth 15 rev_w 0) in
      schedule n' (w :: rev_w)
  end.

Definition W (block : bytes) : list Z :=
  rev (schedule 48 (rev (map bytes_to_Z (chunks 16 4 block)))).

Definition round (st : list Z) (kw : Z * Z) : list Z :=
  match st with
  | [a; b; c; d; e; f; g; h] =>
      let t1 := h + Sigma1 e + Ch e f g + fst kw + snd kw in
      let t2 := Sigma0 a + Maj a b c in
      [mask32 (t1 + t2); a; b; c; mask32 (d + t1); e; f; g]
  | _ => st
  end.

Definition compress (h : list Z) (block : bytes) : list Z :=
  map (fun p => mask32 (fst p + snd p)) (combine h (fold_left round (combine K (W block)) h)).

Definition digest (m : bytes) : bytes :=
  let padded := pad m in
  concat (map (Z_to_bytes 4) (fold_left compress (chunks (List.length padded) 64 padded) H0)).

End SHA256.

Definition hex_digit (v : Z) : Z := if v <? 10 then 48 + v else 87 + v.

(** [digest('hex')]: two lowercase digits per byte. *)
Definition to_hex (b : bytes) : js_string :=
  flat_map (fun x => [hex_digit (x / 16); hex_digit (x mod 16)]) b.

Definition is_lower_hex (c : Z) : bool :=
  ((48 <=? c) && (c <=? 57)) || ((97 <=? c) && (c <=? 102)).

(** ** JSON values and the JavaScript host *)

(** A value as [JSON.parse] returns it.  A finite number is the rational it stands
    for; [JInf] is the [Infinity] or [-Infinity] that a literal beyond the range of
    the doubles, such as [1e999], parses to. *)
Inductive json : Type :=
| JNull
| JBool (b : bool)
| JNum (q : Q)
| JInf (negative : bool)
| JStr (s : js_string)
| JArr (items : list json)
| JObj (members : list (js_string * json)).

(** Own property lookup; [None] is [undefined]. *)
Fixpoint lookup {A : Type} (k : js_string) (ms : list (js_string * A)) : option A :=
  match ms with
  | [] => None
  | (k', v) :: ms' => if str_eqb k k' then Some v else lookup k ms'
  end.

Definition keys_of {A : Type} (ms : list (js_string * A)) : list js_string := map fst ms.

(** What the host supplies and the route takes as given: the sine, the JSON parser
    ([None] for a [SyntaxError]), the decimal rendering of a number, and what
    [Buffer.from] makes of an array or an object: the bytes of an array or of an
    array-like object, or the error it throws. *)
Record Host : Type := {
  Math_sin : Q -> Q;
  JSON_parse : js_string -> option json;
  Number_toString : Q -> js_string;
  Buffer_from_object : json -> result bytes
}.

(** [JSON.parse(JSON.stringify(v))], the value a client reads from a response that
    carries [v]: a number that is not finite is written as [null]. *)
Fixpoint wire (v : json) : json :=
  match v with
  | JInf _ => JNull
  | JArr items => JArr (map wire items)
  | JObj ms => JObj (map (fun m => let '(k, x) := m in (k, wire x)) ms)
  | _ => v
  end.

(** [`${v}`], the string a template literal makes of a value.  An array is joined
    with commas, [null] elements giving nothing; an object is [[object Object]],
    unless it has a [toString] member of its own, which is not a function and leaves
    the conversion without a method that returns a primitive. *)
Fixpoint ToString (host : Host) (v : json) : result js_string :=
  match v with
  | JNull => Ok (js "null")
  | JBool true => Ok (js "true")
  | JBool false => Ok (js "false")
  | JNum q => Ok (Number_toString host q)
  | JInf false => Ok (js "Infinity")
  | JInf true => Ok (js "-Infinity")
  | JStr s => Ok s
  | JArr items =>
      (fix join_items (l : list json) : result js_string :=
         match l with
         | [] => Ok []
         | x :: r =>
             match (match x with JNull => Ok [] | _ => ToString host x end) with
             | Throw e => Throw e
             | Ok a =>
                 match r with
                 | [] => Ok a
                 | _ :: _ =>
                     match join_items r with
                     | Throw e => Throw e
                     | Ok b => Ok (a ++ [44] ++ b)
                     end
                 end
             end
         end) items
  | JObj ms =>
      match lookup (js "toString") ms with
      | Some _ => Throw (js "TypeError")
      | None => Ok (js "[object Object]")
      end
  end.

Definition Math_floor (x : Q) : Z := Qfloor x.
Definition Math_round (x : Q) : Z := Qfloor (x + (1 # 2)).
Definition Qltb (x y : Q) : bool := negb (Qle_bool y x).

(** *** Doubles *)

(** [2 ^ e] for an exponent of either sign. *)
Definition pow2 (e : Z) : Q := (2 ^ e)%Q.

(** The binade of a positive rational: the [e] with [2 ^ e <= x < 2 ^ (e + 1)]. *)
Definition binade (x : Q) : Z :=
  let e := Z.log2 (Qnum x) - Z.log2 (Z.pos (Qden x)) in
  if Qle_bool (pow2 e) x then e else e - 1.

(** The unit in the last place of the doubles around [x]: 52 binary places below its
    binade, and never below the subnormal spacing. *)
Definition ulp (x : Q) : Q := pow2 (Z.max (binade x - 52) (-1074)).

(** The nearest integer, a tie going to the even one. *)
Definition round_half_even (x : Q) : Z :=
  let f := Qfloor x in
  match Qcompare (x - inject_Z f) (1 # 2) with
  | Lt => f
  | Gt => f + 1
  | Eq => if Z.even f then f else f + 1
  end.

(** The double nearest to a rational that is not negative and lies below [2 ^ 1024],
    where the doubles end: the result of an arithmetic operation whose exact value is
    [x]. *)
Definition fl (x : Q) : Q := inject_Z (round_half_even (x / ulp x)) * ulp x.

(** Where the numbers of [Math.random] lie: every double of the interval from 0 to 1,
    1 excluded, is in this range, whose upper end is the largest of them. *)
Definition unit_range (r : Q) : Prop :=
  (0 <= r)%Q /\ (r <= 1 - (1 # 9007199254740992))%Q.

(** ECMAScript white space and line terminators, as removed by [trim]. *)
Definition is_white_space (c : Z) : bool :=
  ((9 <=? c) && (c <=? 13)) || (c =? 0x20) || (c =? 0xA0) || (c =? 0x1680) ||
  ((0x2000 <=? c) && (c <=? 0x200A)) || (c =? 0x2028) || (c =? 0x2029) ||
  (c =? 0x202F) || (c =? 0x205F) || (c =? 0x3000) || (c =? 0xFEFF).

Fixpoint trim_start (s : js_string) : js_string :=
  match s with
  | [] => []
  | c :: s' => if is_white_space c then trim_start s' else s
  end.

Definition trim (s : js_string) : js_string := rev (trim_start (rev (trim_start s))).

(** [s.replace(/c/g, '')]. *)
Definition remove_all (c : Z) (s : js_string) : js_string :=
  filter (fun x => negb (x =? c)) s.

(** [s.substring(0, n)]. *)
Definition substring0 (n : Z) (s : js_string) : js_string := firstn (Z.to_nat n) s.

(** [Array.prototype.sort()] on strings: ascending code-unit order. *)
Fixpoint str_leb (a b : js_string) : bool :=
  match a, b with
  | [], _ => true
  | _ :: _, [] => false
  | x :: a', y :: b' => (x <? y) || ((x =? y) && str_leb a' b')
  end.

Fixpoint insert_sorted (k : js_string) (l : list js_string) : list js_string :=
  match l with
  | [] => [k]
  | h :: t => if str_leb k h then k :: l else h :: insert_sorted k t
  end.

Definition sort (l : list js_string) : list js_string := fold_right insert_sorted [] l.

Fixpoint join (sep : js_string) (l : list js_string) : js_string :=
  match l with
  | [] => []
  | [x] => x
  | x :: r => x ++ sep ++ join sep r
  end.

(** ** The scoring route *)

Module Route.

(** The credential written into the source as the default; only that it is not empty
    matters, and its digits are left out here. *)
Definition DEFAULT_OPENROUTER_API_KEY : js_string := js "sk-or-v1-".
Definition MAX_PITCH_LENGTH : Z := 10000.
Definition MIN_PITCH_LENGTH : Z := 50.
Definition PRIMARY_MODEL : js_string := js "mistralai/mistral-small-2409".

Record Scores : Type := {
  clarity : Q;
  originality : Q;
  team_strength : Q;
  market_fit : Q
}.

(** A valid score set: every field lies in the closed interval from 0 to 10. *)
Definition in_range (q : Q) : Prop := (0 <= q)%Q /\ (q <= 10)%Q.

Definition valid (s : Scores) : Prop :=
  in_range (clarity s) /\ in_range (originality s) /\
  in_range (team_strength s) /\ in_range (market_fit s).

(** The properties of a [Scores] object, in creation order. *)
Definition properties (s : Scores) : list (js_string * Q) :=
  [(js "clarity", clarity s); (js "originality", originality s);
   (js "team_strength", team_strength s); (js "market_fit", market_fit s)].

(** The [model] of a result is whatever value the request named, as the handler holds
    it. *)
Record AnalysisResult : Type := {
  scores : Scores;
  receipt : js_string;
  timestamp : js_string;
  model : json
}.

(** *** sanitizeInput *)

(** The chain of five [replace] calls. *)
Definition stripped (text : js_string) : js_string :=
  remove_all 39 (remove_all 34 (remove_all 38 (remove_all 62 (remove_all 60 text)))).

Definition sanitizeInput (text : js_string) : js_string :=
  let sanitized := stripped text in
  if MAX_PITCH_LENGTH <? str_length sanitized
  then substring0 MAX_PITCH_LENGTH sanitized
  else trim sanitized.

(** *** decryptPitchData *)

(** [Buffer.from(value, 'base64')], for whatever value the request holds: a string is
    decoded, a number, a boolean and [null] are a [TypeError], and an array or an
    object is the host's to read. *)
Definition Buffer_from (host : Host) (value : json) : result bytes :=
  match value with
  | JStr s => Ok (Base64.decode s)
  | JArr _ | JObj _ => Buffer_from_object host value
  | JNull | JBool _ | JNum _ | JInf _ => Throw (js "TypeError")
  end.

(** [buffer.slice(-16)] and [buffer.slice(0, -16)]. *)
Definition slice_last16 (b : bytes) : bytes := skipn (List.length b - 16) b.
Definition slice_until_last16 (b : bytes) : bytes := firstn (List.length b - 16) b.

(** The body of the [try] block; every [throw] in it, and every exception of the
    cipher, is an error value here. *)
Definition decrypt_attempt (host : Host) (ciphertext_b64 key_b64 iv_b64 : json)
  : result js_string :=
  match Buffer_from host ciphertext_b64 with
  | Throw e => Throw e
  | Ok ciphertext =>
      match Buffer_from host key_b64 with
      | Throw e => Throw e
      | Ok key =>
          match Buffer_from host iv_b64 with
          | Throw e => Throw e
          | Ok iv =>
              if negb (List.length key =? 32)%nat then Throw (js "Invalid key length")
              else if negb (List.length iv =? 12)%nat then Throw (js "Invalid IV length")
              else
                let authTag := slice_last16 ciphertext in
                let encryptedData := slice_until_last16 ciphertext in
                if negb (GCM.valid_tag_length (List.length authTag))
                then Throw (js "Invalid authentication tag length")
                else
                  match GCM.decrypt key iv encryptedData authTag with
                  | None => Throw (js "Unsupported state or unable to authenticate data")
                  | Some plain =>
                      let decrypted := UTF8.decode plain in
                      if str_length decrypted <? MIN_PITCH_LENGTH
                      then Throw (js "Pitch content too short")
                      else Ok decrypted
                  end
          end
      end
  end.

(** The [catch] replaces whatever was thrown by one message. *)
Definition decryptPitchData (host : Host) (ciphertext_b64 key_b64 iv_b64 : json)
  : result js_string :=
  match decrypt_attempt host ciphertext_b64 key_b64 iv_b64 with
  | Ok decrypted => Ok decrypted
  | Throw _ => Throw (js "Failed to decrypt pitch data")
  end.

(** *** getMockScores *)

Definition random (host : Host) (seed : Z) : Q :=
  let x := (Math_sin host (inject_Z seed) * 10000)%Q in
  (x - inject_Z (Math_floor x))%Q.

(** [Math.round(x * 10) / 10]. *)
Definition round1 (x : Q) : Q := (inject_Z (Math_round (x * 10)) / 10)%Q.

(** [now] is the reading of [Date.now()]. *)
Definition getMockScores (host : Host) (now : Z) : Scores :=
  let seed := now / 3600000 in
  {| clarity := round1 (random host seed * 3 + 7);
     originality := round1 (random host (seed + 1) * 2.5 + 6.5);
     team_strength := round1 (random host (seed + 2) * 2.5 + 6);
     market_fit := round1 (random host (seed + 3) * 2.7 + 6.5) |}.

(** *** analyzeWithMistral *)

(** How [fetch] settles: rejected (network failure, or the abort after
    [REQUEST_TIMEOUT]), or resolved with [response.ok], the status and the outcome of
    [response.json()] ([None] when that rejects). *)
Inductive FetchOutcome : Type :=
| FetchRejected (aborted : bool)
| FetchResolved (ok : bool) (status : Z) (data : option json).

(** The surroundings of one request: the configured credential, the upstream reply to
    the pitch it is sent, and the clock when the mock scorer and when the handler
    read it. *)
Record Env : Type := {
  env_OPENROUTER_API_KEY : option js_string;
  fetch : js_string -> FetchOutcome;
  now_scoring : Z;
  now_receipt : Z
}.

Definition is_empty (s : js_string) : bool :=
  match s with
  | [] => true
  | _ => false
  end.

(** [process.env.OPENROUTER_API_KEY || '...']. *)
Definition OPENROUTER_API_KEY (env : Env) : js_string :=
  match env_OPENROUTER_API_KEY env with
  | Some k => if is_empty k then DEFAULT_OPENROUTER_API_KEY else k
  | None => DEFAULT_OPENROUTER_API_KEY
  end.

Definition truthy (v : json) : bool :=
  match v with
  | JNull => false
  | JBool b => b
  | JNum q => negb (Qeq_bool q 0)
  | JInf _ => true
  | JStr s => negb (is_empty s)
  | JArr _ | JObj _ => true
  end.

(** [v.k] for a [v] that is neither [null] nor [undefined]. *)
Definition member (k : js_string) (v : json) : option json :=
  match v with
  | JObj ms => lookup k ms
  | _ => None
  end.

(** [v[0]]. *)
Definition index0 (v : json) : option json :=
  match v with
  | JArr (x :: _) => Some x
  | JObj ms => lookup (js "0") ms
  | JStr (c :: _) => Some (JStr [c])
  | _ => None
  end.

(** [x?.get]. *)
Definition optional (get : json -> option json) (x : option json) : option json :=
  match x with
  | None | Some JNull => None
  | Some v => get v
  end.

(** [data.choices?.[0]?.message?.content || '']; reading a property of [null] throws. *)
Definition message_content (data : json) : result json :=
  match data with
  | JNull => Throw (js "TypeError")
  | _ =>
      match optional (member (js "content"))
              (optional (member (js "message"))
                 (optional index0 (member (js "choices") data))) with
      | Some v => if truthy v then Ok v else Ok (JStr [])
      | None => Ok (JStr [])
      end
  end.

Definition requiredKeys : list js_string :=
  [js "clarity"; js "originality"; js "team_strength"; js "market_fit"].

(** [requiredKeys.every(key => key in v)]; the [in] operator throws on a primitive. *)
Definition every_required_key_in (v : json) : result bool :=
  match v with
  | JObj ms =>
      Ok (forallb (fun k => match lookup k ms with Some _ => true | None => false end)
            requiredKeys)
  | JArr _ => Ok false
  | _ => Throw (js "TypeError")
  end.

(** The test [typeof score !== 'number' || score < 0 || score > 10], negated. *)
Definition score_ok (v : option json) : bool :=
  match v with
  | Some (JNum q) => negb (Qltb q 0 || Qltb 10 q)
  | _ => false
  end.

Definition Number (v : option json) : Q :=
  match v with
  | Some (JNum q) => q
  | _ => 0
  end.

(** The inner [try] block: parse the reply and validate it ([None] when it throws). *)
Definition parse_scores (host : Host) (content : json) : option Scores :=
  match content with
  | JStr text =>
      match JSON_parse host (trim text) with
      | None => None
      | Some parsed =>
          match every_required_key_in parsed with
          | Throw _ | Ok false => None
          | Ok true =>
              if forallb (fun k => score_ok (member k parsed)) requiredKeys
              then Some {| clarity := Number (member (js "clarity") parsed);
                           originality := Number (member (js "originality") parsed);
                           team_strength := Number (member (js "team_strength") parsed);
                           market_fit := Number (member (js "market_fit") parsed) |}
              else None
          end
      end
  | _ => None
  end.

(** The upstream attempt: [Some] exactly when control reaches the [return] of the
    validated scores; every other exit of the function is [return getMockScores()]. *)
Definition upstream_scores (host : Host) (env : Env) (pitchText : js_string) : option Scores :=
  if is_empty (OPENROUTER_API_KEY env) then None
  else
    match fetch env pitchText with
    | FetchRejected _ => None
    | FetchResolved ok _ data =>
        if negb ok then None
        else
          match data with
          | None => None
          | Some d =>
              match message_content d with
              | Throw _ => None
              | Ok content => if negb (truthy content) then None else parse_scores host content
              end
          end
    end.

Definition analyzeWithMistral (host : Host) (env : Env) (pitchText : js_string) : Scores :=
  match upstream_scores host env pitchText with
  | Some s => s
  | None => getMockScores host (now_scoring env)
  end.

(** *** generateReceipt *)

Definition quote (s : js_string) : js_string := [34] ++ s ++ [34].

(** [JSON.stringify(object, keys)] for an object of numbers: the listed properties in
    the order of the list. *)
Definition JSON_stringify (host : Host) (object : list (js_string * Q)) (keys : list js_string)
  : js_string :=
  [123] ++
  join [44]
    (flat_map (fun k => match lookup k object with
                        | Some v => [quote k ++ [58] ++ Number_toString host v]
                        | None => []
                        end) keys) ++
  [125].

(** The digest, once the template literal has the strings of its four parts. *)
Definition receipt_of (ciphertext modelName timestamp scoresString : js_string) : js_string :=
  let receiptData :=
    ciphertext ++ [124] ++ modelName ++ [124] ++ timestamp ++ [124] ++ scoresString in
  to_hex (SHA256.digest (UTF8.encode receiptData)).

(** [generateReceipt]: the ciphertext and the model name are whatever the request
    held, and the template literal takes their strings, which throws when one of them
    has none. *)
Definition generateReceipt (host : Host) (ciphertext modelName : json) (timestamp : js_string)
  (scores : Scores) : result js_string :=
  let scoresString :=
    JSON_stringify host (properties scores) (sort (keys_of (properties scores))) in
  match ToString host ciphertext with
  | Throw e => Throw e
  | Ok c =>
      match ToString host modelName with
      | Throw e => Throw e
      | Ok m => Ok (receipt_of c m timestamp scoresString)
      end
  end.

(** *** POST *)

(** The members of the request object that the handler reads, each absent or any JSON
    value. *)
Record RequestObject : Type := {
  req_ciphertext : option json;
  req_aes_key : option json;
  req_iv : option json;
  req_model : option json
}.

(** What [request.json()] yields: a rejection, a JSON primitive ([null] included), or
    an object (a JSON array behaves as an object without any of the members). *)
Inductive Body : Type :=
| BodyMalformed
| BodyPrimitive
| BodyObject (o : RequestObject).

(** A response: its status and its JSON body as the client reads it.  The CORS headers
    are the same on every response and are left out. *)
Record Response : Type := {
  status : Z;
  body : json
}.

Definition error_response (code : Z) (message : js_string) : Response :=
  {| status := code; body := JObj [(js "error", JStr message)] |}.

Definition scores_json (s : Scores) : json :=
  JObj (map (fun p => (fst p, JNum (snd p))) (properties s)).

Definition result_json (r : AnalysisResult) : json :=
  JObj [(js "scores", scores_json (scores r)); (js "receipt", JStr (receipt r));
        (js "timestamp", JStr (timestamp r)); (js "model", wire (model r))].

(** [body.model || 'mistralai/mistral-small-2409']. *)
Definition model_name (o : RequestObject) : json :=
  match req_model o with
  | Some m => if truthy m then m else JStr PRIMARY_MODEL
  | None => JStr PRIMARY_MODEL
  end.

(** The steps of the handler up to and including [sanitizeInput]: either the response
    of an early [return], or the text handed to the scorer. *)
Definition prepare (host : Host) (request : Body)
  : Response + (RequestObject * json * js_string) :=
  match request with
  | BodyMalformed => inl (error_response 400 (js "Invalid JSON in request body"))
  | BodyPrimitive => inl (error_response 500 (js "Internal server error"))
  | BodyObject o =>
      match req_ciphertext o, req_aes_key o, req_iv o with
      | Some c, Some k, Some i =>
          match Buffer_from host c, Buffer_from host k, Buffer_from host i with
          | Ok _, Ok _, Ok _ =>
              match decryptPitchData host c k i with
              | Throw _ => inl (error_response 400 (js "Failed to decrypt pitch data"))
              | Ok pitchText => inr (o, c, sanitizeInput pitchText)
              end
          | _, _, _ => inl (error_response 400 (js "Invalid base64 encoding"))
          end
      | _, _, _ => inl (error_response 400 (js "Missing required encryption parameters"))
      end
  end.

(** The rest of the [try] block; [generateReceipt] may throw. *)
Definition respond (host : Host) (env : Env) (o : RequestObject)
  (ciphertext_b64 : json) (sanitizedPitch : js_string) : result AnalysisResult :=
  let modelName := model_name o in
  let scores := analyzeWithMistral host env sanitizedPitch in
  let timestamp := int_to_string (now_receipt env / 1000) in
  match generateReceipt host ciphertext_b64 modelName timestamp scores with
  | Throw e => Throw e
  | Ok receipt =>
      Ok {| scores := scores; receipt := receipt; timestamp := timestamp;
            model := modelName |}
  end.

Definition success_response (r : AnalysisResult) : Response :=
  {| status := 200; body := result_json r |}.

(** Whatever is thrown past the inner handlers reaches the outer [catch]. *)
Definition POST (host : Host) (env : Env) (request : Body) : Response :=
  match prepare host request with
  | inl early => early
  | inr (o, ciphertext_b64, sanitizedPitch) =>
      match respond host env o ciphertext_b64 sanitizedPitch with
      | Ok r => success_response r
      | Throw _ => error_response 500 (js "Internal server error")
      end
  end.

End Route.

(** ** The vocabulary of the claims *)

Module Claims.

(** The two tiers the route has: the upstream model and the mock scorer. *)
Inductive Tier : Type :=
| Primary
| Mock.

(** The tier whose scores a request is answered with, when it reaches the scorer. *)
Definition answering_tier (host : Host) (env : Route.Env) (request : Route.Body)
  : option Tier :=
  match Route.prepare host request with
  | inl _ => None
  | inr (_, _, sanitizedPitch) =>
      match Route.upstream_scores host env sanitizedPitch with
      | Some _ => Some Primary
      | None => Some Mock
      end
  end.

(** The identity of a tier.  The upstream tier is the model named in the payload; the
    route gives the mock scorer no name, and the specification's acceptance scenario
    expects the reserved name [mock]. *)
Definition tier_identity (t : Tier) : js_string :=
  match t with
  | Primary => Route.PRIMARY_MODEL
  | Mock => js "mock"
  end.

(** A completion that the route takes its scores from: the content of its first
    choice is a text that is not empty and that, trimmed, parses to an object whose
    four scores are numbers from 0 to 10, the scores [s]. *)
Definition usable_reply (host : Host) (data : json) (s : Route.Scores) : Prop :=
  exists text ms,
    Route.message_content data = Ok (JStr text) /\
    text <> [] /\
    JSON_parse host (trim text) = Some (JObj ms) /\
    lookup (js "clarity") ms = Some (JNum (Route.clarity s)) /\
    lookup (js "originality") ms = Some (JNum (Route.originality s)) /\
    lookup (js "team_strength") ms = Some (JNum (Route.team_strength s)) /\
    lookup (js "market_fit") ms = Some (JNum (Route.market_fit s)) /\
    Route.valid s.

(** The ways in which the upstream tier fails for a pitch: the request is rejected
    by the network, or aborted after the timeout, or answered with a status other
    than 2xx, or answered with a body that is no usable reply. *)
Inductive UpstreamFails (host : Host) (env : Route.Env) (pitchText : js_string) : Prop :=
| NetworkError :
    Route.fetch env pitchText = Route.FetchRejected false ->
    UpstreamFails host env pitchText
| Timeout :
    Route.fetch env pitchText = Route.FetchRejected true ->
    UpstreamFails host env pitchText
| Non2xx status data :
    Route.fetch env pitchText = Route.FetchResolved false status data ->
    UpstreamFails host env pitchText
| SchemaViolation status data :
    Route.fetch env pitchText = Route.FetchResolved true status data ->
    (forall d s, data = Some d -> ~ usable_reply host d s) ->
    UpstreamFails host env pitchText.




(** The messages an error body can carry. *)
Definition error_messages : list js_string :=
  [js "Invalid JSON in request body"; js "Missing required encryption parameters";
   js "Invalid base64 encoding"; js "Failed to decrypt pitch data";
   js "Internal server error"].

(** The three fields of an envelope. *)
Definition fields (o : Route.RequestObject) : list (option json) :=
  [Route.req_ciphertext o; Route.req_aes_key o; Route.req_iv o].

(** Valid base64 text is what encoding its own bytes gives back. *)
Definition valid_base64 (s : js_string) : bool :=
  str_eqb (Base64.encode (Base64.decode s)) s.

(** A field holds invalid base64 when it is text that is not valid, or no text. *)
Definition invalid_base64 (v : json) : Prop :=
  match v with
  | JStr s => valid_base64 s = false
  | _ => True
  end.


(** The grounds on which a request is refused.  The key, the IV and the ciphertext are
    the buffers that [Buffer.from] makes of the three fields. *)
Inductive Rejected (host : Host) : Route.Body -> Prop :=
| MalformedJson : Rejected host Route.BodyMalformed
| MissingField o :
    In None (fields o) ->
    Rejected host (Route.BodyObject o)
| InvalidBase64 o v :
    In (Some v) (fields o) -> invalid_base64 v ->
    Rejected host (Route.BodyObject o)
| DecodeError o k i key iv :
    Route.req_aes_key o = Some k -> Route.req_iv o = Some i ->
    Route.Buffer_from host k = Ok key -> Route.Buffer_from host i = Ok iv ->
    List.length key <> 32%nat \/ List.length iv <> 12%nat ->
    Rejected host (Route.BodyObject o)
| AuthenticationError o c k i ciphertext key iv :
    Route.req_ciphertext o = Some c -> Route.req_aes_key o = Some k ->
    Route.req_iv o = Some i ->
    Route.Buffer_from host c = Ok ciphertext ->
    Route.Buffer_from host k = Ok key -> Route.Buffer_from host i = Ok iv ->
    GCM.valid_tag_length (List.length (Route.slice_last16 ciphertext)) = false \/
    GCM.decrypt key iv (Route.slice_until_last16 ciphertext) (Route.slice_last16 ciphertext) =
    None ->
    Rejected host (Route.BodyObject o)
| TooShort o c k i ciphertext key iv plain :
    Route.req_ciphertext o = Some c -> Route.req_aes_key o = Some k ->
    Route.req_iv o = Some i ->
    Route.Buffer_from host c = Ok ciphertext ->
    Route.Buffer_from host k = Ok key -> Route.Buffer_from host i = Ok iv ->
    GCM.decrypt key iv (Route.slice_until_last16 ciphertext) (Route.slice_last16 ciphertext) =
    Some plain ->
    str_length (UTF8.decode plain) < Route.MIN_PITCH_LENGTH ->
    Rejected host (Route.BodyObject o).


(** A request reaches the scorer with [text] when the envelope of its three fields
    decrypts to a pitch of at least [MIN_PITCH_LENGTH] code units, and [text] is that
    pitch sanitized. *)
Definition scored (host : Host) (o : Route.RequestObject) (c : json) (text : js_string)
  : Prop :=
  exists k i pitchText,
    Route.req_ciphertext o = Some c /\
    Route.req_aes_key o = Some k /\
    Route.req_iv o = Some i /\
    Route.decryptPitchData host c k i = Ok pitchText /\
    Route.MIN_PITCH_LENGTH <= str_length pitchText /\
    text = Route.sanitizeInput pitchText.



End Claims.

(** ** The client's envelope encryption *)

Module Client.

Record Envelope : Type := {
  encryptedData : js_string;
  key : js_string;
  iv : js_string
}.

(** The bytes become the characters of a binary string, which [btoa] encodes. *)
Definition arrayBufferToBase64 (buffer : bytes) : js_string := Base64.encode buffer.

(** [raw_key] and [raw_iv] are the 32 and 12 random bytes drawn by [generateKey] and
    [generateIV]; the cipher appends its 16-byte tag to the ciphertext. *)
Definition encryptPitch (raw_key raw_iv : bytes) (pitch : js_string) : Envelope :=
  let data := UTF8.encode pitch in
  let encrypted := fst (GCM.encrypt raw_key raw_iv data) ++ snd (GCM.encrypt raw_key raw_iv data) in
  {| encryptedData := arrayBufferToBase64 encrypted;
     key := arrayBufferToBase64 raw_key;
     iv := arrayBufferToBase64 raw_iv |}.

(** The request that carries an envelope, with an optional model hint. *)
Definition request (e : Envelope) (hint : option json) : Route.RequestObject :=
  {| Route.req_ciphertext := Some (JStr (encryptedData e));
     Route.req_aes_key := Some (JStr (key e));
     Route.req_iv := Some (JStr (iv e));
     Route.req_model := hint |}.

Definition submission (e : Envelope) (hint : option json) : Route.Body :=
  Route.BodyObject (request e hint).

End Client.

(** ** A concrete host and sample inputs *)

Module Sample.

(** Bhaskara's rational approximation of the sine, with 355/113 for pi. *)
Definition sin_approx (x : Q) : Q :=
  let pi := (355 # 113)%Q in
  let turns := Qfloor (x / (2 * pi)) in
  let r := (x - inject_Z turns * (2 * pi))%Q in
  let half (y : Q) := (16 * y * (pi - y) / (5 * pi * pi - 4 * y * (pi - y)))%Q in
  if Qle_bool r pi then half r else (- half (r - pi))%Q.

(** A number with at most one decimal, as JavaScript prints it. *)
Definition one_decimal (q : Q) : js_string :=
  let tenths := Qfloor (q * inject_Z 10) in
  if tenths mod 10 =? 0 then int_to_string (tenths / 10)
  else int_to_string (tenths / 10) ++ [46] ++ int_to_string (tenths mod 10).

Definition reply_text : js_string :=
  [123; 34] ++ js "clarity" ++ [34; 58] ++ js "8.5" ++ [44; 34] ++ js "originality" ++
  [34; 58] ++ js "7.2" ++ [44; 34] ++ js "team_strength" ++ [34; 58] ++ js "9.1" ++
  [44; 34] ++ js "market_fit" ++ [34; 58] ++ js "8.8" ++ [125].

Definition reply_value : json :=
  JObj [(js "clarity", JNum (85 # 10)); (js "originality", JNum (72 # 10));
        (js "team_strength", JNum (91 # 10)); (js "market_fit", JNum (88 # 10))].

(** A parser that knows one document. *)
Definition parse_reply (s : js_string) : option json :=
  if str_eqb s reply_text then Some reply_value else None.

(** A [Buffer.from] that knows only arrays of bytes. *)
Definition byte_of (v : json) : option Z :=
  match v with
  | JNum q =>
      if Qeq_bool q (inject_Z (Qfloor q)) && (0 <=? Qfloor q) && (Qfloor q <? 256)
      then Some (Qfloor q)
      else None
  | _ => None
  end.

Definition byte_array (v : json) : result bytes :=
  match v with
  | JArr items =>
      if forallb (fun x => match byte_of x with Some _ => true | None => false end) items
      then Ok (flat_map (fun x => match byte_of x with Some b => [b] | None => [] end) items)
      else Throw (js "TypeError")
  | _ => Throw (js "TypeError")
  end.

Definition host : Host :=
  {| Math_sin := sin_approx; JSON_parse := parse_reply; Number_toString := one_decimal;
     Buffer_from_object := byte_array |}.

Definition completion (content : json) : json :=
  JObj [(js "choices", JArr [JObj [(js "message", JObj [(js "content", content)])]])].

(** Upstream unreachable. *)
Definition offline : Route.Env :=
  {| Route.env_OPENROUTER_API_KEY := None;
     Route.fetch := fun _ => Route.FetchRejected false;
     Route.now_scoring := 1762041600123;
     Route.now_receipt := 1762041600456 |}.

(** Upstream answering with [reply_text]. *)
Definition online : Route.Env :=
  {| Route.env_OPENROUTER_API_KEY := None;
     Route.fetch := fun _ => Route.FetchResolved true 200 (Some (completion (JStr reply_text)));
     Route.now_scoring := 1762041600123;
     Route.now_receipt := 1762041600456 |}.

Definition raw_key : bytes := map Z.of_nat (seq 1 32).
Definition raw_iv : bytes := map Z.of_nat (seq 101 12).

Definition pitch : js_string :=
  js "We build an AI pitch evaluator with end-to-end encryption and no data retention.".

Definition envelope : Client.Envelope := Client.encryptPitch raw_key raw_iv pitch.

(** The result the route assembles for the sample envelope when the upstream cannot
    be reached. *)
Definition answer : Route.AnalysisResult :=
  let scores := Route.getMockScores host (Route.now_scoring offline) in
  let timestamp := int_to_string (Route.now_receipt offline / 1000) in
  {| Route.scores := scores;
     Route.receipt :=
       Route.receipt_of (Client.encryptedData envelope) Route.PRIMARY_MODEL timestamp
         (Route.JSON_stringify host (Route.properties scores)
            (sort (keys_of (Route.properties scores))));
     Route.timestamp := timestamp;
     Route.model := JStr Route.PRIMARY_MODEL |}.

(** Fifty code units, the first an unpaired surrogate. *)
Definition unpaired : js_string := 0xD800 :: repeat 97 49.

(** Fifty opening angle brackets. *)
Definition brackets : js_string := repeat 60 50.


(** An envelope whose content is too short, and one whose key is not the one used. *)
Definition short_envelope : Client.Envelope := Client.encryptPitch raw_key raw_iv (js "hello").

Definition wrong_key_envelope : Client.Envelope :=
  {| Client.encryptedData := Client.encryptedData envelope;
     Client.key := Client.arrayBufferToBase64 (map Z.of_nat (seq 2 32));
     Client.iv := Client.iv envelope |}.

End Sample.

(** ** Texts *)

Module Text.

(** ASCII white space: tab, line feed, form feed, carriage return and space. *)
Definition ascii_space (c : Z) : bool :=
  (c =? 9) || (c =? 10) || (c =? 12) || (c =? 13) || (c =? 32).

Definition without_spaces (s : js_string) : js_string :=
  filter (fun c => negb (ascii_space c)) s.

(** The first code unit, if there is one, is not white space. *)
Definition starts_clean (s : js_string) : bool :=
  match s with
  | [] => true
  | c :: _ => negb (is_white_space c)
  end.

(** Neither the first nor the last code unit is white space. *)
Definition trimmed (s : js_string) : bool := starts_clean s && starts_clean (rev s).

(** A text without the byte order mark it may start with. *)
Definition without_bom (s : js_string) : js_string :=
  match s with
  | c :: r => if c =? 0xFEFF then r else s
  | [] => []
  end.

(** The 6-bit values and the padding that [Base64.encode] writes for a buffer. *)
Fixpoint to_sextets (b : bytes) : list Z :=
  match b with
  | x :: y :: z :: r =>
      [x / 4; (x mod 4) * 16 + y / 16; (y mod 16) * 4 + z / 64; z mod 64] ++ to_sextets r
  | [x; y] => [x / 4; (x mod 4) * 16 + y / 16; (y mod 16) * 4]
  | [x] => [x / 4; (x mod 4) * 16]
  | [] => []
  end.

Fixpoint padding (b : bytes) : js_string :=
  match b with
  | _ :: _ :: _ :: r => padding r
  | [_; _] => [Base64.pad]
  | [_] => [Base64.pad; Base64.pad]
  | [] => []
  end.

(** None of the five characters that [sanitizeInput] removes. *)
Definition harmless (c : Z) : bool :=
  negb ((c =? 60) || (c =? 62) || (c =? 38) || (c =? 34) || (c =? 39)).

(** What an unfinished sequence still owes the output: one replacement character. *)
Definition pending (st : UTF8.dstate) : nat :=
  match st with
  | UTF8.Start => 0
  | UTF8.Cont _ _ _ _ => 1
  end.

End Text.

(** ** Tampering *)

Module Tamper.

(** The envelope that [encryptPitch] makes, with the 16 bytes of its tag replaced. *)
Definition replace_tag (raw_key raw_iv : bytes) (pitch : js_string) (tag' : bytes)
  : Client.Envelope :=
  {| Client.encryptedData :=
       Client.arrayBufferToBase64
         (fst (GCM.encrypt raw_key raw_iv (UTF8.encode pitch)) ++ tag');
     Client.key := Client.arrayBufferToBase64 raw_key;
     Client.iv := Client.arrayBufferToBase64 raw_iv |}.

End Tamper.

(** ** The browser platform: [atob], [TextDecoder] and [crypto.subtle] *)

Module Web.

(** The value of a symbol of the standard alphabet; [atob] knows no other. *)
Definition standard_value (c : Z) : option Z :=
  if (65 <=? c) && (c <=? 90) then Some (c - 65)
  else if (97 <=? c) && (c <=? 122) then Some (c - 71)
  else if (48 <=? c) && (c <=? 57) then Some (c + 4)
  else if c =? 43 then Some 62
  else if c =? 47 then Some 63
  else None.

(** One or two padding characters at the end are removed. *)
Definition strip_padding (s : js_string) : js_string :=
  match rev s with
  | a :: r =>
      if a =? 61 then
        match r with
        | b :: r' => if b =? 61 then rev r' else rev r
        | [] => rev r
        end
      else s
  | [] => s
  end.

Fixpoint values (s : js_string) : option (list Z) :=
  match s with
  | [] => Some []
  | c :: s' =>
      match standard_value c, values s' with
      | Some v, Some l => Some (v :: l)
      | _, _ => None
      end
  end.

(** [atob]: the forgiving base64 decoding.  White space is dropped, padding is removed
    from a text whose length is a multiple of four, and a length that leaves the
    remainder one, or any other character, is an [InvalidCharacterError].  The
    characters of the result are the decoded bytes. *)
Definition atob (data : js_string) : result js_string :=
  let data := Text.without_spaces data in
  let data := if (List.length data mod 4 =? 0)%nat then strip_padding data else data in
  if (List.length data mod 4 =? 1)%nat then Throw (js "InvalidCharacterError")
  else
    match values data with
    | Some l => Ok (Base64.group l)
    | None => Throw (js "InvalidCharacterError")
    end.

(** [btoa]: a character above 255 is an [InvalidCharacterError]. *)
Definition btoa (binary : js_string) : result js_string :=
  if forallb is_byte binary then Ok (Base64.encode binary)
  else Throw (js "InvalidCharacterError").

(** [new TextDecoder().decode(buffer)]: a leading byte order mark is dropped. *)
Definition TextDecoder_decode (b : bytes) : js_string :=
  if starts_with [0xEF; 0xBB; 0xBF] b then UTF8.decode (skipn 3 b) else UTF8.decode b.

(** What [importKey] and [decrypt] do with a key of 16 or 24 bytes, or with an IV that
    is not of 12 bytes: ciphers that are not written out here. *)
Record Subtle : Type := {
  decrypt_otherwise : bytes -> bytes -> bytes -> option bytes
}.

(** [importKey('raw', key, 'AES-GCM')] followed by [decrypt({name: 'AES-GCM', iv}, key,
    data)]: a key that is not of 128, 192 or 256 bits is a [DataError]; data shorter
    than the tag, and a tag that does not verify, are an [OperationError]. *)
Definition importKey_decrypt (subtle : Subtle) (key iv data : bytes) : result bytes :=
  if negb ((List.length key =? 16) || (List.length key =? 24) || (List.length key =? 32))%nat
  then Throw (js "DataError")
  else
    let outcome :=
      if ((List.length key =? 32) && (List.length iv =? 12))%nat then
        if (List.length data <? 16)%nat then None
        else GCM.decrypt key iv (Route.slice_until_last16 data) (Route.slice_last16 data)
      else decrypt_otherwise subtle key iv data in
    match outcome with
    | Some plain => Ok plain
    | None => Throw (js "OperationError")
    end.

End Web.

(** ** The rest of the client's utilities *)

Module Utils.

(** [base64ToArrayBuffer]: the character codes of what [atob] returns. *)
Definition base64ToArrayBuffer (base64 : js_string) : result bytes := Web.atob base64.

(** [decryptData]: the first of its steps to fail decides the error. *)
Definition decryptData (subtle : Web.Subtle) (encryptedData keyBase64 ivBase64 : js_string)
  : result js_string :=
  match base64ToArrayBuffer keyBase64 with
  | Throw e => Throw e
  | Ok keyBuffer =>
      match base64ToArrayBuffer ivBase64 with
      | Throw e => Throw e
      | Ok ivBuffer =>
          match base64ToArrayBuffer encryptedData with
          | Throw e => Throw e
          | Ok encryptedBuffer =>
              match Web.importKey_decrypt subtle keyBuffer ivBuffer encryptedBuffer with
              | Throw e => Throw e
              | Ok decrypted => Ok (Web.TextDecoder_decode decrypted)
              end
          end
      end
  end.

(** [generateSHA256Hash]: the digest of the UTF-8 bytes, in base64. *)
Definition generateSHA256Hash (data : js_string) : js_string :=
  Client.arrayBufferToBase64 (SHA256.digest (UTF8.encode data)).

Record Score : Type := {
  category : js_string;
  value : Z
}.

Record Results : Type := {
  scores : list Score;
  timestamp : js_string;
  hashProof : js_string;
  overallScore : Q
}.

(** [Math.floor(Math.random() * 3) + base]; the product is a double. *)
Definition draw (r : Q) (base : Z) : Z := Math_floor (fl (r * 3)) + base.

Definition sum_values (l : list Score) : Z := fold_left (fun sum score => sum + value score) l 0.

(** [submitPitch].  [random n] is the [n]-th number that [Math.random] returns and
    [now] what [new Date().toISOString()] gives. *)
Definition submitPitch (random : nat -> Q) (now : js_string) (encryptedPitch : Client.Envelope)
  : Results :=
  let scores :=
    [ {| category := js "Market Opportunity"; value := draw (random 0%nat) 7 |};
      {| category := js "Business Model"; value := draw (random 1%nat) 6 |};
      {| category := js "Competitive Advantage"; value := draw (random 2%nat) 7 |};
      {| category := js "Team Strength"; value := draw (random 3%nat) 6 |};
      {| category := js "Financial Projections"; value := draw (random 4%nat) 5 |};
      {| category := js "Scalability"; value := draw (random 5%nat) 7 |};
      {| category := js "Risk Assessment"; value := draw (random 6%nat) 6 |};
      {| category := js "Innovation Factor"; value := draw (random 7%nat) 8 |} ] in
  {| scores := scores;
     timestamp := now;
     hashProof := generateSHA256Hash (Client.encryptedData encryptedPitch);
     overallScore :=
       (inject_Z (Math_round (inject_Z (sum_values scores) /
                              inject_Z (Z.of_nat (List.length scores)) * 10)) / 10)%Q |}.

End Utils.

(** ** The first handler of route.ts *)

Module Legacy.

Definition DEFAULT_MODEL : js_string := js "mistral-7b-instruct".

(** The surroundings of one request: the configured credential, how [fetch] settles
    for a model and a pitch, the numbers that successive calls of [Math.random]
    return, what [new Date().toISOString()] gives, [JSON.stringify] and the cipher of
    the platform. *)
Record Env : Type := {
  env_OPENROUTER_API_KEY : option js_string;
  fetch : js_string -> js_string -> Route.FetchOutcome;
  Math_random : nat -> Q;
  toISOString : js_string;
  JSON_stringify : json -> js_string;
  subtle : Web.Subtle
}.

(** [Math.floor(Math.random() * span) + base]; the product is a double. *)
Definition pick (r : Q) (span base : Z) : Z := Math_floor (fl (r * inject_Z span)) + base.

(** [mockAnalysis]: the members of the object, in creation order. *)
Definition mockAnalysis (env : Env) : list (js_string * json) :=
  [(js "clarity", JNum (inject_Z (pick (Math_random env 0%nat) 30 70)));
   (js "originality", JNum (inject_Z (pick (Math_random env 1%nat) 30 65)));
   (js "team_strength", JNum (inject_Z (pick (Math_random env 2%nat) 25 60)));
   (js "market_fit", JNum (inject_Z (pick (Math_random env 3%nat) 35 65)))].

(** [decryptPitchData]: whatever is thrown on the way, the [catch] throws one
    message. *)
Definition decryptPitchData (subtle : Web.Subtle) (ciphertextBase64 keyBase64 ivBase64 : js_string)
  : result js_string :=
  let failed := Throw (js "Failed to decrypt pitch data") in
  match Web.atob ciphertextBase64 with
  | Throw _ => failed
  | Ok ciphertext =>
      match Web.atob keyBase64 with
      | Throw _ => failed
      | Ok keyData =>
          match Web.atob ivBase64 with
          | Throw _ => failed
          | Ok iv =>
              match Web.importKey_decrypt subtle keyData iv ciphertext with
              | Throw _ => failed
              | Ok decryptedData => Ok (Web.TextDecoder_decode decryptedData)
              end
          end
      end
  end.

(** [generateReceipt]: the scores arrive as text. *)
Definition generateReceipt (ciphertext modelName timestamp scores : js_string) : js_string :=
  let data := ciphertext ++ [124] ++ modelName ++ [124] ++ timestamp ++ [124] ++ scores in
  to_hex (SHA256.digest (UTF8.encode data)).

(** [typeof v === 'number']. *)
Definition is_number (v : option json) : bool :=
  match v with
  | Some (JNum _) | Some (JInf _) => true
  | _ => false
  end.

(** [data.choices?.[0]?.message?.content]; reading a property of [null] throws. *)
Definition content_of (data : json) : result (option json) :=
  match data with
  | JNull => Throw (js "TypeError")
  | _ =>
      Ok (Route.optional (Route.member (js "content"))
            (Route.optional (Route.member (js "message"))
               (Route.optional Route.index0 (Route.member (js "choices") data))))
  end.

(** The [try] block of [analyzeWithOpenRouter]: [Some] exactly when control reaches
    [return scores].  A reply that is not a string has no [trim] to call, and only an
    object has the four properties. *)
Definition upstream (host : Host) (env : Env) (pitchText model : js_string)
  : option (list (js_string * json)) :=
  match fetch env (js "openrouter/" ++ model) pitchText with
  | Route.FetchRejected _ => None
  | Route.FetchResolved ok _ data =>
      if negb ok then None
      else
        match data with
        | None => None
        | Some d =>
            match content_of d with
            | Ok (Some (JStr content)) =>
                if Route.is_empty content then None
                else
                  match JSON_parse host (trim content) with
                  | Some (JObj scores) =>
                      if forallb (fun k => is_number (lookup k scores)) Route.requiredKeys
                      then Some scores
                      else None
                  | _ => None
                  end
            | _ => None
            end
        end
  end.

Definition analyzeWithOpenRouter (host : Host) (env : Env) (pitchText model : js_string)
  : list (js_string * json) :=
  match env_OPENROUTER_API_KEY env with
  | None => mockAnalysis env
  | Some k =>
      if Route.is_empty k then mockAnalysis env
      else
        match upstream host env pitchText model with
        | Some scores => scores
        | None => mockAnalysis env
        end
  end.

(** The request object.  This handler declares the body an [AnalysisRequest], whose
    members are strings; members that are not strings are not among the requests
    described here. *)
Record RequestObject : Type := {
  encrypted_pitch : option js_string;
  encryption_key : option js_string;
  encryption_iv : option js_string;
  model : option js_string
}.

(** What [request.json()] yields: a rejection, [null], another JSON primitive, or an
    object (an array behaves as an object without any of the members). *)
Inductive Body : Type :=
| BodyMalformed
| BodyNull
| BodyPrimitive
| BodyObject (o : RequestObject).

(** [!member]. *)
Definition absent (m : option js_string) : bool :=
  match m with
  | Some s => Route.is_empty s
  | None => true
  end.

Definition text_of (m : option js_string) : js_string :=
  match m with
  | Some s => s
  | None => []
  end.

(** [pitchText.replace(/[<>]/g, '').substring(0, 10000)]. *)
Definition sanitize (pitchText : js_string) : js_string :=
  substring0 10000 (filter (fun c => negb ((c =? 60) || (c =? 62))) pitchText).

(** [{...scores, receipt}]: a property that exists keeps its place.  The response
    carries the object as [JSON.stringify] writes it. *)
Fixpoint with_member (k : js_string) (v : json) (ms : list (js_string * json))
  : list (js_string * json) :=
  match ms with
  | [] => [(k, v)]
  | (k', v') :: r => if str_eqb k k' then (k', v) :: r else (k', v') :: with_member k v r
  end.

Definition POST (host : Host) (env : Env) (request : Body) : Route.Response :=
  match request with
  | BodyMalformed | BodyNull =>
      Route.error_response 500 (js "Internal server error during analysis")
  | BodyPrimitive => Route.error_response 400 (js "Missing required encryption parameters")
  | BodyObject body =>
      if absent (encrypted_pitch body) || absent (encryption_key body) ||
         absent (encryption_iv body)
      then Route.error_response 400 (js "Missing required encryption parameters")
      else
        match decryptPitchData (subtle env) (text_of (encrypted_pitch body))
                (text_of (encryption_key body)) (text_of (encryption_iv body)) with
        | Throw _ => Route.error_response 400 (js "Failed to decrypt pitch data")
        | Ok pitchText =>
            if str_length pitchText <? 50
            then Route.error_response 400 (js "Pitch content too short or invalid")
            else
              let sanitizedPitch := sanitize pitchText in
              let modelName :=
                if absent (model body) then DEFAULT_MODEL else text_of (model body) in
              let scores := analyzeWithOpenRouter host env sanitizedPitch modelName in
              let timestamp := toISOString env in
              let scoresString := JSON_stringify env (JObj scores) in
              let receipt :=
                generateReceipt (text_of (encrypted_pitch body)) modelName timestamp
                  scoresString in
              {| Route.status := 200;
                 Route.body := wire (JObj (with_member (js "receipt") (JStr receipt) scores)) |}
        end
  end.

(** The request that carries an envelope under the names this handler reads. *)
Definition submission (e : Client.Envelope) (hint : option js_string) : Body :=
  BodyObject {| encrypted_pitch := Some (Client.encryptedData e);
                encryption_key := Some (Client.key e);
                encryption_iv := Some (Client.iv e);
                model := hint |}.

End Legacy.

(** ** Sample surroundings for the client and the first handler *)

Module Trial.

Definition now : js_string := js "2024-01-01T00:00:00.000Z".

(** Random numbers spread over the unit interval. *)
Definition eighths (n : nat) : Q := (inject_Z (Z.of_nat n) / 8)%Q.
Definition quarters (n : nat) : Q := (inject_Z (Z.of_nat n) / 4)%Q.

(** A platform with no cipher but AES-256-GCM under a 96-bit IV. *)
Definition subtle : Web.Subtle := {| Web.decrypt_otherwise := fun _ _ _ => None |}.

(** No credential and no upstream. *)
Definition env : Legacy.Env :=
  {| Legacy.env_OPENROUTER_API_KEY := None;
     Legacy.fetch := fun _ _ => Route.FetchRejected false;
     Legacy.Math_random := quarters;
     Legacy.toISOString := now;
     Legacy.JSON_stringify := fun _ => js "{}";
     Legacy.subtle := subtle |}.

End Trial.

(** * Properties *)

(** ** Arithmetic with quotients and remainders *)

Ltac dm_lia := Z.to_euclidean_division_equations; lia.

Lemma is_byte_range b : is_byte b = true <-> 0 <= b < 256.
Proof. unfold is_byte. rewrite andb_true_iff, Z.leb_le, Z.ltb_lt. tauto. Qed.

(** ** The primitives against their published test vectors *)

(** FIPS 197, appendix C.3. *)
Example aes256_fips197 :
  AES.Cipher (AES.KeyExpansion (map Z.of_nat (seq 0 32)))
    (Z_to_bytes 16 0x00112233445566778899aabbccddeeff) =
  Z_to_bytes 16 0x8ea2b7ca516745bfeafc49904b496089.
Proof. vm_compute. reflexivity. Qed.

(** The GCM specification, test case 14: a zero key, a zero IV and one zero block. *)
Example gcm_zero_block :
  GCM.encrypt (repeat 0 32) (repeat 0 12) (repeat 0 16) =
  (Z_to_bytes 16 0xcea7403d4d606b6e074ec5d3baf39d18,
   Z_to_bytes 16 0xd0d1c8a799996bf0265b98b5d48ab919).
Proof. vm_compute. reflexivity. Qed.

(** FIPS 180-4: the digest of the three letters abc. *)
Example sha256_abc :
  to_hex (SHA256.digest (js "abc")) =
  js "ba7816bf8f01cfea414140de5dae2223b00361a396177a9cb410ff61f20015ad".
Proof. vm_compute. reflexivity. Qed.

(** Node's decoder reads a code unit by its low byte: the units U+0141, U+0151,
    U+013D and U+013D are read as the text [AQ==], and a unit whose low byte is
    outside the alphabet is skipped. *)
Example decode_low_byte :
  Base64.decode [0x141; 0x151; 0x13D; 0x13D] = Base64.decode (js "AQ==") /\
  Base64.decode (js "AQ==") = [1] /\
  Base64.decode [0x41; 0x120; 0x51; 0x3D; 0x3D] = [1].
Proof. vm_compute. repeat split. Qed.

(** ** Base64 round trip *)

Lemma list_ind3 (A : Type) (P : list A -> Prop) :
  P [] -> (forall x, P [x]) -> (forall x y, P [x; y]) ->
  (forall x y z r, P r -> P (x :: y :: z :: r)) ->
  forall l, P l.
Proof.
  intros H0 H1 H2 H3.
  fix IH 1.
  intros [|x [|y [|z r]]].
  - exact H0.
  - apply H1.
  - apply H2.
  - apply H3, IH.
Qed.

Lemma symbol_table :
  forallb (fun n => let v := Z.of_nat n in
                    (Base64.symbol v mod 256 =? Base64.symbol v) &&
                    match Base64.unbase64 (Base64.symbol v) with
                    | Some w => (w =? v) && negb (Base64.symbol v =? Base64.pad)
                    | None => false
                    end) (seq 0 64) = true.
Proof. vm_compute. reflexivity. Qed.

Lemma sextets_symbol v s :
  0 <= v < 64 -> Base64.sextets (Base64.symbol v :: s) = v :: Base64.sextets s.
Proof.
  intros Hv.
  pose proof (proj1 (forallb_forall _ _) symbol_table (Z.to_nat v)) as H.
  cbv beta zeta in H. rewrite Z2Nat.id in H by lia.
  assert (Hin : In (Z.to_nat v) (seq 0 64)) by (apply in_seq; lia).
  specialize (H Hin).
  apply andb_true_iff in H. destruct H as [Hm H]. apply Z.eqb_eq in Hm.
  cbn [Base64.sextets]. cbv zeta. rewrite Hm.
  destruct (Base64.unbase64 (Base64.symbol v)) as [w|]; [|discriminate].
  apply andb_true_iff in H. destruct H as [Hw Hp].
  apply Z.eqb_eq in Hw. subst w.
  apply negb_true_iff in Hp. rewrite Hp. reflexivity.
Qed.

Lemma sextets_pad s : Base64.sextets (Base64.pad :: s) = [].
Proof. reflexivity. Qed.

Lemma base64_decode_encode b :
  is_bytes b = true -> Base64.decode (Base64.encode b) = b.
Proof.
  unfold Base64.decode, is_bytes.
  induction b as [|x|x y|x y z r IH] using list_ind3; intros Hb.
  - reflexivity.
  - cbn [forallb] in Hb. rewrite !andb_true_iff, is_byte_range in Hb.
    cbn [Base64.encode].
    rewrite !sextets_symbol, sextets_pad by dm_lia.
    cbn [Base64.group]. f_equal. dm_lia.
  - cbn [forallb] in Hb. rewrite !andb_true_iff, !is_byte_range in Hb.
    cbn [Base64.encode].
    rewrite !sextets_symbol, sextets_pad by dm_lia.
    cbn [Base64.group]. repeat (f_equal; try dm_lia).
  - cbn [forallb] in Hb. rewrite !andb_true_iff, !is_byte_range in Hb.
    destruct Hb as (Hx & Hy & Hz & Hr).
    cbn [Base64.encode app].
    rewrite !sextets_symbol by dm_lia.
    cbn [Base64.group app]. rewrite (IH Hr).
    repeat (f_equal; try dm_lia).
Qed.

(** ** UTF-8 round trip *)

Lemma lead_1 b : b <= 0x7F -> UTF8.lead b = ([b], UTF8.Start).
Proof. intros H. unfold UTF8.lead. rewrite (proj2 (Z.leb_le _ _)) by lia. reflexivity. Qed.

Lemma lead_2 b :
  0xC2 <= b <= 0xDF -> UTF8.lead b = ([], UTF8.Cont (b - 0xC0) 1 0x80 0xBF).
Proof.
  intros H. unfold UTF8.lead.
  rewrite (proj2 (Z.leb_gt _ _)) by lia.
  rewrite (proj2 (Z.leb_le 0xC2 b)), (proj2 (Z.leb_le b 0xDF)) by lia. reflexivity.
Qed.

Lemma lead_3 b :
  0xE0 <= b <= 0xEF ->
  UTF8.lead b = ([], UTF8.Cont (b - 0xE0) 2 (if b =? 0xE0 then 0xA0 else 0x80)
                                           (if b =? 0xED then 0x9F else 0xBF)).
Proof.
  intros H. unfold UTF8.lead.
  rewrite (proj2 (Z.leb_gt _ _)) by lia.
  rewrite (proj2 (Z.leb_le 0xC2 b)), (proj2 (Z.leb_gt b 0xDF)) by lia.
  rewrite (proj2 (Z.leb_le 0xE0 b)), (proj2 (Z.leb_le b 0xEF)) by lia. reflexivity.
Qed.

Lemma lead_4 b :
  0xF0 <= b <= 0xF4 ->
  UTF8.lead b = ([], UTF8.Cont (b - 0xF0) 3 (if b =? 0xF0 then 0x90 else 0x80)
                                           (if b =? 0xF4 then 0x8F else 0xBF)).
Proof.
  intros H. unfold UTF8.lead.
  rewrite (proj2 (Z.leb_gt _ _)) by lia.
  rewrite (proj2 (Z.leb_le 0xC2 b)), (proj2 (Z.leb_gt b 0xDF)) by lia.
  rewrite (proj2 (Z.leb_le 0xE0 b)), (proj2 (Z.leb_gt b 0xEF)) by lia.
  rewrite (proj2 (Z.leb_le 0xF0 b)), (proj2 (Z.leb_le b 0xF4)) by lia. reflexivity.
Qed.

Lemma step_last cp lo hi b :
  lo <= b <= hi ->
  UTF8.step (UTF8.Cont cp 1 lo hi) b = (UTF8.emit (cp * 64 + (b - 0x80)), UTF8.Start).
Proof.
  intros H. unfold UTF8.step.
  rewrite (proj2 (Z.leb_le lo b)), (proj2 (Z.leb_le b hi)) by lia. reflexivity.
Qed.

Lemma step_more cp n lo hi b :
  lo <= b <= hi ->
  UTF8.step (UTF8.Cont cp (S (S n)) lo hi) b =
  ([], UTF8.Cont (cp * 64 + (b - 0x80)) (S n) 0x80 0xBF).
Proof.
  intros H. unfold UTF8.step.
  rewrite (proj2 (Z.leb_le lo b)), (proj2 (Z.leb_le b hi)) by lia. reflexivity.
Qed.

Lemma decode_from_cons st b bs :
  UTF8.decode_from st (b :: bs) =
  fst (UTF8.step st b) ++ UTF8.decode_from (snd (UTF8.step st b)) bs.
Proof. cbn [UTF8.decode_from]. destruct (UTF8.step st b). reflexivity. Qed.

Lemma decode_code_point cp rest :
  scalar cp ->
  UTF8.decode_from UTF8.Start (UTF8.encode_code_point cp ++ rest) =
  UTF8.emit cp ++ UTF8.decode_from UTF8.Start rest.
Proof.
  intros Hcp. unfold scalar in Hcp. unfold UTF8.encode_code_point.
  destruct (Z.ltb_spec cp 0x80); [|destruct (Z.ltb_spec cp 0x800); [|destruct (Z.ltb_spec cp 0x10000)]].
  - cbn [app]. rewrite decode_from_cons. cbn [UTF8.step]. rewrite lead_1 by lia.
    cbn [fst snd]. unfold UTF8.emit. rewrite (proj2 (Z.ltb_lt _ _)) by lia. reflexivity.
  - cbn [app]. rewrite decode_from_cons. cbn [UTF8.step]. rewrite lead_2 by dm_lia.
    cbn [fst snd app]. rewrite decode_from_cons, step_last by dm_lia.
    cbn [fst snd]. do 2 f_equal. dm_lia.
  - cbn [app]. rewrite decode_from_cons. cbn [UTF8.step]. rewrite lead_3 by dm_lia.
    cbn [fst snd app]. rewrite decode_from_cons, step_more.
    2:{ destruct (Z.eqb_spec (224 + cp / 4096) 224), (Z.eqb_spec (224 + cp / 4096) 237); dm_lia. }
    cbn [fst snd app]. rewrite decode_from_cons, step_last by dm_lia.
    cbn [fst snd]. do 2 f_equal. dm_lia.
  - cbn [app]. rewrite decode_from_cons. cbn [UTF8.step]. rewrite lead_4 by dm_lia.
    cbn [fst snd app]. rewrite decode_from_cons, step_more.
    2:{ destruct (Z.eqb_spec (240 + cp / 262144) 240), (Z.eqb_spec (240 + cp / 262144) 244); dm_lia. }
    cbn [fst snd app]. rewrite decode_from_cons, step_more by dm_lia.
    cbn [fst snd app]. rewrite decode_from_cons, step_last by dm_lia.
    cbn [fst snd]. do 2 f_equal. dm_lia.
Qed.

Lemma surrogate_tests c :
  (is_high_surrogate c = true <-> 0xD800 <= c <= 0xDBFF) /\
  (is_low_surrogate c = true <-> 0xDC00 <= c <= 0xDFFF) /\
  (is_code_unit c = true <-> 0 <= c < 65536).
Proof.
  unfold is_high_surrogate, is_low_surrogate, is_code_unit.
  rewrite !andb_true_iff, !Z.leb_le, Z.ltb_lt. tauto.
Qed.

Lemma emit_pair c d :
  0xD800 <= c <= 0xDBFF -> 0xDC00 <= d <= 0xDFFF ->
  UTF8.emit (0x10000 + (c - 0xD800) * 1024 + (d - 0xDC00)) = [c; d].
Proof.
  intros Hc Hd. unfold UTF8.emit.
  rewrite (proj2 (Z.ltb_ge _ _)) by lia.
  f_equal; [|f_equal]; dm_lia.
Qed.

Lemma emit_unit c : c < 0x10000 -> UTF8.emit c = [c].
Proof. intros H. unfold UTF8.emit. rewrite (proj2 (Z.ltb_lt _ _)) by lia. reflexivity. Qed.

Lemma list_ind2 (A : Type) (P : list A -> Prop) :
  P [] -> (forall x, P [x]) -> (forall x y r, P r -> P (y :: r) -> P (x :: y :: r)) ->
  forall l, P l.
Proof.
  intros H0 H1 H2.
  assert (H : forall l, P l /\ forall x, P (x :: l)).
  { induction l as [|y r [IH1 IH2]].
    - split; [exact H0 | exact H1].
    - split; [apply IH2 | intros x; apply H2; [exact IH1 | apply IH2]]. }
  intros l. apply H.
Qed.

Lemma encode_cons c s :
  UTF8.encode (c :: s) =
  if is_high_surrogate c then
    match s with
    | d :: s' =>
        if is_low_surrogate d
        then UTF8.encode_code_point (0x10000 + (c - 0xD800) * 1024 + (d - 0xDC00)) ++
             UTF8.encode s'
        else UTF8.encode_code_point 0xFFFD ++ UTF8.encode s
    | [] => UTF8.encode_code_point 0xFFFD
    end
  else if is_low_surrogate c then UTF8.encode_code_point 0xFFFD ++ UTF8.encode s
  else UTF8.encode_code_point c ++ UTF8.encode s.
Proof. reflexivity. Qed.

Lemma utf8_decode_encode s :
  well_formed s = true -> UTF8.decode (UTF8.encode s) = s.
Proof.
  unfold UTF8.decode.
  induction s as [|c|c d r IHr IHd] using list_ind2; intros Hwf.
  - reflexivity.
  - cbn [well_formed] in Hwf. cbn [UTF8.encode].
    destruct (is_high_surrogate c) eqn:Hh; [discriminate|].
    rewrite !andb_true_iff, negb_true_iff in Hwf. destruct Hwf as ((Hu & Hl) & _).
    rewrite Hl.
    assert (Hnh : ~ 0xD800 <= c <= 0xDBFF)
      by (rewrite <- (proj1 (surrogate_tests c)); congruence).
    assert (Hnl : ~ 0xDC00 <= c <= 0xDFFF)
      by (rewrite <- (proj1 (proj2 (surrogate_tests c))); congruence).
    apply (proj2 (proj2 (surrogate_tests c))) in Hu.
    rewrite decode_code_point by (unfold scalar; lia).
    rewrite emit_unit by lia. reflexivity.
  - cbn [well_formed] in Hwf. rewrite encode_cons.
    destruct (is_high_surrogate c) eqn:Hh.
    + apply andb_true_iff in Hwf. destruct Hwf as (Hl & Hr). rewrite Hl.
      apply (proj1 (surrogate_tests c)) in Hh.
      apply (proj1 (proj2 (surrogate_tests d))) in Hl.
      rewrite decode_code_point by (unfold scalar; lia).
      rewrite emit_pair by lia. rewrite (IHr Hr). reflexivity.
    + rewrite !andb_true_iff, negb_true_iff in Hwf. destruct Hwf as ((Hu & Hl) & Hr).
      rewrite Hl.
      assert (Hnh : ~ 0xD800 <= c <= 0xDBFF)
        by (rewrite <- (proj1 (surrogate_tests c)); congruence).
      assert (Hnl : ~ 0xDC00 <= c <= 0xDFFF)
        by (rewrite <- (proj1 (proj2 (surrogate_tests c))); congruence).
      apply (proj2 (proj2 (surrogate_tests c))) in Hu.
      rewrite decode_code_point by (unfold scalar; lia).
      rewrite emit_unit by lia. rewrite (IHd Hr). reflexivity.
Qed.

Lemma encode_code_point_bytes cp :
  0 <= cp < 0x110000 -> is_bytes (UTF8.encode_code_point cp) = true.
Proof.
  intros H. unfold UTF8.encode_code_point, is_bytes.
  destruct (Z.ltb_spec cp 0x80); [|destruct (Z.ltb_spec cp 0x800); [|destruct (Z.ltb_spec cp 0x10000)]];
    cbn [forallb]; rewrite ?andb_true_iff, ?is_byte_range; repeat split; dm_lia.
Qed.

Lemma is_bytes_app a b : is_bytes (a ++ b) = is_bytes a && is_bytes b.
Proof. apply forallb_app. Qed.

Lemma utf8_encode_bytes s :
  forallb is_code_unit s = true -> is_bytes (UTF8.encode s) = true.
Proof.
  induction s as [|c|c d r IHr IHd] using list_ind2; intros Hs.
  - reflexivity.
  - cbn [forallb] in Hs. rewrite andb_true_iff in Hs. destruct Hs as (Hc & _).
    apply (proj2 (proj2 (surrogate_tests c))) in Hc.
    cbn [UTF8.encode].
    destruct (is_high_surrogate c); [apply encode_code_point_bytes; lia|].
    destruct (is_low_surrogate c); rewrite is_bytes_app, encode_code_point_bytes by lia;
      reflexivity.
  - cbn [forallb] in Hs. rewrite !andb_true_iff in Hs. destruct Hs as (Hc & Hd & Hr).
    assert (Hdr : forallb is_code_unit (d :: r) = true)
      by (cbn [forallb]; rewrite Hd, Hr; reflexivity).
    apply (proj2 (proj2 (surrogate_tests c))) in Hc.
    rewrite encode_cons.
    destruct (is_high_surrogate c) eqn:Hh.
    + apply (proj1 (surrogate_tests c)) in Hh.
      destruct (is_low_surrogate d) eqn:Hl.
      * apply (proj1 (proj2 (surrogate_tests d))) in Hl.
        rewrite is_bytes_app, encode_code_point_bytes by lia. apply (IHr Hr).
      * rewrite is_bytes_app, encode_code_point_bytes by lia. apply (IHd Hdr).
    + destruct (is_low_surrogate c); rewrite is_bytes_app, encode_code_point_bytes by lia;
        apply (IHd Hdr).
Qed.

Lemma well_formed_code_units s : well_formed s = true -> forallb is_code_unit s = true.
Proof.
  induction s as [|c|c d r IHr IHd] using list_ind2; intros Hwf.
  - reflexivity.
  - cbn [well_formed] in Hwf. destruct (is_high_surrogate c); [discriminate|].
    rewrite !andb_true_iff in Hwf. cbn [forallb]. rewrite (proj1 (proj1 Hwf)). reflexivity.
  - cbn [well_formed] in Hwf. cbn [forallb].
    destruct (is_high_surrogate c) eqn:Hh.
    + apply andb_true_iff in Hwf. destruct Hwf as (Hl & Hr).
      apply (proj1 (surrogate_tests c)) in Hh.
      apply (proj1 (proj2 (surrogate_tests d))) in Hl.
      rewrite (IHr Hr), andb_true_r.
      rewrite (proj2 (proj2 (proj2 (surrogate_tests c)))) by lia.
      rewrite (proj2 (proj2 (proj2 (surrogate_tests d)))) by lia. reflexivity.
    + rewrite !andb_true_iff in Hwf. destruct Hwf as ((Hu & _) & Hr).
      rewrite Hu. apply (IHd Hr).
Qed.

(** ** The counter mode is an involution *)

Lemma testbit_255 n : 0 <= n -> Z.testbit 255 n = (n <? 8).
Proof.
  intros Hn. change 255 with (Z.ones 8).
  destruct (Z.ltb_spec n 8).
  - apply Z.ones_spec_low. lia.
  - apply Z.ones_spec_high. lia.
Qed.

Lemma mask_byte x : 0 <= Z.land x 255 < 256.
Proof.
  change 255 with (Z.ones 8). rewrite Z.land_ones by lia.
  apply Z.mod_pos_bound. reflexivity.
Qed.

Lemma xor_twice x k :
  0 <= x < 256 -> Z.land (Z.lxor (Z.land (Z.lxor x k) 255) k) 255 = x.
Proof.
  intros Hx. apply Z.bits_inj'. intros n Hn.
  rewrite Z.land_spec, Z.lxor_spec, Z.land_spec, Z.lxor_spec, testbit_255 by lia.
  destruct (Z.ltb_spec n 8).
  - rewrite andb_true_r. destruct (Z.testbit x n), (Z.testbit k n); reflexivity.
  - rewrite andb_false_r. symmetry.
    destruct (Z.eq_dec x 0) as [->|Hx0]; [apply Z.bits_0|].
    apply Z.bits_above_log2; [lia|].
    apply Z.log2_lt_pow2; [lia|].
    apply Z.lt_le_trans with (2 ^ 8); [simpl; lia|].
    apply Z.pow_le_mono_r; lia.
Qed.

Lemma xor_stream_length p ks : List.length (GCM.xor_stream p ks) = List.length p.
Proof.
  revert ks. induction p as [|x p IH]; intros ks; cbn [GCM.xor_stream List.length].
  - reflexivity.
  - rewrite IH. reflexivity.
Qed.

Lemma xor_stream_bytes p ks : is_bytes (GCM.xor_stream p ks) = true.
Proof.
  revert ks. induction p as [|x p IH]; intros ks; cbn [GCM.xor_stream].
  - reflexivity.
  - unfold is_bytes in *. cbn [forallb]. rewrite IH, andb_true_r.
    apply is_byte_range. apply mask_byte.
Qed.

Lemma xor_stream_twice p ks :
  is_bytes p = true -> GCM.xor_stream (GCM.xor_stream p ks) ks = p.
Proof.
  revert ks. unfold is_bytes.
  induction p as [|x p IH]; intros ks Hp; cbn [GCM.xor_stream].
  - reflexivity.
  - cbn [forallb] in Hp. apply andb_true_iff in Hp. destruct Hp as (Hx & Hp).
    apply is_byte_range in Hx.
    rewrite xor_twice by lia. rewrite (IH _ Hp). reflexivity.
Qed.

Lemma GCTR_length rks cb x : List.length (GCM.GCTR rks cb x) = List.length x.
Proof. apply xor_stream_length. Qed.

Lemma GCTR_bytes rks cb x : is_bytes (GCM.GCTR rks cb x) = true.
Proof. apply xor_stream_bytes. Qed.

Lemma GCTR_twice rks cb x :
  is_bytes x = true -> GCM.GCTR rks cb (GCM.GCTR rks cb x) = x.
Proof.
  intros Hx. unfold GCM.GCTR at 1. rewrite GCTR_length.
  unfold GCM.GCTR. apply xor_stream_twice, Hx.
Qed.

Lemma Z_to_bytes_length n z : List.length (Z_to_bytes n z) = n.
Proof.
  revert z. induction n as [|n IH]; intros z; cbn [Z_to_bytes].
  - reflexivity.
  - rewrite length_app, IH. cbn. lia.
Qed.

Lemma tag_length rks j0 c : List.length (GCM.tag rks j0 c) = 16%nat.
Proof. unfold GCM.tag. rewrite GCTR_length. apply Z_to_bytes_length. Qed.

Lemma tag_bytes rks j0 c : is_bytes (GCM.tag rks j0 c) = true.
Proof. apply GCTR_bytes. Qed.

Lemma bytes_eqb_refl b : bytes_eqb b b = true.
Proof. unfold bytes_eqb. destruct (list_eq_dec Z.eq_dec b b); congruence. Qed.

Lemma bytes_eqb_eq a b : bytes_eqb a b = true <-> a = b.
Proof.
  unfold bytes_eqb. destruct (list_eq_dec Z.eq_dec a b); split; congruence.
Qed.

(** Decrypting what [encrypt] produced returns the plaintext. *)
Lemma gcm_decrypt_encrypt key iv p :
  is_bytes p = true ->
  GCM.decrypt key iv (fst (GCM.encrypt key iv p)) (snd (GCM.encrypt key iv p)) = Some p.
Proof.
  intros Hp. unfold GCM.decrypt, GCM.encrypt. cbn [fst snd].
  rewrite firstn_all, bytes_eqb_refl.
  rewrite GCTR_twice by exact Hp. reflexivity.
Qed.

Lemma encrypt_bytes key iv p :
  is_bytes (fst (GCM.encrypt key iv p) ++ snd (GCM.encrypt key iv p)) = true.
Proof.
  unfold GCM.encrypt. cbn [fst snd].
  rewrite is_bytes_app, GCTR_bytes, tag_bytes. reflexivity.
Qed.

(** [buffer.slice(-16)] and [buffer.slice(0, -16)] undo the appending of the tag. *)
Lemma slice_tag (c t : bytes) :
  List.length t = 16%nat ->
  skipn (List.length (c ++ t) - 16) (c ++ t) = t /\
  firstn (List.length (c ++ t) - 16) (c ++ t) = c.
Proof.
  intros Ht. rewrite length_app, Ht.
  replace (List.length c + 16 - 16)%nat with (List.length c) by lia.
  split.
  - rewrite skipn_app, skipn_all, Nat.sub_diag. reflexivity.
  - rewrite firstn_app, firstn_all, Nat.sub_diag. cbn [firstn]. apply app_nil_r.
Qed.

(** ** The envelope round trip *)

(** What the route recovers from an envelope made by the client: the decoding of the
    encoding of the pitch, provided it is long enough. *)
Lemma decrypt_attempt_envelope host raw_key raw_iv pitch :
  List.length raw_key = 32%nat -> is_bytes raw_key = true ->
  List.length raw_iv = 12%nat -> is_bytes raw_iv = true ->
  forallb is_code_unit pitch = true ->
  let e := Client.encryptPitch raw_key raw_iv pitch in
  Route.decrypt_attempt host
    (JStr (Client.encryptedData e)) (JStr (Client.key e)) (JStr (Client.iv e)) =
  if str_length (UTF8.decode (UTF8.encode pitch)) <? Route.MIN_PITCH_LENGTH
  then Throw (js "Pitch content too short")
  else Ok (UTF8.decode (UTF8.encode pitch)).
Proof.
  intros Hkl Hkb Hil Hib Hp e. subst e.
  unfold Route.decrypt_attempt, Route.slice_last16, Route.slice_until_last16.
  unfold Client.encryptPitch, Client.arrayBufferToBase64.
  cbn [Client.encryptedData Client.key Client.iv Route.Buffer_from].
  rewrite !base64_decode_encode by (assumption || apply encrypt_bytes).
  rewrite Hkl, Hil. cbn [Nat.eqb negb].
  set (data := UTF8.encode pitch).
  set (c := fst (GCM.encrypt raw_key raw_iv data)).
  set (t := snd (GCM.encrypt raw_key raw_iv data)).
  assert (Ht : List.length t = 16%nat) by apply tag_length.
  destruct (slice_tag c t Ht) as (Hs & Hf). rewrite Hs, Hf, Ht.
  change (GCM.valid_tag_length 16) with true. cbn [negb].
  subst c t. rewrite gcm_decrypt_encrypt by (apply utf8_encode_bytes, Hp).
  reflexivity.
Qed.

(** C3 (as amended).  For every well-formed plaintext [p] (no unpaired surrogate)
    with [50 <= len(p) <= 10000], a 32-byte key and a 12-byte IV, the route's
    [decryptPitchData] applied to the envelope that [encryptPitch] makes of [p]
    returns exactly [p]. *)
Theorem C3_decrypt_encrypt host raw_key raw_iv p :
  List.length raw_key = 32%nat -> is_bytes raw_key = true ->
  List.length raw_iv = 12%nat -> is_bytes raw_iv = true ->
  well_formed p = true ->
  50 <= str_length p <= 10000 ->
  Route.decryptPitchData host
    (JStr (Client.encryptedData (Client.encryptPitch raw_key raw_iv p)))
    (JStr (Client.key (Client.encryptPitch raw_key raw_iv p)))
    (JStr (Client.iv (Client.encryptPitch raw_key raw_iv p))) = Ok p.
Proof.
  intros Hkl Hkb Hil Hib Hwf Hlen.
  unfold Route.decryptPitchData.
  rewrite decrypt_attempt_envelope
    by (assumption || apply well_formed_code_units, Hwf).
  rewrite utf8_decode_encode by exact Hwf.
  unfold Route.MIN_PITCH_LENGTH.
  rewrite (proj2 (Z.ltb_ge _ _)) by lia. reflexivity.
Qed.

(** The round trip of the sample pitch under the sample key and IV. *)
Lemma C3_witness :
  Route.decryptPitchData Sample.host
    (JStr (Client.encryptedData (Client.encryptPitch Sample.raw_key Sample.raw_iv Sample.pitch)))
    (JStr (Client.key (Client.encryptPitch Sample.raw_key Sample.raw_iv Sample.pitch)))
    (JStr (Client.iv (Client.encryptPitch Sample.raw_key Sample.raw_iv Sample.pitch)))
  = Ok Sample.pitch.
Proof.
  apply C3_decrypt_encrypt; try reflexivity.
  vm_compute. split; discriminate.
Defined.

(** C3 (as stated) fails for a plaintext of 50 code units that starts with an unpaired
    surrogate: the encoder replaces it by U+FFFD, and that is what comes back. *)
Lemma C3_counterexample :
  50 <= str_length Sample.unpaired <= 10000 /\
  Route.decryptPitchData Sample.host
    (JStr (Client.encryptedData (Client.encryptPitch Sample.raw_key Sample.raw_iv Sample.unpaired)))
    (JStr (Client.key (Client.encryptPitch Sample.raw_key Sample.raw_iv Sample.unpaired)))
    (JStr (Client.iv (Client.encryptPitch Sample.raw_key Sample.raw_iv Sample.unpaired)))
  = Ok (0xFFFD :: repeat 97 49) /\
  0xFFFD :: repeat 97 49 <> Sample.unpaired.
Proof.
  split; [vm_compute; split; discriminate|].
  split; [|discriminate].
  unfold Route.decryptPitchData.
  rewrite decrypt_attempt_envelope by reflexivity.
  reflexivity.
Qed.

(** ** Sanitizing *)

Lemma remove_all_spec c x s : In x (remove_all c s) <-> In x s /\ x <> c.
Proof.
  unfold remove_all. rewrite filter_In, negb_true_iff, Z.eqb_neq. tauto.
Qed.

Lemma remove_all_length c s : (List.length (remove_all c s) <= List.length s)%nat.
Proof. apply filter_length_le. Qed.

Lemma trim_start_incl s x : In x (trim_start s) -> In x s.
Proof.
  induction s as [|c s IH]; cbn [trim_start]; [tauto|].
  destruct (is_white_space c); [right; apply IH; assumption | tauto].
Qed.

Lemma trim_start_length s : (List.length (trim_start s) <= List.length s)%nat.
Proof.
  induction s as [|c s IH]; cbn [trim_start]; [lia|].
  destruct (is_white_space c); cbn [List.length]; lia.
Qed.

Lemma trim_incl s x : In x (trim s) -> In x s.
Proof.
  unfold trim. intros H.
  apply in_rev in H. apply trim_start_incl in H.
  apply in_rev in H. apply trim_start_incl in H. exact H.
Qed.

Lemma trim_length s : (List.length (trim s) <= List.length s)%nat.
Proof.
  unfold trim. rewrite length_rev.
  etransitivity; [apply trim_start_length|]. rewrite length_rev.
  apply trim_start_length.
Qed.

Lemma substring0_incl n s x : In x (substring0 n s) -> In x s.
Proof.
  unfold substring0. intros H.
  rewrite <- (firstn_skipn (Z.to_nat n) s). apply in_or_app. left. exact H.
Qed.

(** The text stripped of the five characters, before it is cut or trimmed. *)
Lemma sanitizeInput_incl text x :
  In x (Route.sanitizeInput text) -> In x (Route.stripped text).
Proof.
  unfold Route.sanitizeInput. fold (Route.stripped text).
  destruct (Route.MAX_PITCH_LENGTH <? str_length (Route.stripped text)).
  - apply substring0_incl.
  - apply trim_incl.
Qed.

Lemma stripped_spec text x :
  In x (Route.stripped text) <->
  In x text /\ x <> 60 /\ x <> 62 /\ x <> 38 /\ x <> 34 /\ x <> 39.
Proof. unfold Route.stripped. rewrite !remove_all_spec. tauto. Qed.

Lemma sanitizeInput_length text :
  str_length (Route.sanitizeInput text) <= Route.MAX_PITCH_LENGTH.
Proof.
  unfold Route.sanitizeInput. fold (Route.stripped text).
  unfold str_length, Route.MAX_PITCH_LENGTH, substring0.
  destruct (Z.ltb_spec 10000 (Z.of_nat (List.length (Route.stripped text)))).
  - rewrite length_firstn. lia.
  - pose proof (trim_length (Route.stripped text)). lia.
Qed.

(** A long text is cut to exactly [MAX_PITCH_LENGTH] characters. *)
Lemma sanitizeInput_truncates text :
  Route.MAX_PITCH_LENGTH < str_length (Route.stripped text) ->
  Route.sanitizeInput text = substring0 Route.MAX_PITCH_LENGTH (Route.stripped text) /\
  str_length (Route.sanitizeInput text) = Route.MAX_PITCH_LENGTH.
Proof.
  intros H. unfold Route.sanitizeInput. fold (Route.stripped text).
  rewrite (proj2 (Z.ltb_lt _ _)) by exact H.
  split; [reflexivity|].
  unfold str_length, Route.MAX_PITCH_LENGTH, substring0 in *.
  rewrite length_firstn. lia.
Qed.

(** C7.  [sanitizeInput] is a function of its argument alone, and for every input its
    result holds no angle bracket, no double or single quote and no ampersand. *)
Theorem C7_sanitize_strips text :
  forallb (fun c => negb ((c =? 60) || (c =? 62) || (c =? 34) || (c =? 39) || (c =? 38)))
    (Route.sanitizeInput text) = true.
Proof.
  apply forallb_forall. intros x Hx.
  apply sanitizeInput_incl, stripped_spec in Hx.
  destruct Hx as (_ & H1 & H2 & H3 & H4 & H5).
  rewrite negb_true_iff, !orb_false_iff, !Z.eqb_neq. tauto.
Qed.

(** ** The mock scorer *)

Lemma random_range host seed : (0 <= Route.random host seed < 1)%Q.
Proof.
  unfold Route.random, Math_floor.
  set (x := (Math_sin host (inject_Z seed) * 10000)%Q).
  pose proof (Qfloor_le x) as Hlo.
  pose proof (Qlt_floor x) as Hhi.
  rewrite inject_Z_plus in Hhi. change (inject_Z 1) with 1%Q in Hhi.
  split; lra.
Qed.

Lemma round1_range x : (0 <= x <= 10)%Q -> Route.in_range (Route.round1 x).
Proof.
  intros (Hlo & Hhi). unfold Route.in_range, Route.round1, Math_round.
  set (y := (x * 10 + (1 # 2))%Q).
  assert (H0 : 0 <= Qfloor y).
  { change 0 with (Qfloor 0). apply Qfloor_resp_le. subst y. lra. }
  assert (H1 : Qfloor y <= 100).
  { change 100 with (Qfloor (201 # 2)). apply Qfloor_resp_le. subst y. lra. }
  generalize dependent (Qfloor y). intros n Hn0 Hn1.
  unfold Qle, Qdiv, Qmult, Qinv, inject_Z. cbn. lia.
Qed.

Lemma getMockScores_valid host now : Route.valid (Route.getMockScores host now).
Proof.
  unfold Route.valid, Route.getMockScores.
  cbn [Route.clarity Route.originality Route.team_strength Route.market_fit].
  pose proof (random_range host (now / 3600000)) as R0.
  pose proof (random_range host (now / 3600000 + 1)) as R1.
  pose proof (random_range host (now / 3600000 + 2)) as R2.
  pose proof (random_range host (now / 3600000 + 3)) as R3.
  repeat apply conj; apply round1_range; lra.
Qed.

(** C8.  The mock scorer is a total function of the clock reading that depends on it
    only through its hour bucket: two readings in the same bucket give identical
    score sets, and every score set it gives is valid. *)
Theorem C8_mock_deterministic host now1 now2 :
  now1 / 3600000 = now2 / 3600000 ->
  Route.getMockScores host now1 = Route.getMockScores host now2 /\
  Route.valid (Route.getMockScores host now1).
Proof.
  intros H. split.
  - unfold Route.getMockScores. rewrite H. reflexivity.
  - apply getMockScores_valid.
Qed.

(** Two readings 59 minutes apart in the same hour. *)
Lemma C8_witness :
  Route.getMockScores Sample.host 1762041600123 = Route.getMockScores Sample.host 1762045199999 /\
  Route.valid (Route.getMockScores Sample.host 1762041600123).
Proof. apply (C8_mock_deterministic Sample.host 1762041600123 1762045199999). reflexivity. Defined.

(** ** The request handler, case by case *)

(** [Buffer.from] throws on nothing that is text. *)
Lemma Buffer_from_throws host v e :
  Route.Buffer_from host v = Throw e -> Claims.invalid_base64 v.
Proof. destruct v; cbn [Route.Buffer_from Claims.invalid_base64]; trivial; discriminate. Qed.

Lemma decrypt_attempt_spec host c k i :
  match Route.decrypt_attempt host c k i with
  | Ok text =>
      exists ciphertext key iv plain,
        Route.Buffer_from host c = Ok ciphertext /\
        Route.Buffer_from host k = Ok key /\
        Route.Buffer_from host i = Ok iv /\
        List.length key = 32%nat /\ List.length iv = 12%nat /\
        GCM.valid_tag_length (List.length (Route.slice_last16 ciphertext)) = true /\
        GCM.decrypt key iv (Route.slice_until_last16 ciphertext)
          (Route.slice_last16 ciphertext) = Some plain /\
        text = UTF8.decode plain /\ Route.MIN_PITCH_LENGTH <= str_length text
  | Throw _ =>
      (exists e, Route.Buffer_from host c = Throw e \/ Route.Buffer_from host k = Throw e \/
                 Route.Buffer_from host i = Throw e) \/
      exists ciphertext key iv,
        Route.Buffer_from host c = Ok ciphertext /\
        Route.Buffer_from host k = Ok key /\
        Route.Buffer_from host i = Ok iv /\
        ((List.length key <> 32%nat \/ List.length iv <> 12%nat) \/
         (GCM.valid_tag_length (List.length (Route.slice_last16 ciphertext)) = false \/
          GCM.decrypt key iv (Route.slice_until_last16 ciphertext)
            (Route.slice_last16 ciphertext) = None) \/
         (exists plain,
             GCM.decrypt key iv (Route.slice_until_last16 ciphertext)
               (Route.slice_last16 ciphertext) = Some plain /\
             str_length (UTF8.decode plain) < Route.MIN_PITCH_LENGTH))
  end.
Proof.
  unfold Route.decrypt_attempt.
  destruct (Route.Buffer_from host c) as [ciphertext|e]; [|left; exists e; tauto].
  destruct (Route.Buffer_from host k) as [key|e]; [|left; exists e; tauto].
  destruct (Route.Buffer_from host i) as [iv|e]; [|left; exists e; tauto].
  set (tag := Route.slice_last16 ciphertext).
  set (data := Route.slice_until_last16 ciphertext).
  destruct (Nat.eqb_spec (List.length key) 32) as [Hk|Hk]; cbn [negb];
    [|right; exists ciphertext, key, iv; tauto].
  destruct (Nat.eqb_spec (List.length iv) 12) as [Hi|Hi]; cbn [negb];
    [|right; exists ciphertext, key, iv; tauto].
  destruct (GCM.valid_tag_length (List.length tag)) eqn:Ht; cbn [negb];
    [|right; exists ciphertext, key, iv; tauto].
  destruct (GCM.decrypt key iv data tag) as [plain|] eqn:Hd;
    [|right; exists ciphertext, key, iv; tauto].
  destruct (Z.ltb_spec (str_length (UTF8.decode plain)) Route.MIN_PITCH_LENGTH) as [Hs|Hs].
  - right. exists ciphertext, key, iv.
    split; [reflexivity|]. split; [reflexivity|]. split; [reflexivity|].
    right. right. exists plain. tauto.
  - exists ciphertext, key, iv, plain. repeat split; assumption.
Qed.

Lemma decryptPitchData_spec host c k i :
  match Route.decryptPitchData host c k i with
  | Ok text => Route.decrypt_attempt host c k i = Ok text
  | Throw m => m = js "Failed to decrypt pitch data" /\
               exists m', Route.decrypt_attempt host c k i = Throw m'
  end.
Proof.
  unfold Route.decryptPitchData.
  destruct (Route.decrypt_attempt host c k i) as [text|m]; [reflexivity|].
  split; [reflexivity | exists m; reflexivity].
Qed.

Lemma in_error_messages n :
  (n < 5)%nat -> In (nth n Claims.error_messages []) Claims.error_messages.
Proof. intros H. apply nth_In. exact H. Qed.

(** What [prepare] returns: the answer to a primitive body, the answer to a request
    that the route refuses, or the text of a request that it scores. *)
Lemma prepare_spec host request :
  match Route.prepare host request with
  | inl early =>
      (request = Route.BodyPrimitive /\
       early = Route.error_response 500 (js "Internal server error")) \/
      (Claims.Rejected host request /\
       exists m, In m Claims.error_messages /\ early = Route.error_response 400 m)
  | inr (o, c, text) =>
      request = Route.BodyObject o /\ Claims.scored host o c text
  end.
Proof.
  destruct request as [| |o]; cbn [Route.prepare].
  - right. split; [constructor|].
    exists (js "Invalid JSON in request body"). split; [apply (in_error_messages 0); lia | reflexivity].
  - left. split; reflexivity.
  - destruct (Route.req_ciphertext o) as [c|] eqn:Hc.
    2:{ right. split; [apply Claims.MissingField; unfold Claims.fields; rewrite Hc; cbn; tauto|].
        exists (js "Missing required encryption parameters").
        split; [apply (in_error_messages 1); lia | reflexivity]. }
    destruct (Route.req_aes_key o) as [k|] eqn:Hk.
    2:{ right. split; [apply Claims.MissingField; unfold Claims.fields; rewrite Hk; cbn; tauto|].
        exists (js "Missing required encryption parameters").
        split; [apply (in_error_messages 1); lia | reflexivity]. }
    destruct (Route.req_iv o) as [i|] eqn:Hi.
    2:{ right. split; [apply Claims.MissingField; unfold Claims.fields; rewrite Hi; cbn; tauto|].
        exists (js "Missing required encryption parameters").
        split; [apply (in_error_messages 1); lia | reflexivity]. }
    assert (Hin : forall v, v = c \/ v = k \/ v = i -> In (Some v) (Claims.fields o)).
    { intros v Hv. unfold Claims.fields. rewrite Hc, Hk, Hi. cbn [In].
      destruct Hv as [-> | [-> | ->]]; tauto. }
    destruct (Route.Buffer_from host c) as [cb|e] eqn:Bc.
    2:{ right. split.
        - apply (Claims.InvalidBase64 host o c); [apply Hin; tauto|].
          apply (Buffer_from_throws host c e Bc).
        - exists (js "Invalid base64 encoding").
          split; [apply (in_error_messages 2); lia | reflexivity]. }
    destruct (Route.Buffer_from host k) as [kb|e] eqn:Bk.
    2:{ right. split.
        - apply (Claims.InvalidBase64 host o k); [apply Hin; tauto|].
          apply (Buffer_from_throws host k e Bk).
        - exists (js "Invalid base64 encoding").
          split; [apply (in_error_messages 2); lia | reflexivity]. }
    destruct (Route.Buffer_from host i) as [ib|e] eqn:Bi.
    2:{ right. split.
        - apply (Claims.InvalidBase64 host o i); [apply Hin; tauto|].
          apply (Buffer_from_throws host i e Bi).
        - exists (js "Invalid base64 encoding").
          split; [apply (in_error_messages 2); lia | reflexivity]. }
    pose proof (decryptPitchData_spec host c k i) as Hd.
    pose proof (decrypt_attempt_spec host c k i) as Ha.
    destruct (Route.decryptPitchData host c k i) as [text|m] eqn:Hdp.
    + rewrite Hd in Ha.
      destruct Ha as (cb' & kb' & ib' & plain & _ & _ & _ & _ & _ & _ & _ & _ & Hlen).
      split; [reflexivity|].
      exists k, i, text. repeat split; assumption || reflexivity.
    + destruct Hd as (-> & m' & Hm'). rewrite Hm' in Ha.
      right. split.
      * destruct Ha as [(e & [H|[H|H]])|(cb' & kb' & ib' & Hcb & Hkb & Hib & Ha)];
          try congruence.
        assert (cb' = cb) by congruence. assert (kb' = kb) by congruence.
        assert (ib' = ib) by congruence. subst cb' kb' ib'.
        destruct Ha as [H|[H|(plain & Hp & Hs)]].
        -- apply (Claims.DecodeError host o k i kb ib); assumption.
        -- apply (Claims.AuthenticationError host o c k i cb kb ib); assumption.
        -- apply (Claims.TooShort host o c k i cb kb ib plain); assumption.
      * exists (js "Failed to decrypt pitch data").
        split; [apply (in_error_messages 3); lia | reflexivity].
Qed.



Lemma result_json_inj a b :
  Route.result_json a = Route.result_json b ->
  Route.scores a = Route.scores b /\ Route.receipt a = Route.receipt b /\
  Route.timestamp a = Route.timestamp b /\ wire (Route.model a) = wire (Route.model b).
Proof.
  destruct a as [[a1 a2 a3 a4] ar at_ am], b as [[b1 b2 b3 b4] br bt bm].
  unfold Route.result_json, Route.scores_json, Route.properties.
  cbn [map fst snd Route.scores Route.receipt Route.timestamp Route.model
       Route.clarity Route.originality Route.team_strength Route.market_fit].
  intros H. injection H as -> -> -> -> -> -> H. repeat split. exact H.
Qed.

Lemma error_is_not_success code m r :
  code <> 200 -> Route.error_response code m <> Route.success_response r.
Proof.
  intros Hc H. apply (f_equal Route.status) in H. cbn in H. contradiction.
Qed.

(** A 200 response carries the result assembled from a scored request. *)
Lemma POST_success host env request r :
  Route.POST host env request = Route.success_response r ->
  exists o c text r0,
    request = Route.BodyObject o /\ Claims.scored host o c text /\
    Route.prepare host request = inr (o, c, text) /\
    Route.respond host env o c text = Ok r0 /\
    Route.scores r = Route.scores r0 /\ Route.receipt r = Route.receipt r0 /\
    Route.timestamp r = Route.timestamp r0 /\ wire (Route.model r) = wire (Route.model r0).
Proof.
  unfold Route.POST. intros H.
  pose proof (prepare_spec host request) as Hp.
  destruct (Route.prepare host request) as [early|[[o c] text]].
  - exfalso. destruct Hp as [(_ & ->)|(_ & m & _ & ->)];
      apply error_is_not_success in H; (exact H || lia).
  - destruct Hp as (Hreq & Hs).
    destruct (Route.respond host env o c text) as [r0|e] eqn:Hr.
    + apply (f_equal Route.body) in H. cbn [Route.success_response Route.body] in H.
      symmetry in H. apply result_json_inj in H.
      exists o, c, text, r0. tauto.
    + exfalso. apply error_is_not_success in H; (exact H || lia).
Qed.

(** What [respond] returns when it returns. *)
Lemma respond_spec host env o c text r :
  Route.respond host env o c text = Ok r ->
  exists ctext mtext,
    ToString host c = Ok ctext /\ ToString host (Route.model_name o) = Ok mtext /\
    Route.scores r = Route.analyzeWithMistral host env text /\
    Route.timestamp r = int_to_string (Route.now_receipt env / 1000) /\
    Route.model r = Route.model_name o /\
    Route.receipt r =
    Route.receipt_of ctext mtext (Route.timestamp r)
      (Route.JSON_stringify host (Route.properties (Route.scores r))
         (sort (keys_of (Route.properties (Route.scores r))))).
Proof.
  unfold Route.respond, Route.generateReceipt.
  destruct (ToString host c) as [ctext|]; [|discriminate].
  destruct (ToString host (Route.model_name o)) as [mtext|]; [|discriminate].
  intros H. injection H as <-. exists ctext, mtext.
  cbn [Route.scores Route.timestamp Route.model Route.receipt]. repeat split.
Qed.

(** ** Scores *)

Lemma Qltb_false x y : Qltb x y = false -> (y <= x)%Q.
Proof.
  unfold Qltb. rewrite negb_false_iff. apply Qle_bool_imp_le.
Qed.

Lemma score_ok_range v : Route.score_ok v = true -> Route.in_range (Route.Number v).
Proof.
  destruct v as [[| | q | | | |]|]; cbn [Route.score_ok Route.Number]; try discriminate.
  rewrite negb_true_iff, orb_false_iff. intros (H0 & H1).
  split; apply Qltb_false; assumption.
Qed.

Lemma parse_scores_valid host content s :
  Route.parse_scores host content = Some s -> Route.valid s.
Proof.
  unfold Route.parse_scores.
  destruct content as [| | | | text | |]; try discriminate.
  destruct (JSON_parse host (trim text)) as [parsed|]; [|discriminate].
  destruct (Route.every_required_key_in parsed) as [[|]|]; try discriminate.
  destruct (forallb _ Route.requiredKeys) eqn:Hall; [|discriminate].
  intros H. injection H as <-.
  cbn [forallb Route.requiredKeys] in Hall.
  rewrite !andb_true_iff in Hall. destruct Hall as (H1 & H2 & H3 & H4 & _).
  unfold Route.valid.
  cbn [Route.clarity Route.originality Route.team_strength Route.market_fit].
  repeat apply conj; apply score_ok_range; assumption.
Qed.

Lemma upstream_scores_valid host env text s :
  Route.upstream_scores host env text = Some s -> Route.valid s.
Proof.
  unfold Route.upstream_scores.
  destruct (Route.is_empty _); [discriminate|].
  destruct (Route.fetch env text) as [|ok st data]; [discriminate|].
  destruct ok; cbn [negb]; [|discriminate].
  destruct data as [d|]; [|discriminate].
  destruct (Route.message_content d) as [content|]; [|discriminate].
  destruct (Route.truthy content); cbn [negb]; [|discriminate].
  apply parse_scores_valid.
Qed.

Lemma analyzeWithMistral_valid host env text :
  Route.valid (Route.analyzeWithMistral host env text).
Proof.
  unfold Route.analyzeWithMistral.
  destruct (Route.upstream_scores host env text) as [s|] eqn:Hu.
  - apply (upstream_scores_valid host env text s Hu).
  - apply getMockScores_valid.
Qed.

(** C4.  In every 200 response the four scores lie in the closed interval from 0 to
    10, whether the upstream model or the mock scorer produced them. *)
Theorem C4_scores_in_range host env request r :
  Route.POST host env request = Route.success_response r ->
  Route.valid (Route.scores r).
Proof.
  intros H. apply POST_success in H.
  destruct H as (o & c & text & r0 & _ & _ & _ & Hr & -> & _).
  apply respond_spec in Hr. destruct Hr as (ctext & mtext & _ & _ & -> & _).
  apply analyzeWithMistral_valid.
Qed.

(** The answer to the sample envelope when the upstream cannot be reached. *)
Lemma sample_answer :
  Route.POST Sample.host Sample.offline (Client.submission Sample.envelope None) =
  Route.success_response Sample.answer.
Proof. vm_compute. reflexivity. Qed.

(** The scores returned for the sample envelope. *)
Lemma C4_witness :
  Route.POST Sample.host Sample.offline (Client.submission Sample.envelope None) =
  Route.success_response Sample.answer /\
  Route.valid (Route.scores Sample.answer).
Proof.
  split; [exact sample_answer|].
  exact (C4_scores_in_range Sample.host Sample.offline _ _ sample_answer).
Defined.

(** ** Which replies of the upstream tier are used *)

Lemma score_ok_spec v :
  Route.score_ok v = true <-> exists q, v = Some (JNum q) /\ Route.in_range q.
Proof.
  split.
  - destruct v as [[| | q | | | |]|]; cbn [Route.score_ok]; try discriminate.
    rewrite negb_true_iff, orb_false_iff. intros (H0 & H1).
    exists q. split; [reflexivity|]. split; apply Qltb_false; assumption.
  - intros (q & -> & H0 & H1). cbn [Route.score_ok].
    unfold Qltb. apply Qle_bool_iff in H0, H1. rewrite H0, H1. reflexivity.
Qed.

(** The inner [try] returns scores exactly for a text that parses to an object with
    four valid scores. *)
Lemma parse_scores_object host text s :
  Route.parse_scores host (JStr text) = Some s <->
  exists ms,
    JSON_parse host (trim text) = Some (JObj ms) /\
    lookup (js "clarity") ms = Some (JNum (Route.clarity s)) /\
    lookup (js "originality") ms = Some (JNum (Route.originality s)) /\
    lookup (js "team_strength") ms = Some (JNum (Route.team_strength s)) /\
    lookup (js "market_fit") ms = Some (JNum (Route.market_fit s)) /\
    Route.valid s.
Proof.
  unfold Route.parse_scores. split.
  - destruct (JSON_parse host (trim text)) as [parsed|]; [|discriminate].
    destruct parsed as [| | | | | |ms]; cbn [Route.every_required_key_in]; try discriminate.
    destruct (forallb _ Route.requiredKeys); [|discriminate].
    destruct (forallb (fun k => Route.score_ok (Route.member k (JObj ms))) Route.requiredKeys)
      eqn:Hall; [|discriminate].
    intros H. injection H as <-.
    cbn [forallb Route.requiredKeys Route.member] in Hall.
    rewrite !andb_true_iff in Hall. destruct Hall as (H1 & H2 & H3 & H4 & _).
    apply score_ok_spec in H1, H2, H3, H4.
    destruct H1 as (q1 & E1 & R1 & R1'), H2 as (q2 & E2 & R2 & R2'),
             H3 as (q3 & E3 & R3 & R3'), H4 as (q4 & E4 & R4 & R4').
    exists ms. cbn [Route.member Route.clarity Route.originality Route.team_strength
                    Route.market_fit].
    rewrite E1, E2, E3, E4. cbn [Route.Number].
    unfold Route.valid. cbn [Route.clarity Route.originality Route.team_strength
                             Route.market_fit].
    unfold Route.in_range. repeat split; assumption || reflexivity.
  - intros (ms & -> & E1 & E2 & E3 & E4 & R1 & R2 & R3 & R4).
    cbn [Route.every_required_key_in forallb Route.requiredKeys Route.member].
    rewrite E1, E2, E3, E4. cbn [andb].
    rewrite !(proj2 (score_ok_spec _)) by (eexists; split; [reflexivity | assumption]).
    cbn [andb Route.Number]. destruct s; reflexivity.
Qed.

(** The credential is never empty: an empty one is replaced by the default. *)
Lemma api_key_configured env : Route.is_empty (Route.OPENROUTER_API_KEY env) = false.
Proof.
  unfold Route.OPENROUTER_API_KEY.
  destruct (Route.env_OPENROUTER_API_KEY env) as [[|c k]|]; reflexivity.
Qed.

(** The content of a completion is empty text or a truthy value. *)
Lemma message_content_truthy d v :
  Route.message_content d = Ok v -> Route.truthy v = false -> v = JStr [].
Proof.
  unfold Route.message_content.
  destruct d; try discriminate;
    (destruct (Route.optional _ _) as [w|];
     [destruct (Route.truthy w) eqn:Hw; intros H; injection H as <-; intros Ht;
      [congruence | reflexivity]
     | intros H; injection H as <-; reflexivity]).
Qed.

(** The upstream tier is used exactly for a usable reply. *)
Lemma upstream_scores_usable host env text s :
  Route.upstream_scores host env text = Some s <->
  exists status d,
    Route.fetch env text = Route.FetchResolved true status (Some d) /\
    Claims.usable_reply host d s.
Proof.
  unfold Route.upstream_scores. rewrite api_key_configured. split.
  - destruct (Route.fetch env text) as [|ok st data]; [discriminate|].
    destruct ok; cbn [negb]; [|discriminate].
    destruct data as [d|]; [|discriminate].
    destruct (Route.message_content d) as [content|] eqn:Hc; [|discriminate].
    destruct (Route.truthy content) eqn:Ht; cbn [negb]; [|discriminate].
    intros Hp. exists st, d. split; [reflexivity|].
    destruct content as [| | | | content | |]; try discriminate Hp.
    apply parse_scores_object in Hp. destruct Hp as (ms & Hp).
    exists content, ms. split; [exact Hc|]. split; [|exact Hp].
    intros ->. discriminate Ht.
  - intros (st & d & -> & content & ms & Hc & Hne & Hp).
    cbn [negb]. rewrite Hc.
    destruct content as [|x content]; [congruence|]. cbn [Route.truthy Route.is_empty negb].
    apply parse_scores_object. exists ms. exact Hp.
Qed.

(** When the upstream tier fails, the route has no scores from it. *)
Lemma upstream_fails host env text :
  Claims.UpstreamFails host env text -> Route.upstream_scores host env text = None.
Proof.
  intros HF.
  destruct (Route.upstream_scores host env text) as [s|] eqn:Hu; [|reflexivity].
  exfalso. apply upstream_scores_usable in Hu. destruct Hu as (st & d & Hf & Hu).
  destruct HF as [H | H | st' d' H | st' d' H Hno]; try congruence.
  rewrite Hf in H. injection H as _ <-. apply (Hno d s eq_refl Hu).
Qed.

(** ** The model name *)

(** C1 (as amended).  In every 200 response the returned [model] is the request's own
    [model] hint, as JSON carries it, when the hint is truthy, and
    [mistralai/mistral-small-2409] otherwise, whichever tier produced the scores:
    when the upstream tier fails, by a network error, a timeout, a status that is not
    2xx or a reply that violates the schema, the scores are those of the mock scorer,
    and when it gives a usable reply the scores are those of the reply. *)
Theorem C1_model_is_request_hint host env request r :
  Route.POST host env request = Route.success_response r ->
  exists o c text,
    request = Route.BodyObject o /\
    Route.prepare host request = inr (o, c, text) /\
    wire (Route.model r) =
    match Route.req_model o with
    | Some hint => if Route.truthy hint then wire hint else JStr Route.PRIMARY_MODEL
    | None => JStr Route.PRIMARY_MODEL
    end /\
    (Claims.UpstreamFails host env text ->
     Route.scores r = Route.getMockScores host (Route.now_scoring env)) /\
    (forall status d s,
        Route.fetch env text = Route.FetchResolved true status (Some d) ->
        Claims.usable_reply host d s -> Route.scores r = s).
Proof.
  intros H. apply POST_success in H.
  destruct H as (o & c & text & r0 & Hreq & _ & Hprep & Hr & Hs & _ & _ & Hm).
  apply respond_spec in Hr. destruct Hr as (ctext & mtext & _ & _ & Hs0 & _ & Hm0 & _).
  exists o, c, text. split; [exact Hreq|]. split; [exact Hprep|].
  rewrite Hs, Hs0, Hm, Hm0. unfold Route.analyzeWithMistral, Route.model_name.
  split; [|split].
  - destruct (Route.req_model o) as [hint|]; [|reflexivity].
    destruct (Route.truthy hint); reflexivity.
  - intros HF. rewrite (upstream_fails host env text HF). reflexivity.
  - intros st d s Hf Hu.
    assert (Hup : Route.upstream_scores host env text = Some s)
      by (apply upstream_scores_usable; exists st, d; tauto).
    rewrite Hup. reflexivity.
Qed.

(** The sample envelope with the upstream unreachable: the mock scores under the
    default model name. *)
Lemma C1_witness :
  exists o c text,
    Client.submission Sample.envelope None = Route.BodyObject o /\
    Route.prepare Sample.host (Client.submission Sample.envelope None) = inr (o, c, text) /\
    wire (Route.model Sample.answer) =
    match Route.req_model o with
    | Some hint => if Route.truthy hint then wire hint else JStr Route.PRIMARY_MODEL
    | None => JStr Route.PRIMARY_MODEL
    end /\
    (Claims.UpstreamFails Sample.host Sample.offline text ->
     Route.scores Sample.answer =
     Route.getMockScores Sample.host (Route.now_scoring Sample.offline)) /\
    (forall status d s,
        Route.fetch Sample.offline text = Route.FetchResolved true status (Some d) ->
        Claims.usable_reply Sample.host d s -> Route.scores Sample.answer = s).
Proof.
  exact (C1_model_is_request_hint Sample.host Sample.offline _ _ sample_answer).
Defined.

(** C1 (as stated) fails when the upstream is unreachable and the request carries no
    hint: the upstream tier fails by a network error, the mock scorer answers, yet
    [model] is the identity of the upstream tier and not that of the mock tier. *)
Lemma C1_counterexample :
  Claims.UpstreamFails Sample.host Sample.offline (Route.sanitizeInput Sample.pitch) /\
  Claims.answering_tier Sample.host Sample.offline
    (Client.submission Sample.envelope None) = Some Claims.Mock /\
  Route.POST Sample.host Sample.offline (Client.submission Sample.envelope None) =
  Route.success_response Sample.answer /\
  Route.scores Sample.answer =
  Route.getMockScores Sample.host (Route.now_scoring Sample.offline) /\
  Route.model Sample.answer = JStr (Claims.tier_identity Claims.Primary) /\
  Route.model Sample.answer <> JStr (Claims.tier_identity Claims.Mock).
Proof.
  split; [apply Claims.NetworkError; reflexivity|].
  split; [vm_compute; reflexivity|].
  split; [exact sample_answer|].
  split; [reflexivity|].
  split; [reflexivity|].
  vm_compute. discriminate.
Qed.

(** ** The upstream tier, when it answers *)

Example upstream_answers :
  Claims.answering_tier Sample.host Sample.online (Client.submission Sample.envelope None) =
  Some Claims.Primary /\
  Route.analyzeWithMistral Sample.host Sample.online Sample.pitch =
  {| Route.clarity := 85 # 10; Route.originality := 72 # 10;
     Route.team_strength := 91 # 10; Route.market_fit := 88 # 10 |}.
Proof. split; vm_compute; reflexivity. Qed.

(** ** The digest is 64 lowercase hexadecimal digits *)

Lemma Z_to_bytes_bytes n z : is_bytes (Z_to_bytes n z) = true.
Proof.
  revert z. induction n as [|n IH]; intros z; cbn [Z_to_bytes].
  - reflexivity.
  - rewrite is_bytes_app, IH. unfold is_bytes. cbn [forallb andb].
    rewrite andb_true_r. apply is_byte_range. apply Z.mod_pos_bound. reflexivity.
Qed.

Lemma round_length st kw : List.length (SHA256.round st kw) = List.length st.
Proof.
  unfold SHA256.round.
  destruct st as [|a [|b [|c [|d [|e [|f [|g [|h [|x st]]]]]]]]]; reflexivity.
Qed.

Lemma rounds_length l st : List.length (fold_left SHA256.round l st) = List.length st.
Proof.
  revert st. induction l as [|kw l IH]; intros st; cbn [fold_left].
  - reflexivity.
  - rewrite IH. apply round_length.
Qed.

Lemma compress_length h block : List.length (SHA256.compress h block) = List.length h.
Proof.
  unfold SHA256.compress. rewrite length_map, length_combine, rounds_length. lia.
Qed.

Lemma compressions_length blocks h :
  List.length (fold_left SHA256.compress blocks h) = List.length h.
Proof.
  revert h. induction blocks as [|b blocks IH]; intros h; cbn [fold_left].
  - reflexivity.
  - rewrite IH. apply compress_length.
Qed.

Lemma words_to_bytes ws :
  List.length (concat (map (Z_to_bytes 4) ws)) = (4 * List.length ws)%nat /\
  is_bytes (concat (map (Z_to_bytes 4) ws)) = true.
Proof.
  induction ws as [|w ws (IHl & IHb)]; cbn [map concat].
  - split; reflexivity.
  - rewrite length_app, is_bytes_app, Z_to_bytes_length, Z_to_bytes_bytes, IHl, IHb.
    cbn [List.length]. split; [lia | reflexivity].
Qed.

Lemma digest_shape m :
  List.length (SHA256.digest m) = 32%nat /\ is_bytes (SHA256.digest m) = true.
Proof.
  unfold SHA256.digest.
  destruct (words_to_bytes
              (fold_left SHA256.compress
                 (chunks (List.length (SHA256.pad m)) 64 (SHA256.pad m)) SHA256.H0))
    as (Hl & Hb).
  rewrite compressions_length in Hl. split; [exact Hl | exact Hb].
Qed.

Lemma hex_digit_lower v : 0 <= v < 16 -> is_lower_hex (hex_digit v) = true.
Proof.
  intros H. unfold is_lower_hex, hex_digit.
  destruct (Z.ltb_spec v 10).
  - apply orb_true_iff. left. apply andb_true_iff. split; [apply Z.leb_le | apply Z.leb_le]; lia.
  - apply orb_true_iff. right. apply andb_true_iff. split; [apply Z.leb_le | apply Z.leb_le]; lia.
Qed.

Lemma to_hex_shape b :
  is_bytes b = true ->
  List.length (to_hex b) = (2 * List.length b)%nat /\ forallb is_lower_hex (to_hex b) = true.
Proof.
  unfold to_hex, is_bytes. induction b as [|x b IH]; intros Hb; cbn [flat_map forallb].
  - split; reflexivity.
  - cbn [forallb] in Hb. apply andb_true_iff in Hb. destruct Hb as (Hx & Hb).
    apply is_byte_range in Hx. destruct (IH Hb) as (IHl & IHh).
    cbn [app List.length forallb]. rewrite IHl, IHh.
    rewrite !hex_digit_lower by dm_lia. split; [lia | reflexivity].
Qed.


(** ** The receipt *)






(** ** Status codes *)

(** With its three fields read as buffers, the answer to a request depends on
    [decryptPitchData] and, for a pitch that decrypts, on [respond]. *)
Lemma POST_buffers host env o c k i ciphertext key iv :
  Route.req_ciphertext o = Some c -> Route.req_aes_key o = Some k ->
  Route.req_iv o = Some i ->
  Route.Buffer_from host c = Ok ciphertext ->
  Route.Buffer_from host k = Ok key -> Route.Buffer_from host i = Ok iv ->
  Route.POST host env (Route.BodyObject o) =
  match Route.decryptPitchData host c k i with
  | Ok pitchText =>
      match Route.respond host env o c (Route.sanitizeInput pitchText) with
      | Ok r => Route.success_response r
      | Throw _ => Route.error_response 500 (js "Internal server error")
      end
  | Throw _ => Route.error_response 400 (js "Failed to decrypt pitch data")
  end.
Proof.
  intros Hc Hk Hi Bc Bk Bi. unfold Route.POST. cbn [Route.prepare].
  rewrite Hc, Hk, Hi, Bc, Bk, Bi.
  destruct (Route.decryptPitchData host c k i); reflexivity.
Qed.

(** Content that decrypts to fewer than [MIN_PITCH_LENGTH] code units is refused. *)
Lemma POST_short_content host env o c k i ciphertext key iv plain :
  Route.req_ciphertext o = Some c -> Route.req_aes_key o = Some k ->
  Route.req_iv o = Some i ->
  Route.Buffer_from host c = Ok ciphertext ->
  Route.Buffer_from host k = Ok key -> Route.Buffer_from host i = Ok iv ->
  GCM.decrypt key iv (Route.slice_until_last16 ciphertext)
    (Route.slice_last16 ciphertext) = Some plain ->
  str_length (UTF8.decode plain) < Route.MIN_PITCH_LENGTH ->
  Route.POST host env (Route.BodyObject o) =
  Route.error_response 400 (js "Failed to decrypt pitch data").
Proof.
  intros Hc Hk Hi Bc Bk Bi Hp Hs.
  rewrite (POST_buffers host env o c k i ciphertext key iv Hc Hk Hi Bc Bk Bi).
  pose proof (decryptPitchData_spec host c k i) as Hd.
  destruct (Route.decryptPitchData host c k i) as [text|m]; [|reflexivity].
  exfalso. pose proof (decrypt_attempt_spec host c k i) as Ha.
  rewrite Hd in Ha.
  destruct Ha as (cb & kb & ib & plain' & Bc' & Bk' & Bi' & _ & _ & _ & Hp' & -> & Hlen).
  assert (cb = ciphertext) by congruence. assert (kb = key) by congruence.
  assert (ib = iv) by congruence. subst cb kb ib.
  assert (plain' = plain) by congruence. subst plain'. lia.
Qed.

(** An envelope that fails authentication is refused. *)
Lemma POST_unauthentic host env o c k i ciphertext key iv :
  Route.req_ciphertext o = Some c -> Route.req_aes_key o = Some k ->
  Route.req_iv o = Some i ->
  Route.Buffer_from host c = Ok ciphertext ->
  Route.Buffer_from host k = Ok key -> Route.Buffer_from host i = Ok iv ->
  GCM.decrypt key iv (Route.slice_until_last16 ciphertext)
    (Route.slice_last16 ciphertext) = None ->
  Route.POST host env (Route.BodyObject o) =
  Route.error_response 400 (js "Failed to decrypt pitch data").
Proof.
  intros Hc Hk Hi Bc Bk Bi Hp.
  rewrite (POST_buffers host env o c k i ciphertext key iv Hc Hk Hi Bc Bk Bi).
  pose proof (decryptPitchData_spec host c k i) as Hd.
  destruct (Route.decryptPitchData host c k i) as [text|m]; [|reflexivity].
  exfalso. pose proof (decrypt_attempt_spec host c k i) as Ha.
  rewrite Hd in Ha.
  destruct Ha as (cb & kb & ib & plain' & Bc' & Bk' & Bi' & _ & _ & _ & Hp' & _).
  assert (cb = ciphertext) by congruence. assert (kb = key) by congruence.
  assert (ib = iv) by congruence. subst cb kb ib. congruence.
Qed.

(** A body that is a JSON primitive makes the [in] operator throw; the outer [catch]
    answers. *)
Lemma POST_primitive_body host env :
  Route.POST host env Route.BodyPrimitive =
  Route.error_response 500 (js "Internal server error").
Proof. reflexivity. Qed.







(** ** The text that is scored *)

Lemma prepare_scored host request o c text :
  Route.prepare host request = inr (o, c, text) -> Claims.scored host o c text.
Proof.
  intros H. pose proof (prepare_spec host request) as Hp. rewrite H in Hp. tauto.
Qed.

(** C6 (as amended).  The text handed to the scorer is the sanitized form of a
    decrypted pitch of at least 50 characters and has at most 10,000 characters; a
    pitch whose stripped form is longer is cut to exactly 10,000 characters; and an
    envelope whose decrypted content has fewer than 50 characters is refused with
    status 400.  The lower bound is checked before sanitizing, which may shorten the
    text below it. *)
Theorem C6_scored_text_bounds host env :
  (forall request o c text,
      Route.prepare host request = inr (o, c, text) ->
      str_length text <= 10000 /\
      exists k i pitchText,
        Route.req_ciphertext o = Some c /\
        Route.req_aes_key o = Some k /\
        Route.req_iv o = Some i /\
        Route.decryptPitchData host c k i = Ok pitchText /\
        50 <= str_length pitchText /\
        text = Route.sanitizeInput pitchText /\
        (10000 < str_length (Route.stripped pitchText) ->
         text = substring0 10000 (Route.stripped pitchText) /\ str_length text = 10000)) /\
  (forall o c k i ciphertext key iv plain,
      Route.req_ciphertext o = Some c ->
      Route.req_aes_key o = Some k ->
      Route.req_iv o = Some i ->
      Route.Buffer_from host c = Ok ciphertext ->
      Route.Buffer_from host k = Ok key ->
      Route.Buffer_from host i = Ok iv ->
      GCM.decrypt key iv (Route.slice_until_last16 ciphertext)
        (Route.slice_last16 ciphertext) = Some plain ->
      str_length (UTF8.decode plain) < 50 ->
      Route.POST host env (Route.BodyObject o) =
      Route.error_response 400 (js "Failed to decrypt pitch data")).
Proof.
  split.
  - intros request o c text H. apply prepare_scored in H.
    destruct H as (k & i & pitchText & Hc & Hk & Hi & Hd & Hlen & ->).
    split; [apply sanitizeInput_length|].
    exists k, i, pitchText. repeat apply conj; try assumption; try reflexivity.
    apply sanitizeInput_truncates.
  - intros o c k i ciphertext key iv plain Hc Hk Hi Bc Bk Bi Hp Hs.
    apply (POST_short_content host env o c k i ciphertext key iv plain); assumption.
Qed.

(** The sample envelope is scored on its sanitized pitch, and the short one is
    refused. *)
Lemma C6_witness :
  (str_length (Route.sanitizeInput Sample.pitch) <= 10000 /\
   exists k i pitchText,
     Route.req_ciphertext (Client.request Sample.envelope None) =
     Some (JStr (Client.encryptedData Sample.envelope)) /\
     Route.req_aes_key (Client.request Sample.envelope None) = Some k /\
     Route.req_iv (Client.request Sample.envelope None) = Some i /\
     Route.decryptPitchData Sample.host (JStr (Client.encryptedData Sample.envelope)) k i =
     Ok pitchText /\
     50 <= str_length pitchText /\
     Route.sanitizeInput Sample.pitch = Route.sanitizeInput pitchText /\
     (10000 < str_length (Route.stripped pitchText) ->
      Route.sanitizeInput Sample.pitch = substring0 10000 (Route.stripped pitchText) /\
      str_length (Route.sanitizeInput Sample.pitch) = 10000)) /\
  Route.POST Sample.host Sample.offline (Client.submission Sample.short_envelope None) =
  Route.error_response 400 (js "Failed to decrypt pitch data").
Proof.
  destruct (C6_scored_text_bounds Sample.host Sample.offline) as (H1 & H2).
  split.
  - apply (H1 (Client.submission Sample.envelope None)
              (Client.request Sample.envelope None)).
    vm_compute. reflexivity.
  - apply (H2 (Client.request Sample.short_envelope None)
              (JStr (Client.encryptedData Sample.short_envelope))
              (JStr (Client.key Sample.short_envelope))
              (JStr (Client.iv Sample.short_envelope))
              (Base64.decode (Client.encryptedData Sample.short_envelope))
              (Base64.decode (Client.key Sample.short_envelope))
              (Base64.decode (Client.iv Sample.short_envelope))
              (UTF8.encode (js "hello"))).
    + reflexivity.
    + reflexivity.
    + reflexivity.
    + reflexivity.
    + reflexivity.
    + reflexivity.
    + vm_compute. reflexivity.
    + vm_compute. reflexivity.
Defined.

(** C6 (as stated) fails for a pitch of fifty opening angle brackets: it passes the
    length check, sanitizing leaves nothing of it, and the empty text is scored. *)
Lemma C6_counterexample :
  Route.prepare Sample.host
    (Client.submission (Client.encryptPitch Sample.raw_key Sample.raw_iv Sample.brackets) None)
  = inr (Client.request (Client.encryptPitch Sample.raw_key Sample.raw_iv Sample.brackets) None,
         JStr (Client.encryptedData
                 (Client.encryptPitch Sample.raw_key Sample.raw_iv Sample.brackets)),
         []) /\
  str_length [] < 50 /\
  Route.status
    (Route.POST Sample.host Sample.offline
       (Client.submission (Client.encryptPitch Sample.raw_key Sample.raw_iv Sample.brackets)
          None)) = 200.
Proof.
  split; [vm_compute; reflexivity|].
  split; [reflexivity|].
  vm_compute. reflexivity.
Qed.

(** ** What the response carries *)



(** ** Indistinguishable refusals *)

(** C10.  An envelope with a key and an IV of the right lengths whose tag verifies but
    whose content has fewer than 50 characters gets status 400 with the message
    [Failed to decrypt pitch data], and so does an envelope that fails authentication:
    the two responses are equal. *)
Theorem C10_short_content_looks_like_tampering host env
  o c k i ciphertext key iv plain o' c' k' i' ciphertext' key' iv' :
  Route.req_ciphertext o = Some c ->
  Route.req_aes_key o = Some k ->
  Route.req_iv o = Some i ->
  Route.Buffer_from host c = Ok ciphertext ->
  Route.Buffer_from host k = Ok key ->
  Route.Buffer_from host i = Ok iv ->
  List.length key = 32%nat ->
  List.length iv = 12%nat ->
  GCM.decrypt key iv (Route.slice_until_last16 ciphertext)
    (Route.slice_last16 ciphertext) = Some plain ->
  str_length (UTF8.decode plain) < 50 ->
  Route.req_ciphertext o' = Some c' ->
  Route.req_aes_key o' = Some k' ->
  Route.req_iv o' = Some i' ->
  Route.Buffer_from host c' = Ok ciphertext' ->
  Route.Buffer_from host k' = Ok key' ->
  Route.Buffer_from host i' = Ok iv' ->
  GCM.decrypt key' iv' (Route.slice_until_last16 ciphertext')
    (Route.slice_last16 ciphertext') = None ->
  Route.POST host env (Route.BodyObject o) =
  Route.error_response 400 (js "Failed to decrypt pitch data") /\
  Route.POST host env (Route.BodyObject o') = Route.POST host env (Route.BodyObject o).
Proof.
  intros Hc Hk Hi Bc Bk Bi _ _ Hp Hs Hc' Hk' Hi' Bc' Bk' Bi' Hp'.
  rewrite (POST_short_content host env o c k i ciphertext key iv plain
             Hc Hk Hi Bc Bk Bi Hp Hs).
  rewrite (POST_unauthentic host env o' c' k' i' ciphertext' key' iv'
             Hc' Hk' Hi' Bc' Bk' Bi' Hp').
  split; reflexivity.
Qed.

(** The short envelope and the envelope with the wrong key get the same answer. *)
Lemma C10_witness :
  Route.POST Sample.host Sample.offline (Client.submission Sample.short_envelope None) =
  Route.error_response 400 (js "Failed to decrypt pitch data") /\
  Route.POST Sample.host Sample.offline (Client.submission Sample.wrong_key_envelope None) =
  Route.POST Sample.host Sample.offline (Client.submission Sample.short_envelope None).
Proof.
  apply (C10_short_content_looks_like_tampering Sample.host Sample.offline
           (Client.request Sample.short_envelope None)
           (JStr (Client.encryptedData Sample.short_envelope))
           (JStr (Client.key Sample.short_envelope))
           (JStr (Client.iv Sample.short_envelope))
           (Base64.decode (Client.encryptedData Sample.short_envelope))
           (Base64.decode (Client.key Sample.short_envelope))
           (Base64.decode (Client.iv Sample.short_envelope))
           (UTF8.encode (js "hello"))
           (Client.request Sample.wrong_key_envelope None)
           (JStr (Client.encryptedData Sample.wrong_key_envelope))
           (JStr (Client.key Sample.wrong_key_envelope))
           (JStr (Client.iv Sample.wrong_key_envelope))
           (Base64.decode (Client.encryptedData Sample.wrong_key_envelope))
           (Base64.decode (Client.key Sample.wrong_key_envelope))
           (Base64.decode (Client.iv Sample.wrong_key_envelope))).
  all: vm_compute; reflexivity.
Defined.

(** * Further properties *)
(** ** How much text a ciphertext can hold *)

Lemma emit_length cp : (List.length (UTF8.emit cp) <= 2)%nat.
Proof. unfold UTF8.emit. destruct (cp <? 65536); cbn; lia. Qed.

Lemma lead_length b :
  (List.length (fst (UTF8.lead b)) + Text.pending (snd (UTF8.lead b)) <= 1)%nat.
Proof.
  unfold UTF8.lead.
  repeat match goal with
         | |- context [if ?c then _ else _] => destruct c
         end; cbn; lia.
Qed.

Lemma step_length st b :
  (List.length (fst (UTF8.step st b)) + Text.pending (snd (UTF8.step st b)) <= 1 + Text.pending st)%nat.
Proof.
  destruct st as [|cp n lo hi]; cbn [UTF8.step Text.pending].
  - pose proof (lead_length b). lia.
  - destruct ((lo <=? b) && (b <=? hi)).
    + destruct n as [|[|n]]; cbn [fst snd Text.pending List.length];
        try (pose proof (emit_length (cp * 64 + (b - 128))); lia).
    + pose proof (lead_length b). destruct (UTF8.lead b) as [out st'].
      cbn [fst snd List.length] in *. lia.
Qed.

(** Decoding never yields more code units than there are bytes. *)
Lemma decode_from_length bs :
  forall st, (List.length (UTF8.decode_from st bs) <= List.length bs + Text.pending st)%nat.
Proof.
  induction bs as [|b bs IH]; intros st.
  - destruct st; cbn; lia.
  - rewrite decode_from_cons, length_app.
    pose proof (step_length st b). pose proof (IH (snd (UTF8.step st b))).
    cbn [List.length]. lia.
Qed.

Lemma utf8_decode_length bs : (List.length (UTF8.decode bs) <= List.length bs)%nat.
Proof. pose proof (decode_from_length bs UTF8.Start). cbn [Text.pending] in H. unfold UTF8.decode. lia. Qed.

Lemma list_ind4 (A : Type) (P : list A -> Prop) :
  P [] -> (forall a, P [a]) -> (forall a b, P [a; b]) -> (forall a b c, P [a; b; c]) ->
  (forall a b c d r, P r -> P (a :: b :: c :: d :: r)) ->
  forall l, P l.
Proof.
  intros H0 H1 H2 H3 H4.
  fix IH 1.
  intros [|a [|b [|c [|d r]]]].
  - exact H0.
  - apply H1.
  - apply H2.
  - apply H3.
  - apply H4, IH.
Qed.

Lemma group_length l : (4 * List.length (Base64.group l) <= 3 * List.length l)%nat.
Proof.
  induction l as [|a|a b|a b c|a b c d r IH] using list_ind4;
    cbn [Base64.group List.length app] in *; lia.
Qed.

Lemma sextets_length s : (List.length (Base64.sextets s) <= List.length s)%nat.
Proof.
  induction s as [|c s IH]; cbn [Base64.sextets List.length]; [lia|]. cbv zeta.
  destruct (c mod 256 =? Base64.pad); [cbn; lia|].
  destruct (Base64.unbase64 (c mod 256)); cbn [List.length]; lia.
Qed.

(** Four characters of text give at most three bytes. *)
Lemma base64_decode_length s :
  (4 * List.length (Base64.decode s) <= 3 * List.length s)%nat.
Proof.
  unfold Base64.decode.
  pose proof (group_length (Base64.sextets s)). pose proof (sextets_length s). lia.
Qed.

Lemma gcm_decrypt_length key iv c t plain :
  GCM.decrypt key iv c t = Some plain -> List.length plain = List.length c.
Proof.
  unfold GCM.decrypt. destruct (bytes_eqb _ t); [|discriminate].
  intros H. injection H as <-. apply GCTR_length.
Qed.

(** The decrypted pitch has at most as many code units as the ciphertext has bytes
    before its tag. *)
Lemma decrypt_attempt_length host c k i text :
  Route.decrypt_attempt host c k i = Ok text ->
  exists ciphertext,
    Route.Buffer_from host c = Ok ciphertext /\
    50 <= str_length text <= Z.of_nat (List.length ciphertext) - 16.
Proof.
  intros H. pose proof (decrypt_attempt_spec host c k i) as Ha.
  rewrite H in Ha.
  destruct Ha as (ciphertext & key & iv & plain & Bc & _ & _ & _ & _ & _ & Hp & -> & Hlen).
  exists ciphertext. split; [exact Bc|].
  apply gcm_decrypt_length in Hp.
  pose proof (utf8_decode_length plain) as Hd.
  unfold Route.slice_until_last16 in Hp. rewrite length_firstn in Hp.
  unfold Route.MIN_PITCH_LENGTH, str_length in *. lia.
Qed.

(** X1.  A request whose [ciphertext] text has fewer than 88 characters is refused
    with status 400 whatever its key and IV: 88 characters are needed for the 16 bytes
    of the tag and the 50 bytes of the shortest pitch. *)
Theorem short_ciphertext_refused host env o c k i :
  Route.req_ciphertext o = Some (JStr c) ->
  Route.req_aes_key o = Some (JStr k) ->
  Route.req_iv o = Some (JStr i) ->
  str_length c < 88 ->
  Route.POST host env (Route.BodyObject o) =
  Route.error_response 400 (js "Failed to decrypt pitch data").
Proof.
  intros Hc Hk Hi Hlen.
  rewrite (POST_buffers host env o (JStr c) (JStr k) (JStr i) _ _ _
             Hc Hk Hi eq_refl eq_refl eq_refl).
  pose proof (decryptPitchData_spec host (JStr c) (JStr k) (JStr i)) as Hd.
  destruct (Route.decryptPitchData host (JStr c) (JStr k) (JStr i)) as [text|m];
    [|reflexivity].
  exfalso. apply decrypt_attempt_length in Hd.
  destruct Hd as (ciphertext & Bc & Hd). cbn [Route.Buffer_from] in Bc.
  injection Bc as <-.
  pose proof (base64_decode_length c). unfold str_length in *. lia.
Qed.

(** The sample envelope with its ciphertext cut to 87 characters. *)
Lemma short_ciphertext_refused_witness :
  Route.POST Sample.host Sample.offline
    (Route.BodyObject
       {| Route.req_ciphertext := Some (JStr (firstn 87 (Client.encryptedData Sample.envelope)));
          Route.req_aes_key := Some (JStr (Client.key Sample.envelope));
          Route.req_iv := Some (JStr (Client.iv Sample.envelope));
          Route.req_model := None |}) =
  Route.error_response 400 (js "Failed to decrypt pitch data").
Proof.
  apply (short_ciphertext_refused Sample.host Sample.offline _
           (firstn 87 (Client.encryptedData Sample.envelope))
           (Client.key Sample.envelope) (Client.iv Sample.envelope));
    try reflexivity.
Defined.

(** ** A replaced tag *)

(** X2.  If the 16 bytes of the tag of an envelope made by [encryptPitch] are replaced
    by any other 16 bytes, the route refuses the envelope with status 400. *)
Theorem replaced_tag_refused host env raw_key raw_iv pitch tag' hint :
  List.length raw_key = 32%nat -> is_bytes raw_key = true ->
  List.length raw_iv = 12%nat -> is_bytes raw_iv = true ->
  List.length tag' = 16%nat -> is_bytes tag' = true ->
  tag' <> snd (GCM.encrypt raw_key raw_iv (UTF8.encode pitch)) ->
  Route.POST host env
    (Client.submission (Tamper.replace_tag raw_key raw_iv pitch tag') hint) =
  Route.error_response 400 (js "Failed to decrypt pitch data").
Proof.
  intros Hkl Hkb Hil Hib Htl Htb Hne.
  unfold Client.submission.
  apply (POST_unauthentic host env _
           (JStr (Client.encryptedData (Tamper.replace_tag raw_key raw_iv pitch tag')))
           (JStr (Client.key (Tamper.replace_tag raw_key raw_iv pitch tag')))
           (JStr (Client.iv (Tamper.replace_tag raw_key raw_iv pitch tag')))
           (Base64.decode (Client.encryptedData (Tamper.replace_tag raw_key raw_iv pitch tag')))
           (Base64.decode (Client.key (Tamper.replace_tag raw_key raw_iv pitch tag')))
           (Base64.decode (Client.iv (Tamper.replace_tag raw_key raw_iv pitch tag'))));
    try reflexivity.
  unfold Tamper.replace_tag, Client.arrayBufferToBase64.
  cbn [Client.encryptedData Client.key Client.iv].
  assert (Hcb : is_bytes (fst (GCM.encrypt raw_key raw_iv (UTF8.encode pitch)) ++ tag') = true).
  { rewrite is_bytes_app, Htb. unfold GCM.encrypt. cbn [fst]. rewrite GCTR_bytes. reflexivity. }
  rewrite !base64_decode_encode by assumption.
  unfold Route.slice_last16, Route.slice_until_last16.
  destruct (slice_tag (fst (GCM.encrypt raw_key raw_iv (UTF8.encode pitch))) tag' Htl)
    as (Hs & Hf).
  rewrite Hs, Hf.
  unfold GCM.decrypt, GCM.encrypt in *. cbn [fst snd] in *.
  rewrite Htl.
  rewrite <- (tag_length (AES.KeyExpansion raw_key) (GCM.J0 raw_iv)
                (GCM.GCTR (AES.KeyExpansion raw_key) (GCM.inc32 (GCM.J0 raw_iv))
                   (UTF8.encode pitch))) at 1.
  rewrite firstn_all.
  destruct (bytes_eqb _ tag') eqn:Heq; [|reflexivity].
  apply bytes_eqb_eq in Heq. congruence.
Qed.

(** The sample envelope with sixteen zero bytes for its tag. *)
Lemma replaced_tag_refused_witness :
  Route.POST Sample.host Sample.offline
    (Client.submission
       (Tamper.replace_tag Sample.raw_key Sample.raw_iv Sample.pitch (repeat 0 16)) None) =
  Route.error_response 400 (js "Failed to decrypt pitch data").
Proof.
  apply (replaced_tag_refused Sample.host Sample.offline Sample.raw_key Sample.raw_iv
           Sample.pitch (repeat 0 16) None); try reflexivity.
  vm_compute. discriminate.
Defined.

(** ** White space in the texts of an envelope *)

Lemma sextets_without_spaces s :
  Base64.sextets (Text.without_spaces s) = Base64.sextets s.
Proof.
  unfold Text.without_spaces.
  induction s as [|c s IH]; [reflexivity|].
  cbn [filter]. destruct (Text.ascii_space c) eqn:Hc; cbn [negb].
  - rewrite IH. unfold Text.ascii_space in Hc.
    rewrite !orb_true_iff, !Z.eqb_eq in Hc.
    destruct Hc as [[[[-> | ->] | ->] | ->] | ->]; reflexivity.
  - cbn [Base64.sextets]. rewrite IH. reflexivity.
Qed.

Lemma decode_without_spaces s : Base64.decode (Text.without_spaces s) = Base64.decode s.
Proof. unfold Base64.decode. rewrite sextets_without_spaces. reflexivity. Qed.

(** X3.  White space inside the three texts of an envelope does not count: with the
    tabs, line breaks and spaces removed, [decryptPitchData] returns or throws the
    same. *)
Theorem decryptPitchData_ignores_white_space host c k i :
  Route.decryptPitchData host
    (JStr (Text.without_spaces c)) (JStr (Text.without_spaces k))
    (JStr (Text.without_spaces i)) =
  Route.decryptPitchData host (JStr c) (JStr k) (JStr i).
Proof.
  unfold Route.decryptPitchData, Route.decrypt_attempt. cbn [Route.Buffer_from].
  rewrite !decode_without_spaces. reflexivity.
Qed.

(** ** Sanitizing again *)

Lemma trim_start_clean s : Text.starts_clean (trim_start s) = true.
Proof.
  induction s as [|c s IH]; [reflexivity|].
  cbn [trim_start]. destruct (is_white_space c) eqn:Hc; [exact IH|].
  cbn [Text.starts_clean]. rewrite Hc. reflexivity.
Qed.

Lemma trim_start_fixed s : Text.starts_clean s = true -> trim_start s = s.
Proof.
  destruct s as [|c s]; [reflexivity|].
  cbn [Text.starts_clean trim_start]. rewrite negb_true_iff. intros ->. reflexivity.
Qed.

Lemma trim_start_suffix s : exists pre, s = pre ++ trim_start s.
Proof.
  induction s as [|c s (pre & IH)]; [exists []; reflexivity|].
  cbn [trim_start]. destruct (is_white_space c).
  - exists (c :: pre). cbn [app]. rewrite <- IH. reflexivity.
  - exists []. reflexivity.
Qed.

Lemma starts_clean_prefix x y :
  x <> [] -> Text.starts_clean (x ++ y) = Text.starts_clean x.
Proof. destruct x; [congruence | reflexivity]. Qed.

Lemma trim_trimmed s : Text.trimmed (trim s) = true.
Proof.
  unfold Text.trimmed, trim.
  set (a := trim_start s). set (b := trim_start (rev a)).
  rewrite rev_involutive.
  assert (Hb : Text.starts_clean b = true) by apply trim_start_clean.
  rewrite Hb, andb_true_r.
  destruct (trim_start_suffix (rev a)) as (pre & Hpre). fold b in Hpre.
  assert (Ha : a = rev b ++ rev pre).
  { rewrite <- rev_app_distr, <- Hpre, rev_involutive. reflexivity. }
  destruct (rev b) as [|x r] eqn:Hr; [reflexivity|].
  rewrite <- (starts_clean_prefix (x :: r) (rev pre)) by discriminate.
  rewrite <- Ha. apply trim_start_clean.
Qed.

Lemma trim_fixed s : Text.trimmed s = true -> trim s = s.
Proof.
  unfold Text.trimmed, trim. rewrite andb_true_iff. intros (H1 & H2).
  rewrite (trim_start_fixed s H1), (trim_start_fixed (rev s) H2).
  apply rev_involutive.
Qed.

Lemma filter_fixed (f : Z -> bool) l : forallb f l = true -> filter f l = l.
Proof.
  induction l as [|x l IH]; [reflexivity|].
  cbn [forallb filter]. rewrite andb_true_iff. intros (-> & H). rewrite (IH H). reflexivity.
Qed.

Lemma harmless_spec c :
  Text.harmless c = true <-> c <> 60 /\ c <> 62 /\ c <> 38 /\ c <> 34 /\ c <> 39.
Proof.
  unfold Text.harmless. rewrite negb_true_iff, !orb_false_iff, !Z.eqb_neq. tauto.
Qed.

Lemma stripped_harmless text : forallb Text.harmless (Route.stripped text) = true.
Proof.
  apply forallb_forall. intros x Hx. apply stripped_spec in Hx.
  apply harmless_spec. tauto.
Qed.

Lemma remove_all_fixed c text :
  Text.harmless c = false ->
  forallb Text.harmless text = true -> remove_all c text = text.
Proof.
  intros Hc H. unfold remove_all. apply filter_fixed.
  apply forallb_forall. intros x Hx.
  apply (proj1 (forallb_forall _ _) H) in Hx.
  apply negb_true_iff, Z.eqb_neq. intros ->. congruence.
Qed.

Lemma stripped_fixed text :
  forallb Text.harmless text = true -> Route.stripped text = text.
Proof.
  intros H. unfold Route.stripped.
  rewrite (remove_all_fixed 60 text), (remove_all_fixed 62 text), (remove_all_fixed 38 text),
    (remove_all_fixed 34 text), (remove_all_fixed 39 text) by (reflexivity || exact H).
  reflexivity.
Qed.

(** A text without the five characters, within the limit and without outer white
    space comes back as it is. *)
Lemma sanitizeInput_keeps text :
  forallb Text.harmless text = true ->
  str_length text <= Route.MAX_PITCH_LENGTH ->
  Text.trimmed text = true ->
  Route.sanitizeInput text = text.
Proof.
  intros Hh Hl Ht. unfold Route.sanitizeInput.
  rewrite (stripped_fixed text Hh).
  rewrite (proj2 (Z.ltb_ge _ _)) by lia.
  apply trim_fixed, Ht.
Qed.

Lemma harmless_incl (a b : js_string) :
  (forall x, In x a -> In x b) ->
  forallb Text.harmless b = true -> forallb Text.harmless a = true.
Proof.
  intros Hin Hb. apply forallb_forall. intros x Hx.
  apply (proj1 (forallb_forall _ _) Hb), Hin, Hx.
Qed.

(** X4.  For a text whose stripped form has at most 10,000 characters, the result of
    [sanitizeInput] has no white space at either end, and sanitizing it again changes
    nothing.  A longer text is cut without being trimmed, and a second pass may then
    trim it. *)
Theorem sanitizeInput_idempotent_within_limit text :
  str_length (Route.stripped text) <= Route.MAX_PITCH_LENGTH ->
  Text.trimmed (Route.sanitizeInput text) = true /\
  Route.sanitizeInput (Route.sanitizeInput text) = Route.sanitizeInput text.
Proof.
  intros Hl.
  assert (Hs : Route.sanitizeInput text = trim (Route.stripped text)).
  { unfold Route.sanitizeInput. rewrite (proj2 (Z.ltb_ge _ _)) by lia. reflexivity. }
  rewrite Hs. split; [apply trim_trimmed|].
  apply sanitizeInput_keeps.
  - apply (harmless_incl _ (Route.stripped text)); [apply trim_incl | apply stripped_harmless].
  - pose proof (trim_length (Route.stripped text)). unfold str_length in *. lia.
  - apply trim_trimmed.
Qed.

(** A text with brackets, quotes and outer white space. *)
Lemma sanitizeInput_idempotent_within_limit_witness :
  Text.trimmed (Route.sanitizeInput (js "  <b>Tom's & co</b>  ")) = true /\
  Route.sanitizeInput (Route.sanitizeInput (js "  <b>Tom's & co</b>  ")) =
  Route.sanitizeInput (js "  <b>Tom's & co</b>  ").
Proof.
  apply (sanitizeInput_idempotent_within_limit (js "  <b>Tom's & co</b>  ")).
  vm_compute. discriminate.
Defined.

(** X5.  The texts that [sanitizeInput] returns unchanged are exactly those that hold
    none of the five characters, have at most 10,000 characters and have no white
    space at either end. *)
Theorem sanitizeInput_fixed_points text :
  Route.sanitizeInput text = text <->
  forallb Text.harmless text = true /\
  str_length text <= Route.MAX_PITCH_LENGTH /\
  Text.trimmed text = true.
Proof.
  split.
  - intros H.
    assert (Hh : forallb Text.harmless text = true).
    { rewrite <- H.
      apply (harmless_incl _ (Route.stripped text));
        [intros x; apply sanitizeInput_incl | apply stripped_harmless]. }
    assert (Hl : str_length text <= Route.MAX_PITCH_LENGTH).
    { rewrite <- H. apply sanitizeInput_length. }
    split; [exact Hh|]. split; [exact Hl|].
    rewrite <- H. unfold Route.sanitizeInput.
    rewrite (stripped_fixed text Hh), (proj2 (Z.ltb_ge _ _)) by lia.
    apply trim_trimmed.
  - intros (Hh & Hl & Ht). apply sanitizeInput_keeps; assumption.
Qed.

(** ** What the receipt does not tell apart *)

(** X6.  The receipt does not fix where the ciphertext ends and the model name begins:
    a vertical bar and what follows it in the ciphertext text can be moved to the
    front of the model name without changing the receipt. *)
Theorem receipt_ignores_field_boundary host c x m t s :
  Route.generateReceipt host (JStr (c ++ [124] ++ x)) (JStr m) t s =
  Route.generateReceipt host (JStr c) (JStr (x ++ [124] ++ m)) t s.
Proof.
  unfold Route.generateReceipt, Route.receipt_of. cbn [ToString].
  rewrite <- !app_assoc. reflexivity.
Qed.

(** ** Which upstream replies are accepted *)

(** X7.  The inner [try] of [analyzeWithMistral] accepts a reply exactly when its
    trimmed text parses to an object in which [clarity], [originality],
    [team_strength] and [market_fit] are numbers between 0 and 10; the scores are
    those four numbers, and whatever else the object holds is dropped. *)
Theorem reply_accepted_iff host text s :
  Route.parse_scores host (JStr text) = Some s <->
  exists ms,
    JSON_parse host (trim text) = Some (JObj ms) /\
    lookup (js "clarity") ms = Some (JNum (Route.clarity s)) /\
    lookup (js "originality") ms = Some (JNum (Route.originality s)) /\
    lookup (js "team_strength") ms = Some (JNum (Route.team_strength s)) /\
    lookup (js "market_fit") ms = Some (JNum (Route.market_fit s)) /\
    Route.valid s.
Proof. apply parse_scores_object. Qed.

(** ** The ranges of the mock scores *)

Lemma Qfloor_half n : Qfloor (inject_Z n + (1 # 2)) = n.
Proof.
  unfold Qfloor, Qplus, inject_Z. cbn [Qnum Qden]. change (Z.pos (1 * 2)) with 2.
  dm_lia.
Qed.

Lemma round1_between a b x :
  (inject_Z a <= x * 10)%Q -> (x * 10 <= inject_Z b)%Q ->
  exists n, a <= n <= b /\ Route.round1 x = (inject_Z n / 10)%Q.
Proof.
  intros Ha Hb. unfold Route.round1, Math_round.
  exists (Qfloor (x * 10 + (1 # 2))). split; [|reflexivity]. split.
  - rewrite <- (Qfloor_half a). apply Qfloor_resp_le. lra.
  - rewrite <- (Qfloor_half b). apply Qfloor_resp_le. lra.
Qed.

(** X8.  Every mock score is a whole number of tenths, and the four scores lie in
    narrower ranges than a score may: clarity from 7 to 10, originality from 6.5 to
    9, team strength from 6 to 8.5 and market fit from 6.5 to 9.2. *)
Theorem getMockScores_ranges host now :
  let m := Route.getMockScores host now in
  (exists n, 70 <= n <= 100 /\ Route.clarity m = (inject_Z n / 10)%Q) /\
  (exists n, 65 <= n <= 90 /\ Route.originality m = (inject_Z n / 10)%Q) /\
  (exists n, 60 <= n <= 85 /\ Route.team_strength m = (inject_Z n / 10)%Q) /\
  (exists n, 65 <= n <= 92 /\ Route.market_fit m = (inject_Z n / 10)%Q).
Proof.
  cbv zeta. unfold Route.getMockScores.
  cbn [Route.clarity Route.originality Route.team_strength Route.market_fit].
  pose proof (random_range host (now / 3600000)) as R0.
  pose proof (random_range host (now / 3600000 + 1)) as R1.
  pose proof (random_range host (now / 3600000 + 2)) as R2.
  pose proof (random_range host (now / 3600000 + 3)) as R3.
  repeat apply conj; apply round1_between; unfold inject_Z; lra.
Qed.

(** ** [atob] undoes [btoa] *)

Lemma encode_split b :
  Base64.encode b = map Base64.symbol (Text.to_sextets b) ++ Text.padding b.
Proof.
  induction b as [|x|x y|x y z r IH] using list_ind3; try reflexivity.
  cbn [Base64.encode Text.to_sextets Text.padding]. rewrite IH, map_app, <- app_assoc.
  reflexivity.
Qed.

Lemma to_sextets_range b :
  is_bytes b = true -> Forall (fun v => 0 <= v < 64) (Text.to_sextets b).
Proof.
  unfold is_bytes.
  induction b as [|x|x y|x y z r IH] using list_ind3; intros Hb;
    cbn [forallb] in Hb; rewrite ?andb_true_iff, ?is_byte_range in Hb;
    cbn [Text.to_sextets app].
  - constructor.
  - repeat constructor; dm_lia.
  - repeat constructor; dm_lia.
  - destruct Hb as (Hx & Hy & Hz & Hr).
    repeat (constructor; [dm_lia|]). apply IH, Hr.
Qed.

Lemma to_sextets_length b :
  exists n, (List.length (Text.to_sextets b) = 4 * n + 0 \/
             List.length (Text.to_sextets b) = 4 * n + 2 \/
             List.length (Text.to_sextets b) = 4 * n + 3)%nat.
Proof.
  induction b as [|x|x y|x y z r (n & IH)] using list_ind3.
  - exists 0%nat. left. reflexivity.
  - exists 0%nat. right. left. reflexivity.
  - exists 0%nat. right. right. reflexivity.
  - exists (S n). cbn [Text.to_sextets app List.length]. lia.
Qed.

Lemma encode_length_sum b :
  exists n, (List.length (Text.to_sextets b) + List.length (Text.padding b) = 4 * n)%nat /\
            ((List.length b + 2) / 3 = n)%nat /\ (List.length (Text.padding b) <= 2)%nat.
Proof.
  induction b as [|x|x y|x y z r (n & IH1 & IH2 & IH3)] using list_ind3.
  - exists 0%nat. repeat split; cbn; lia.
  - exists 1%nat. repeat split; cbn; lia.
  - exists 1%nat. repeat split; cbn; lia.
  - exists (S n). cbn [Text.to_sextets Text.padding app List.length].
    split; [lia|]. split; [|exact IH3].
    replace (S (S (S (List.length r))) + 2)%nat with (List.length r + 2 + 1 * 3)%nat by lia.
    rewrite Nat.div_add by lia. lia.
Qed.

(** The text that [Base64.encode] writes has four characters for every three bytes,
    the last group filled up. *)
Lemma base64_encode_length b :
  List.length (Base64.encode b) = (4 * ((List.length b + 2) / 3))%nat.
Proof.
  rewrite encode_split, length_app, length_map.
  destruct (encode_length_sum b) as (n & H1 & H2 & _). lia.
Qed.

Lemma standard_table :
  forallb (fun n => let v := Z.of_nat n in
                    match Web.standard_value (Base64.symbol v) with
                    | Some w => (w =? v) && negb (Base64.symbol v =? 61) &&
                                negb (Text.ascii_space (Base64.symbol v))
                    | None => false
                    end) (seq 0 64) = true.
Proof. vm_compute. reflexivity. Qed.

Lemma standard_symbol v :
  0 <= v < 64 ->
  Web.standard_value (Base64.symbol v) = Some v /\ Base64.symbol v <> 61 /\
  Text.ascii_space (Base64.symbol v) = false.
Proof.
  intros Hv.
  pose proof (proj1 (forallb_forall _ _) standard_table (Z.to_nat v)) as H.
  cbv beta zeta in H. rewrite Z2Nat.id in H by lia.
  assert (Hin : In (Z.to_nat v) (seq 0 64)) by (apply in_seq; lia).
  specialize (H Hin).
  destruct (Web.standard_value (Base64.symbol v)) as [w|]; [|discriminate].
  rewrite !andb_true_iff, !negb_true_iff, Z.eqb_eq, Z.eqb_neq in H.
  destruct H as ((-> & Hp) & Hs). tauto.
Qed.

Lemma values_symbols l :
  Forall (fun v => 0 <= v < 64) l -> Web.values (map Base64.symbol l) = Some l.
Proof.
  induction 1 as [|v l Hv _ IH]; [reflexivity|].
  cbn [map Web.values]. rewrite (proj1 (standard_symbol v Hv)), IH. reflexivity.
Qed.

Lemma sextets_symbols l p :
  Forall (fun v => 0 <= v < 64) l -> (p = [] \/ exists p', p = Base64.pad :: p') ->
  Base64.sextets (map Base64.symbol l ++ p) = l.
Proof.
  intros Hl Hp. induction Hl as [|v l Hv _ IH].
  - destruct Hp as [->|(p' & ->)]; reflexivity.
  - cbn [map app]. rewrite sextets_symbol by exact Hv. rewrite IH. reflexivity.
Qed.

Lemma padding_cases b :
  Text.padding b = [] \/ Text.padding b = [Base64.pad] \/
  Text.padding b = [Base64.pad; Base64.pad].
Proof.
  induction b as [|x|x y|x y z r IH] using list_ind3; cbn [Text.padding]; tauto.
Qed.

Lemma group_to_sextets b : is_bytes b = true -> Base64.group (Text.to_sextets b) = b.
Proof.
  intros Hb. pose proof (base64_decode_encode b Hb) as H.
  unfold Base64.decode in H. rewrite encode_split in H.
  rewrite sextets_symbols in H; [exact H | apply to_sextets_range, Hb |].
  destruct (padding_cases b) as [-> | [-> | ->]]; [left | right; eexists | right; eexists];
    reflexivity.
Qed.

Lemma symbols_without_spaces l p :
  Forall (fun v => 0 <= v < 64) l -> Forall (fun c => c = Base64.pad) p ->
  Text.without_spaces (map Base64.symbol l ++ p) = map Base64.symbol l ++ p.
Proof.
  intros Hl Hp. unfold Text.without_spaces. apply filter_fixed.
  rewrite forallb_app. apply andb_true_iff. split; apply forallb_forall; intros c Hc.
  - apply in_map_iff in Hc. destruct Hc as (v & <- & Hv).
    rewrite Forall_forall in Hl.
    rewrite (proj2 (proj2 (standard_symbol v (Hl v Hv)))). reflexivity.
  - rewrite Forall_forall in Hp. rewrite (Hp c Hc). reflexivity.
Qed.

Lemma strip_padding_symbols l p :
  Forall (fun v => 0 <= v < 64) l ->
  p = [] \/ p = [Base64.pad] \/ p = [Base64.pad; Base64.pad] ->
  Web.strip_padding (map Base64.symbol l ++ p) = map Base64.symbol l.
Proof.
  intros Hl Hp. unfold Web.strip_padding. rewrite rev_app_distr.
  assert (Hhead : forall a r, rev (map Base64.symbol l) = a :: r -> (a =? 61) = false).
  { intros a r Hr. apply Z.eqb_neq.
    assert (Hin : In a (map Base64.symbol l)).
    { apply in_rev. rewrite Hr. left. reflexivity. }
    apply in_map_iff in Hin. destruct Hin as (v & <- & Hv).
    rewrite Forall_forall in Hl. apply (standard_symbol v (Hl v Hv)). }
  destruct Hp as [-> | [-> | ->]]; cbn [rev app].
  - destruct (rev (map Base64.symbol l)) as [|a r] eqn:Hr.
    + rewrite app_nil_r. reflexivity.
    + rewrite (Hhead a r eq_refl), app_nil_r. reflexivity.
  - change (Base64.pad =? 61) with true. cbv iota.
    destruct (rev (map Base64.symbol l)) as [|a r] eqn:Hr.
    + rewrite <- Hr. apply rev_involutive.
    + rewrite (Hhead a r eq_refl), <- Hr. apply rev_involutive.
  - change (Base64.pad =? 61) with true. cbv iota.
    apply rev_involutive.
Qed.

Lemma mod4 k j : (j < 4)%nat -> ((4 * k + j) mod 4 = j)%nat.
Proof.
  intros Hj. rewrite (Nat.add_comm (4 * k)), (Nat.mul_comm 4 k), Nat.Div0.mod_add.
  apply Nat.mod_small, Hj.
Qed.

Lemma atob_encode b : is_bytes b = true -> Web.atob (Base64.encode b) = Ok b.
Proof.
  intros Hb. unfold Web.atob. rewrite encode_split.
  pose proof (to_sextets_range b Hb) as Hr.
  assert (Hpad : Forall (fun c => c = Base64.pad) (Text.padding b)).
  { destruct (padding_cases b) as [-> | [-> | ->]]; repeat constructor. }
  rewrite symbols_without_spaces by assumption.
  destruct (encode_length_sum b) as (n & Hn & _ & _).
  rewrite length_app, length_map, Hn.
  rewrite <- (Nat.add_0_r (4 * n)), mod4 by lia.
  cbn [Nat.eqb].
  rewrite strip_padding_symbols by (assumption || apply padding_cases).
  rewrite length_map.
  destruct (to_sextets_length b) as (k & [H | [H | H]]); rewrite H, mod4 by lia;
    cbn [Nat.eqb];
    rewrite (values_symbols _ Hr), (group_to_sextets b Hb); reflexivity.
Qed.

(** X9.  [base64ToArrayBuffer] undoes [arrayBufferToBase64]: for every buffer, the text
    that one writes is accepted by the other and gives the same bytes back. *)
Theorem base64ToArrayBuffer_arrayBufferToBase64 buffer :
  is_bytes buffer = true ->
  Utils.base64ToArrayBuffer (Client.arrayBufferToBase64 buffer) = Ok buffer.
Proof. apply atob_encode. Qed.

(** The bytes from 0 to 255. *)
Lemma base64ToArrayBuffer_arrayBufferToBase64_witness :
  Utils.base64ToArrayBuffer (Client.arrayBufferToBase64 (map Z.of_nat (seq 0 256))) =
  Ok (map Z.of_nat (seq 0 256)).
Proof.
  apply (base64ToArrayBuffer_arrayBufferToBase64 (map Z.of_nat (seq 0 256))).
  reflexivity.
Defined.

(** ** Decrypting on the client *)

Lemma encode_bom p :
  well_formed p = true ->
  starts_with [0xEF; 0xBB; 0xBF] (UTF8.encode p) =
  match p with
  | c :: _ => c =? 0xFEFF
  | [] => false
  end.
Proof.
  destruct p as [|c r]; [reflexivity|].
  intros Hwf. rewrite encode_cons. cbn [well_formed] in Hwf.
  destruct (is_high_surrogate c) eqn:Hh.
  - apply (proj1 (surrogate_tests c)) in Hh.
    destruct r as [|d r]; [discriminate|].
    apply andb_true_iff in Hwf. destruct Hwf as (Hl & _). rewrite Hl.
    apply (proj1 (proj2 (surrogate_tests d))) in Hl.
    unfold UTF8.encode_code_point.
    rewrite !(proj2 (Z.ltb_ge _ _)) by lia.
    cbn [app starts_with].
    rewrite (proj2 (Z.eqb_neq 239 _)) by dm_lia.
    symmetry. apply Z.eqb_neq. lia.
  - rewrite !andb_true_iff, negb_true_iff in Hwf. destruct Hwf as ((Hu & Hl) & _).
    rewrite Hl. apply (proj2 (proj2 (surrogate_tests c))) in Hu.
    unfold UTF8.encode_code_point.
    destruct (Z.ltb_spec c 0x80); [|destruct (Z.ltb_spec c 0x800);
                                     [|destruct (Z.ltb_spec c 0x10000); [|lia]]];
      cbn [app starts_with].
    + rewrite (proj2 (Z.eqb_neq 239 _)) by lia. symmetry. apply Z.eqb_neq. lia.
    + rewrite (proj2 (Z.eqb_neq 239 _)) by dm_lia. symmetry. apply Z.eqb_neq. lia.
    + rewrite andb_true_r.
      destruct (Z.eqb_spec c 65279) as [->|Hc]; [reflexivity|].
      destruct (Z.eqb_spec 239 (224 + c / 4096)); [|reflexivity].
      destruct (Z.eqb_spec 187 (128 + c / 64 mod 64)); [|reflexivity].
      destruct (Z.eqb_spec 191 (128 + c mod 64)); [|reflexivity].
      exfalso. apply Hc. dm_lia.
Qed.

(** Decoding the encoding of a well-formed text drops the byte order mark it may
    start with, and nothing else. *)
Lemma TextDecoder_encode p :
  well_formed p = true -> Web.TextDecoder_decode (UTF8.encode p) = Text.without_bom p.
Proof.
  intros Hwf. unfold Web.TextDecoder_decode. rewrite (encode_bom p Hwf).
  destruct p as [|c r]; [reflexivity|].
  cbn [Text.without_bom].
  destruct (Z.eqb_spec c 65279) as [->|Hc].
  - change (UTF8.encode (65279 :: r)) with ([239; 187; 191] ++ UTF8.encode r).
    cbn [app skipn]. apply utf8_decode_encode. exact Hwf.
  - apply utf8_decode_encode, Hwf.
Qed.

(** The platform cipher opens what [encryptPitch] sealed. *)
Lemma importKey_decrypt_sealed subtle raw_key raw_iv data :
  List.length raw_key = 32%nat -> List.length raw_iv = 12%nat -> is_bytes data = true ->
  Web.importKey_decrypt subtle raw_key raw_iv
    (fst (GCM.encrypt raw_key raw_iv data) ++ snd (GCM.encrypt raw_key raw_iv data)) =
  Ok data.
Proof.
  intros Hkl Hil Hd.
  unfold Web.importKey_decrypt. rewrite Hkl, Hil. cbn [Nat.eqb orb andb negb].
  set (c := fst (GCM.encrypt raw_key raw_iv data)).
  set (t := snd (GCM.encrypt raw_key raw_iv data)).
  assert (Ht : List.length t = 16%nat) by apply tag_length.
  rewrite (proj2 (Nat.ltb_ge _ _)) by (rewrite length_app; lia).
  unfold Route.slice_last16, Route.slice_until_last16.
  destruct (slice_tag c t Ht) as (Hs & Hf). rewrite Hs, Hf.
  subst c t. rewrite gcm_decrypt_encrypt by exact Hd. reflexivity.
Qed.

(** X10.  [decryptData] undoes [encryptPitch] up to the byte order mark: for every
    well-formed pitch, of any length, the envelope made with a 32-byte key and a
    12-byte IV decrypts to the pitch without the U+FEFF it may start with. *)
Theorem decryptData_encryptPitch subtle raw_key raw_iv pitch :
  List.length raw_key = 32%nat -> is_bytes raw_key = true ->
  List.length raw_iv = 12%nat -> is_bytes raw_iv = true ->
  well_formed pitch = true ->
  Utils.decryptData subtle
    (Client.encryptedData (Client.encryptPitch raw_key raw_iv pitch))
    (Client.key (Client.encryptPitch raw_key raw_iv pitch))
    (Client.iv (Client.encryptPitch raw_key raw_iv pitch)) =
  Ok (Text.without_bom pitch).
Proof.
  intros Hkl Hkb Hil Hib Hwf.
  unfold Utils.decryptData, Utils.base64ToArrayBuffer, Client.encryptPitch,
    Client.arrayBufferToBase64.
  cbn [Client.encryptedData Client.key Client.iv].
  rewrite !atob_encode by (assumption || apply encrypt_bytes).
  rewrite importKey_decrypt_sealed
    by (assumption || apply utf8_encode_bytes, well_formed_code_units, Hwf).
  rewrite (TextDecoder_encode pitch Hwf). reflexivity.
Qed.

(** The sample pitch behind a byte order mark. *)
Lemma decryptData_encryptPitch_witness :
  Utils.decryptData Trial.subtle
    (Client.encryptedData
       (Client.encryptPitch Sample.raw_key Sample.raw_iv (0xFEFF :: Sample.pitch)))
    (Client.key (Client.encryptPitch Sample.raw_key Sample.raw_iv (0xFEFF :: Sample.pitch)))
    (Client.iv (Client.encryptPitch Sample.raw_key Sample.raw_iv (0xFEFF :: Sample.pitch))) =
  Ok Sample.pitch.
Proof.
  apply (decryptData_encryptPitch Trial.subtle
           Sample.raw_key Sample.raw_iv (0xFEFF :: Sample.pitch)); reflexivity.
Defined.

(** ** The size of an envelope *)

Lemma encode_code_point_length cp :
  (1 <= List.length (UTF8.encode_code_point cp) <= 4)%nat /\
  (cp < 0x10000 -> (List.length (UTF8.encode_code_point cp) <= 3)%nat) /\
  (0x10000 <= cp -> List.length (UTF8.encode_code_point cp) = 4%nat).
Proof.
  unfold UTF8.encode_code_point.
  destruct (Z.ltb_spec cp 0x80); [|destruct (Z.ltb_spec cp 0x800);
                                    [|destruct (Z.ltb_spec cp 0x10000)]];
    cbn [List.length]; lia.
Qed.

(** Between one and three bytes for every code unit. *)
Lemma utf8_encode_length s :
  forallb is_code_unit s = true ->
  (List.length s <= List.length (UTF8.encode s) <= 3 * List.length s)%nat.
Proof.
  induction s as [|c|c d r IHr IHd] using list_ind2; intros Hs.
  - cbn. lia.
  - cbn [forallb] in Hs. rewrite andb_true_iff in Hs. destruct Hs as (Hc & _).
    apply (proj2 (proj2 (surrogate_tests c))) in Hc.
    rewrite encode_cons. cbn [UTF8.encode List.length].
    pose proof (encode_code_point_length c) as Lc.
    pose proof (encode_code_point_length 65533) as Lf.
    destruct (is_high_surrogate c); [|destruct (is_low_surrogate c)];
      rewrite ?length_app; cbn [List.length]; lia.
  - cbn [forallb] in Hs. rewrite !andb_true_iff in Hs. destruct Hs as (Hc & Hd & Hr).
    assert (Hdr : forallb is_code_unit (d :: r) = true)
      by (cbn [forallb]; rewrite Hd, Hr; reflexivity).
    apply (proj2 (proj2 (surrogate_tests c))) in Hc.
    specialize (IHr Hr). specialize (IHd Hdr).
    rewrite encode_cons. cbn [List.length] in *.
    pose proof (encode_code_point_length c) as Lc.
    pose proof (encode_code_point_length 65533) as Lf.
    pose proof (encode_code_point_length (65536 + (c - 55296) * 1024 + (d - 56320))) as Lp.
    destruct (is_high_surrogate c) eqn:Hh;
      [destruct (is_low_surrogate d) eqn:Hl|destruct (is_low_surrogate c)];
      rewrite length_app; try lia.
    apply (proj1 (surrogate_tests c)) in Hh.
    apply (proj1 (proj2 (surrogate_tests d))) in Hl. lia.
Qed.

(** X11.  The three texts of an envelope have the sizes base64 gives them: 44
    characters for a 32-byte key, 16 for a 12-byte IV, and for the ciphertext four
    characters for every three bytes of the encoded pitch and its 16-byte tag, the
    pitch taking between one and three bytes for each of its code units. *)
Theorem envelope_sizes raw_key raw_iv pitch :
  List.length raw_key = 32%nat -> List.length raw_iv = 12%nat ->
  forallb is_code_unit pitch = true ->
  let e := Client.encryptPitch raw_key raw_iv pitch in
  let n := List.length (UTF8.encode pitch) in
  List.length (Client.key e) = 44%nat /\
  List.length (Client.iv e) = 16%nat /\
  List.length (Client.encryptedData e) = (4 * ((n + 18) / 3))%nat /\
  (List.length pitch <= n <= 3 * List.length pitch)%nat.
Proof.
  intros Hk Hi Hp. cbv zeta.
  unfold Client.encryptPitch, Client.arrayBufferToBase64.
  cbn [Client.encryptedData Client.key Client.iv].
  rewrite !base64_encode_length, Hk, Hi, length_app.
  unfold GCM.encrypt. cbn [fst snd]. rewrite GCTR_length, tag_length.
  repeat split; try reflexivity.
  - f_equal. f_equal. lia.
  - apply utf8_encode_length, Hp.
  - apply utf8_encode_length, Hp.
Qed.

(** The sizes of the sample envelope. *)
Lemma envelope_sizes_witness :
  List.length (Client.key Sample.envelope) = 44%nat /\
  List.length (Client.iv Sample.envelope) = 16%nat /\
  List.length (Client.encryptedData Sample.envelope) =
  (4 * ((List.length (UTF8.encode Sample.pitch) + 18) / 3))%nat /\
  (List.length Sample.pitch <= List.length (UTF8.encode Sample.pitch)
   <= 3 * List.length Sample.pitch)%nat.
Proof.
  apply (envelope_sizes Sample.raw_key Sample.raw_iv Sample.pitch); reflexivity.
Defined.

(** ** The hash proof *)

Lemma hash_proof_shape data :
  List.length (Utils.generateSHA256Hash data) = 44%nat.
Proof.
  unfold Utils.generateSHA256Hash, Client.arrayBufferToBase64.
  rewrite base64_encode_length, (proj1 (digest_shape (UTF8.encode data))). reflexivity.
Qed.

(** X12.  [generateSHA256Hash] writes the digest in base64, not in hexadecimal: its
    result has 44 characters, and [base64ToArrayBuffer] reads the 32 bytes of the
    SHA-256 digest of the text back from it. *)
Theorem generateSHA256Hash_base64 data :
  List.length (Utils.generateSHA256Hash data) = 44%nat /\
  Utils.base64ToArrayBuffer (Utils.generateSHA256Hash data) =
  Ok (SHA256.digest (UTF8.encode data)) /\
  List.length (SHA256.digest (UTF8.encode data)) = 32%nat.
Proof.
  split; [apply hash_proof_shape|].
  unfold Utils.generateSHA256Hash, Utils.base64ToArrayBuffer, Client.arrayBufferToBase64.
  destruct (digest_shape (UTF8.encode data)) as (Hl & Hb).
  rewrite (atob_encode _ Hb). split; [reflexivity|exact Hl].
Qed.

(** ** Doubles below a whole number *)

Lemma pow2_pos e : (0 < pow2 e)%Q.
Proof. apply Qpower_0_lt. reflexivity. Qed.

Lemma pow2_le a b : a <= b -> (pow2 a <= pow2 b)%Q.
Proof. intros H. apply Qpower_le_compat_l; [exact H | discriminate]. Qed.

Lemma pow2_plus a b : (pow2 (a + b) == pow2 a * pow2 b)%Q.
Proof. apply Qpower_plus. discriminate. Qed.

Lemma pow2_Z n : 0 <= n -> (pow2 n == inject_Z (2 ^ n))%Q.
Proof. intros H. symmetry. apply (Zpower_Qpower 2 n H). Qed.

(** A positive rational is not below the power of two of its binade. *)
Lemma pow2_binade x : (0 < x)%Q -> (pow2 (binade x) <= x)%Q.
Proof.
  intros Hx. unfold binade.
  set (ln := Z.log2 (Qnum x)). set (ld := Z.log2 (Z.pos (Qden x))).
  destruct (Qle_bool (pow2 (ln - ld)) x) eqn:E; [apply Qle_bool_iff, E|].
  assert (Hn : 0 < Qnum x).
  { unfold Qlt in Hx. cbn in Hx. lia. }
  destruct (Z.log2_spec (Qnum x) Hn) as (Hn1 & _).
  destruct (Z.log2_spec (Z.pos (Qden x)) eq_refl) as (_ & Hd2).
  fold ln in Hn1. fold ld in Hd2.
  assert (Hln : 0 <= ln) by apply Z.log2_nonneg.
  assert (Hld : 0 <= ld) by apply Z.log2_nonneg.
  assert (A : (pow2 ln <= inject_Z (Qnum x))%Q).
  { rewrite (pow2_Z ln Hln). rewrite <- Zle_Qle. exact Hn1. }
  assert (B : (inject_Z (Z.pos (Qden x)) <= pow2 (ld + 1))%Q).
  { rewrite (pow2_Z (ld + 1)) by lia. rewrite <- Zle_Qle.
    replace (ld + 1) with (Z.succ ld) by lia. lia. }
  assert (C : (x * inject_Z (Z.pos (Qden x)) == inject_Z (Qnum x))%Q).
  { destruct x as [n d]. unfold Qeq, Qmult, inject_Z. cbn. lia. }
  assert (D : (pow2 ln == pow2 (ln - ld - 1) * pow2 (ld + 1))%Q).
  { rewrite <- pow2_plus. replace (ln - ld - 1 + (ld + 1)) with ln by lia. reflexivity. }
  pose proof (pow2_pos (ld + 1)) as Hp.
  apply Qmult_le_r with (z := pow2 (ld + 1)); [exact Hp|].
  rewrite <- D.
  apply Qle_trans with (inject_Z (Qnum x)); [exact A|].
  rewrite <- C. apply Qmult_le_l; [exact Hx | exact B].
Qed.

Lemma round_half_even_nonneg y : (0 <= y)%Q -> 0 <= round_half_even y.
Proof.
  intros Hy. unfold round_half_even.
  assert (Hf : 0 <= Qfloor y) by (change 0 with (Qfloor 0); apply Qfloor_resp_le, Hy).
  destruct (_ ?= _)%Q; [destruct (Z.even _)| |]; lia.
Qed.

Lemma round_half_even_below y N :
  (y < inject_Z N - (1 # 2))%Q -> round_half_even y <= N - 1.
Proof.
  intros Hy. unfold round_half_even.
  pose proof (Qfloor_le y) as Hf.
  set (f := Qfloor y) in *.
  assert (HfN : f < N).
  { rewrite Zlt_Qlt. lra. }
  destruct (y - inject_Z f ?= 1 # 2)%Q eqn:C.
  - apply Qeq_alt in C.
    assert (f + 1 < N); [|destruct (Z.even f); lia].
    rewrite Zlt_Qlt, inject_Z_plus. change (inject_Z 1) with 1%Q. lra.
  - lia.
  - apply Qgt_alt in C.
    assert (f + 1 < N); [|lia].
    rewrite Zlt_Qlt, inject_Z_plus. change (inject_Z 1) with 1%Q. lra.
Qed.

(** The unit in the last place of a number below [n] is below [n / 2 ^ 52]. *)
Lemma ulp_below x n :
  (0 <= x)%Q -> (x < inject_Z n)%Q -> 1 <= n ->
  (ulp x < inject_Z n * pow2 (-52))%Q.
Proof.
  intros H0 Hx Hn. unfold ulp.
  assert (Hn1 : (1 <= inject_Z n)%Q) by (change 1%Q with (inject_Z 1); rewrite <- Zle_Qle; exact Hn).
  assert (Hsub : (pow2 (-1074) < inject_Z n * pow2 (-52))%Q).
  { apply Qlt_le_trans with (1 * pow2 (-52))%Q.
    - rewrite Qmult_1_l. apply Qpower_lt_compat_l; [lia | reflexivity].
    - apply Qmult_le_compat_r; [exact Hn1 | apply Qlt_le_weak, pow2_pos]. }
  assert (Hnorm : (pow2 (binade x - 52) < inject_Z n * pow2 (-52))%Q).
  { destruct (Qlt_le_dec 0 x) as [Hpos|Hzero].
    - replace (binade x - 52) with (binade x + -52) by lia. rewrite pow2_plus.
      apply Qmult_lt_compat_r; [apply pow2_pos|].
      apply Qle_lt_trans with x; [apply pow2_binade, Hpos | exact Hx].
    - assert (Hnum : Qnum x = 0).
      { unfold Qle in H0, Hzero. cbn in H0, Hzero. lia. }
      assert (Hb : binade x <= -1).
      { unfold binade. rewrite Hnum. change (Z.log2 0) with 0.
        pose proof (Z.log2_nonneg (Z.pos (Qden x))) as Hl.
        destruct (Qle_bool _ x) eqn:E; [|lia].
        apply Qle_bool_iff in E. exfalso.
        pose proof (pow2_pos (0 - Z.log2 (Z.pos (Qden x)))). lra. }
      apply Qle_lt_trans with (pow2 (-53)); [apply pow2_le; lia|].
      apply Qlt_le_trans with (1 * pow2 (-52))%Q.
      + rewrite Qmult_1_l. apply Qpower_lt_compat_l; [lia | reflexivity].
      + apply Qmult_le_compat_r; [exact Hn1 | apply Qlt_le_weak, pow2_pos]. }
  destruct (Z.max_spec (binade x - 52) (-1074)) as [(_ & ->)|(_ & ->)]; assumption.
Qed.

(** The product of a number of [unit_range] and a whole number [n] below [2 ^ 52]
    rounds to a double below [n]: its floor is at most [n - 1]. *)
Lemma floor_fl_product r n :
  unit_range r -> 1 <= n < 2 ^ 52 ->
  0 <= Math_floor (fl (r * inject_Z n)) <= n - 1.
Proof.
  intros (Hr0 & Hr1) (Hn & Hn52). unfold Math_floor, fl.
  set (x := (r * inject_Z n)%Q).
  assert (Hn1 : (1 <= inject_Z n)%Q) by (change 1%Q with (inject_Z 1); rewrite <- Zle_Qle; exact Hn).
  assert (Hx0 : (0 <= x)%Q) by (apply Qmult_le_0_compat; lra).
  assert (Hx1 : (x <= inject_Z n - inject_Z n * (1 # 9007199254740992))%Q).
  { unfold x. setoid_replace (inject_Z n - inject_Z n * (1 # 9007199254740992))%Q
      with ((1 - (1 # 9007199254740992)) * inject_Z n)%Q by ring.
    apply Qmult_le_compat_r; lra. }
  assert (Hxn : (x < inject_Z n)%Q).
  { apply Qle_lt_trans with (1 := Hx1).
    assert (0 < inject_Z n * (1 # 9007199254740992))%Q by (apply Qmult_lt_0_compat; lra). lra. }
  pose proof (ulp_below x n Hx0 Hxn Hn) as Hu.
  change (pow2 (-52)) with (1 # 4503599627370496)%Q in Hu.
  set (k := Z.max (binade x - 52) (-1074)).
  assert (Hk : k < 0).
  { apply (Qpower_lt_compat_l_inv 2); [|reflexivity].
    change (ulp x < pow2 0)%Q. apply Qlt_le_trans with (1 := Hu).
    change (pow2 0) with 1%Q.
    assert (inject_Z n <= inject_Z (2 ^ 52))%Q by (rewrite <- Zle_Qle; lia).
    change (inject_Z (2 ^ 52)) with (4503599627370496 # 1)%Q in H. lra. }
  pose proof (pow2_pos k) as Hup. fold (ulp x) in Hup. change (pow2 k) with (ulp x) in Hup.
  set (u := ulp x) in *.
  set (N := n * 2 ^ (- k)).
  assert (HN : (inject_Z N * u == inject_Z n)%Q).
  { unfold N. rewrite inject_Z_mult, <- (pow2_Z (- k)) by lia.
    unfold u, ulp. fold k. rewrite <- Qmult_assoc, <- pow2_plus.
    replace (- k + k) with 0 by lia. change (pow2 0) with 1%Q. ring. }
  assert (Hq : (x / u < inject_Z N - (1 # 2))%Q).
  { apply Qlt_shift_div_r; [exact Hup|].
    setoid_replace ((inject_Z N - (1 # 2)) * u)%Q with (inject_Z N * u - (1 # 2) * u)%Q by ring.
    rewrite HN. lra. }
  pose proof (round_half_even_below (x / u) N Hq) as Hhi.
  assert (Hq0 : (0 <= x / u)%Q).
  { apply Qle_shift_div_l; [exact Hup|]. lra. }
  pose proof (round_half_even_nonneg (x / u) Hq0) as Hlo.
  set (m := round_half_even (x / u)) in *.
  assert (Hfl0 : (0 <= inject_Z m * u)%Q).
  { apply Qmult_le_0_compat; [|lra]. change 0%Q with (inject_Z 0). rewrite <- Zle_Qle. exact Hlo. }
  assert (Hfl1 : (inject_Z m * u < inject_Z n)%Q).
  { rewrite <- HN. apply Qmult_lt_compat_r; [exact Hup|]. rewrite <- Zlt_Qlt. lia. }
  split.
  - change 0 with (Qfloor 0). apply Qfloor_resp_le, Hfl0.
  - assert (Qfloor (inject_Z m * u) < n); [|lia].
    rewrite Zlt_Qlt. apply Qle_lt_trans with (2 := Hfl1). apply Qfloor_le.
Qed.

(** The rounding against doubles computed elsewhere: a tenth, a third, the product
    that rounds up to a whole number, and the tie at half the least subnormal. *)
Example fl_tenth : Qeq_bool (fl (1 # 10)) (3602879701896397 # 36028797018963968) = true.
Proof. vm_compute. reflexivity. Qed.

Example fl_third : Qeq_bool (fl (1 # 3)) (6004799503160661 # 18014398509481984) = true.
Proof. vm_compute. reflexivity. Qed.

Example fl_rounds_up :
  Math_floor (fl ((6004799503160661 # 9007199254740992) * 3)) = 2 /\
  Math_floor (fl ((2552039788843281 # 4503599627370496) * 30)) = 17.
Proof. split; vm_compute; reflexivity. Qed.

Example fl_subnormal_tie : Qeq_bool (fl (pow2 (-1075))) 0 = true.
Proof. vm_compute. reflexivity. Qed.

(** ** The simulated submission *)

Lemma draw_range r base :
  unit_range r -> base <= Utils.draw r base <= base + 2.
Proof.
  intros Hr. unfold Utils.draw.
  pose proof (floor_fl_product r 3 Hr ltac:(lia)) as H.
  change (inject_Z 3) with 3%Q in H. lia.
Qed.

(** X13.  Whatever pitch was submitted, and whatever doubles of the unit interval
    [Math.random] draws, the products being rounded as doubles before they are
    floored, [submitPitch] answers with eight scores, each a whole number within two
    of its base, the bases being 7, 6, 7, 6, 5, 7, 6 and 8 so that none is below 5 or
    above 10, an overall score that is a whole number of tenths between 6.5 and 8.5,
    and a hash proof of 44 characters. *)
Theorem submitPitch_ranges random now encryptedPitch :
  (forall n, (n < 8)%nat -> unit_range (random n)) ->
  let r := Utils.submitPitch random now encryptedPitch in
  Forall2 (fun score base => base <= Utils.value score <= base + 2)
    (Utils.scores r) [7; 6; 7; 6; 5; 7; 6; 8] /\
  (exists n, 65 <= n <= 85 /\ Utils.overallScore r = (inject_Z n / 10)%Q) /\
  List.length (Utils.hashProof r) = 44%nat.
Proof.
  intros Hr. cbv zeta. unfold Utils.submitPitch.
  cbn [Utils.scores Utils.overallScore Utils.hashProof].
  assert (H0 := draw_range (random 0%nat) 7 (Hr 0%nat ltac:(lia))).
  assert (H1 := draw_range (random 1%nat) 6 (Hr 1%nat ltac:(lia))).
  assert (H2 := draw_range (random 2%nat) 7 (Hr 2%nat ltac:(lia))).
  assert (H3 := draw_range (random 3%nat) 6 (Hr 3%nat ltac:(lia))).
  assert (H4 := draw_range (random 4%nat) 5 (Hr 4%nat ltac:(lia))).
  assert (H5 := draw_range (random 5%nat) 7 (Hr 5%nat ltac:(lia))).
  assert (H6 := draw_range (random 6%nat) 6 (Hr 6%nat ltac:(lia))).
  assert (H7 := draw_range (random 7%nat) 8 (Hr 7%nat ltac:(lia))).
  split; [|split].
  - repeat (constructor; [cbn [Utils.value]; assumption|]). constructor.
  - unfold Utils.sum_values, Math_round. cbn [fold_left Utils.value List.length].
    set (total := 0 + _ + _ + _ + _ + _ + _ + _ + _).
    assert (Ht : 52 <= total <= 68) by (subst total; lia).
    clearbody total.
    eexists. split; [|reflexivity].
    destruct Ht as (Hlo & Hhi). rewrite Zle_Qle in Hlo, Hhi.
    change (Z.of_nat 8) with 8.
    set (q := inject_Z total) in *. clearbody q. unfold inject_Z in Hlo, Hhi.
    split.
    + rewrite <- (Qfloor_half 65). apply Qfloor_resp_le.
      unfold inject_Z, Qdiv. change (/ (8 # 1))%Q with (1 # 8)%Q. lra.
    + rewrite <- (Qfloor_half 85). apply Qfloor_resp_le.
      unfold inject_Z, Qdiv. change (/ (8 # 1))%Q with (1 # 8)%Q. lra.
  - apply hash_proof_shape.
Qed.

(** Eight draws spread over the unit interval, for the sample envelope. *)
Lemma submitPitch_ranges_witness :
  Forall2 (fun score base => base <= Utils.value score <= base + 2)
    (Utils.scores (Utils.submitPitch Trial.eighths Trial.now Sample.envelope))
    [7; 6; 7; 6; 5; 7; 6; 8] /\
  (exists n, 65 <= n <= 85 /\
             Utils.overallScore (Utils.submitPitch Trial.eighths Trial.now Sample.envelope) =
             (inject_Z n / 10)%Q) /\
  List.length (Utils.hashProof (Utils.submitPitch Trial.eighths Trial.now Sample.envelope)) =
  44%nat.
Proof.
  apply (submitPitch_ranges Trial.eighths Trial.now Sample.envelope).
  intros n Hn.
  do 8 (destruct n as [|n]; [split; vm_compute; discriminate|]).
  lia.
Defined.

(** ** The browser and the server read base64 alike *)

(** A symbol of the standard alphabet has the same value for the server, and is not
    the padding character. *)
Lemma standard_unbase64 c v :
  Web.standard_value c = Some v ->
  Base64.unbase64 c = Some v /\ (c =? Base64.pad) = false /\ c mod 256 = c.
Proof.
  unfold Web.standard_value, Base64.unbase64, Base64.pad.
  destruct ((65 <=? c) && (c <=? 90)) eqn:E1.
  { intros H. split; [exact H|]. apply andb_true_iff in E1.
    split; [apply Z.eqb_neq | apply Z.mod_small]; lia. }
  destruct ((97 <=? c) && (c <=? 122)) eqn:E2.
  { intros H. split; [exact H|]. apply andb_true_iff in E2.
    split; [apply Z.eqb_neq | apply Z.mod_small]; lia. }
  destruct ((48 <=? c) && (c <=? 57)) eqn:E3.
  { intros H. split; [exact H|]. apply andb_true_iff in E3.
    split; [apply Z.eqb_neq | apply Z.mod_small]; lia. }
  destruct (Z.eqb_spec c 43) as [->|H43]; [intros H; repeat split; exact H|].
  destruct (Z.eqb_spec c 47) as [->|H47]; [intros H; repeat split; exact H|].
  discriminate.
Qed.

(** The server reads the values of a text of standard symbols, and stops at the
    padding that may follow it. *)
Lemma sextets_values s l p :
  Web.values s = Some l -> (p = [] \/ exists p', p = Base64.pad :: p') ->
  Base64.sextets (s ++ p) = l.
Proof.
  revert l. induction s as [|c s IH]; intros l Hv Hp; cbn [Web.values] in Hv.
  - injection Hv as <-. destruct Hp as [->|(p' & ->)]; reflexivity.
  - destruct (Web.standard_value c) as [v|] eqn:Hc; [|discriminate].
    destruct (Web.values s) as [l'|]; [|discriminate].
    injection Hv as <-.
    destruct (standard_unbase64 c v Hc) as (Hu & Hn & Hm).
    cbn [app Base64.sextets]. cbv zeta. rewrite Hm, Hn, Hu, (IH l' eq_refl Hp).
    reflexivity.
Qed.

(** What [strip_padding] removes is padding. *)
Lemma strip_padding_split s :
  exists p, s = Web.strip_padding s ++ p /\ (p = [] \/ exists p', p = Base64.pad :: p').
Proof.
  unfold Web.strip_padding.
  destruct (rev s) as [|a r] eqn:E.
  { exists []. rewrite app_nil_r. split; [reflexivity | left; reflexivity]. }
  apply (f_equal (@rev Z)) in E. rewrite rev_involutive in E. cbn [rev] in E.
  destruct (Z.eqb_spec a 61) as [->|Ha].
  - destruct r as [|b r'].
    + exists [61]. split; [exact E | right; eexists; reflexivity].
    + destruct (Z.eqb_spec b 61) as [->|Hb].
      * exists [61; 61]. cbn [rev] in E. rewrite <- app_assoc in E.
        split; [exact E | right; eexists; reflexivity].
      * exists [61]. split; [exact E | right; eexists; reflexivity].
  - exists []. rewrite app_nil_r. split; [reflexivity | left; reflexivity].
Qed.

Lemma atob_decode s b : Web.atob s = Ok b -> Base64.decode s = b.
Proof.
  unfold Web.atob, Base64.decode. rewrite <- (sextets_without_spaces s).
  set (d := Text.without_spaces s).
  destruct (List.length d mod 4 =? 0)%nat.
  - destruct (List.length (Web.strip_padding d) mod 4 =? 1)%nat; [discriminate|].
    destruct (Web.values (Web.strip_padding d)) as [l|] eqn:Hv; [|discriminate].
    intros H. injection H as <-.
    destruct (strip_padding_split d) as (p & Hd & Hp).
    rewrite Hd at 1. rewrite (sextets_values _ l p Hv Hp). reflexivity.
  - destruct (List.length d mod 4 =? 1)%nat; [discriminate|].
    destruct (Web.values d) as [l|] eqn:Hv; [|discriminate].
    intros H. injection H as <-.
    rewrite <- (app_nil_r d) at 1.
    rewrite (sextets_values d l [] Hv (or_introl eq_refl)). reflexivity.
Qed.

(** X14.  Whatever text [base64ToArrayBuffer] accepts in the browser, [Buffer.from]
    reads as the same bytes on the server. *)
Theorem Buffer_from_agrees_with_base64ToArrayBuffer host base64 buffer :
  Utils.base64ToArrayBuffer base64 = Ok buffer ->
  Route.Buffer_from host (JStr base64) = Ok buffer.
Proof.
  intros H. cbn [Route.Buffer_from]. f_equal. apply atob_decode, H.
Qed.

(** A padded text broken over two lines. *)
Lemma Buffer_from_agrees_with_base64ToArrayBuffer_witness :
  Route.Buffer_from Sample.host (JStr (js "aGVs" ++ [13; 10] ++ js "bG8=")) =
  Ok (js "hello").
Proof.
  apply (Buffer_from_agrees_with_base64ToArrayBuffer Sample.host
           (js "aGVs" ++ [13; 10] ++ js "bG8=") (js "hello")).
  reflexivity.
Defined.

(** ** The first handler *)

Lemma pick_range r span base :
  unit_range r -> 1 <= span < 2 ^ 52 ->
  base <= Legacy.pick r span base <= base + span - 1.
Proof.
  intros Hr Hs. unfold Legacy.pick.
  pose proof (floor_fl_product r span Hr Hs). lia.
Qed.

(** X15.  Whatever doubles of the unit interval [Math.random] draws, the products
    being rounded as doubles before they are floored, the mock analysis gives four
    whole numbers, and never the upper bound its comments name: clarity from 70 to
    99, originality from 65 to 94, team strength from 60 to 84 and market fit from 65
    to 99. *)
Theorem mockAnalysis_ranges env :
  (forall n, (n < 4)%nat -> unit_range (Legacy.Math_random env n)) ->
  exists a b c d,
    Legacy.mockAnalysis env =
    [(js "clarity", JNum (inject_Z a)); (js "originality", JNum (inject_Z b));
     (js "team_strength", JNum (inject_Z c)); (js "market_fit", JNum (inject_Z d))] /\
    70 <= a <= 99 /\ 65 <= b <= 94 /\ 60 <= c <= 84 /\ 65 <= d <= 99.
Proof.
  intros Hr. unfold Legacy.mockAnalysis.
  do 4 eexists. split; [reflexivity|].
  assert (H0 := pick_range (Legacy.Math_random env 0%nat) 30 70
                  (Hr 0%nat ltac:(lia)) ltac:(lia)).
  assert (H1 := pick_range (Legacy.Math_random env 1%nat) 30 65
                  (Hr 1%nat ltac:(lia)) ltac:(lia)).
  assert (H2 := pick_range (Legacy.Math_random env 2%nat) 25 60
                  (Hr 2%nat ltac:(lia)) ltac:(lia)).
  assert (H3 := pick_range (Legacy.Math_random env 3%nat) 35 65
                  (Hr 3%nat ltac:(lia)) ltac:(lia)).
  lia.
Qed.

Lemma mockAnalysis_ranges_witness :
  exists a b c d,
    Legacy.mockAnalysis Trial.env =
    [(js "clarity", JNum (inject_Z a)); (js "originality", JNum (inject_Z b));
     (js "team_strength", JNum (inject_Z c)); (js "market_fit", JNum (inject_Z d))] /\
    70 <= a <= 99 /\ 65 <= b <= 94 /\ 60 <= c <= 84 /\ 65 <= d <= 99.
Proof.
  apply (mockAnalysis_ranges Trial.env).
  intros n Hn.
  do 4 (destruct n as [|n]; [split; vm_compute; discriminate|]).
  lia.
Defined.

Lemma legacy_decrypt_sealed subtle raw_key raw_iv pitch :
  List.length raw_key = 32%nat -> is_bytes raw_key = true ->
  List.length raw_iv = 12%nat -> is_bytes raw_iv = true ->
  well_formed pitch = true ->
  Legacy.decryptPitchData subtle
    (Client.encryptedData (Client.encryptPitch raw_key raw_iv pitch))
    (Client.key (Client.encryptPitch raw_key raw_iv pitch))
    (Client.iv (Client.encryptPitch raw_key raw_iv pitch)) =
  Ok (Text.without_bom pitch).
Proof.
  intros Hkl Hkb Hil Hib Hwf.
  unfold Legacy.decryptPitchData, Client.encryptPitch, Client.arrayBufferToBase64.
  cbn [Client.encryptedData Client.key Client.iv].
  rewrite !atob_encode by (assumption || apply encrypt_bytes).
  rewrite importKey_decrypt_sealed
    by (assumption || apply utf8_encode_bytes, well_formed_code_units, Hwf).
  rewrite (TextDecoder_encode pitch Hwf). reflexivity.
Qed.

Lemma encode_nonempty b : b <> [] -> Base64.encode b <> [].
Proof.
  intros Hb He. apply (f_equal (@List.length Z)) in He.
  rewrite base64_encode_length in He. cbn [List.length] in He.
  destruct b as [|x b]; [congruence|]. cbn [List.length] in He.
  assert (1 <= (S (List.length b) + 2) / 3)%nat
    by (apply Nat.div_le_lower_bound; lia).
  lia.
Qed.

Lemma is_empty_false (s : js_string) : s <> [] -> Route.is_empty s = false.
Proof. destruct s; [congruence | reflexivity]. Qed.

(** The envelope of [encryptPitch] passes the test for missing parameters. *)
Lemma envelope_present raw_key raw_iv pitch :
  List.length raw_key = 32%nat -> List.length raw_iv = 12%nat ->
  let e := Client.encryptPitch raw_key raw_iv pitch in
  Route.is_empty (Client.encryptedData e) = false /\
  Route.is_empty (Client.key e) = false /\
  Route.is_empty (Client.iv e) = false.
Proof.
  intros Hk Hi. cbv zeta. unfold Client.encryptPitch, Client.arrayBufferToBase64.
  cbn [Client.encryptedData Client.key Client.iv].
  repeat split; apply is_empty_false, encode_nonempty; intros He;
    apply (f_equal (@List.length Z)) in He; cbn [List.length] in He.
  - unfold GCM.encrypt in He. cbn [fst snd] in He.
    rewrite length_app, tag_length in He. lia.
  - lia.
  - lia.
Qed.



Lemma str_eqb_eq a b : str_eqb a b = true <-> a = b.
Proof. unfold str_eqb. destruct (list_eq_dec Z.eq_dec a b); split; congruence. Qed.

Lemma lookup_with_member k v ms :
  lookup k (Legacy.with_member k v ms) = Some v.
Proof.
  induction ms as [|(k', v') r IH]; cbn [Legacy.with_member lookup].
  - rewrite (proj2 (str_eqb_eq k k) eq_refl). reflexivity.
  - destruct (str_eqb k k') eqn:E; cbn [lookup]; rewrite E; [reflexivity | exact IH].
Qed.

Lemma lookup_with_member_other k k' v ms :
  k' <> k -> lookup k' (Legacy.with_member k v ms) = lookup k' ms.
Proof.
  intros Hk. induction ms as [|(k0, v0) r IH]; cbn [Legacy.with_member lookup].
  - destruct (str_eqb k' k) eqn:E; [apply str_eqb_eq in E; contradiction | reflexivity].
  - destruct (str_eqb k k0) eqn:E; cbn [lookup].
    + apply str_eqb_eq in E. subst k0.
      destruct (str_eqb k' k) eqn:E'; [apply str_eqb_eq in E'; contradiction | reflexivity].
    + rewrite IH. reflexivity.
Qed.

Lemma upstream_numbers host env pitchText model scores :
  Legacy.upstream host env pitchText model = Some scores ->
  forallb (fun k => Legacy.is_number (lookup k scores)) Route.requiredKeys = true.
Proof.
  unfold Legacy.upstream.
  destruct (Legacy.fetch env _ pitchText) as [|ok st data]; try discriminate.
  destruct ok; cbn [negb]; try discriminate.
  destruct data as [d|]; try discriminate.
  destruct (Legacy.content_of d) as [[[| | | |content| |]|]|]; try discriminate.
  destruct (Route.is_empty content); try discriminate.
  destruct (JSON_parse host (trim content)) as [[| | | | | |ms]|]; try discriminate.
  destruct (forallb _ Route.requiredKeys) eqn:E; try discriminate.
  intros H. injection H as <-. exact E.
Qed.

(** Mock or not, the analysis has the four scores, and they are numbers. *)
Lemma analysis_numbers host env pitchText model :
  forallb (fun k => Legacy.is_number (lookup k (Legacy.analyzeWithOpenRouter host env pitchText model)))
    Route.requiredKeys = true.
Proof.
  unfold Legacy.analyzeWithOpenRouter.
  destruct (Legacy.env_OPENROUTER_API_KEY env) as [k|]; [|reflexivity].
  destruct (Route.is_empty k); [reflexivity|].
  destruct (Legacy.upstream host env pitchText model) as [scores|] eqn:E; [|reflexivity].
  apply (upstream_numbers _ _ _ _ _ E).
Qed.

Lemma legacy_receipt_shape c m t s :
  List.length (Legacy.generateReceipt c m t s) = 64%nat /\
  forallb is_lower_hex (Legacy.generateReceipt c m t s) = true.
Proof.
  unfold Legacy.generateReceipt. cbv zeta.
  set (d := UTF8.encode _).
  destruct (digest_shape d) as (Hl & Hb).
  destruct (to_hex_shape _ Hb) as (Hl' & Hh).
  rewrite Hl', Hl. split; [reflexivity | exact Hh].
Qed.

Lemma lookup_wire k ms :
  lookup k (map (fun m : js_string * json => let '(k', x) := m in (k', wire x)) ms) =
  option_map wire (lookup k ms).
Proof.
  induction ms as [|(k', x) r IH]; [reflexivity|].
  cbn [map lookup]. destruct (str_eqb k k'); [reflexivity | exact IH].
Qed.

(** What the client reads where the handler put a number. *)
Lemma wire_number v :
  Legacy.is_number v = true ->
  option_map wire v = Some JNull \/ exists q, option_map wire v = Some (JNum q).
Proof.
  destruct v as [[| |q|n| | |]|]; try discriminate; intros _.
  - right. exists q. reflexivity.
  - left. reflexivity.
Qed.

(** The three ways in which the first handler answers. *)
Lemma legacy_POST_shape host env request :
  let r := Legacy.POST host env request in
  (Route.status r = 500 /\
   Route.body r = JObj [(js "error", JStr (js "Internal server error during analysis"))] /\
   (request = Legacy.BodyMalformed \/ request = Legacy.BodyNull)) \/
  (Route.status r = 400 /\
   exists message,
     In message [js "Missing required encryption parameters";
                 js "Failed to decrypt pitch data";
                 js "Pitch content too short or invalid"] /\
     Route.body r = JObj [(js "error", JStr message)]) \/
  (Route.status r = 200 /\
   exists members receipt,
     Route.body r = JObj members /\
     lookup (js "receipt") members = Some (JStr receipt) /\
     List.length receipt = 64%nat /\
     forallb is_lower_hex receipt = true /\
     forall k, In k Route.requiredKeys ->
               lookup k members = Some JNull \/ exists q, lookup k members = Some (JNum q)).
Proof.
  cbv zeta. unfold Legacy.POST.
  destruct request as [| | |body].
  - left. repeat split. left. reflexivity.
  - left. repeat split. right. reflexivity.
  - right. left. split; [reflexivity|]. eexists. split; [left; reflexivity | reflexivity].
  - right.
    destruct (Legacy.absent (Legacy.encrypted_pitch body) ||
              Legacy.absent (Legacy.encryption_key body) ||
              Legacy.absent (Legacy.encryption_iv body)).
    { left. split; [reflexivity|]. eexists. split; [left; reflexivity | reflexivity]. }
    destruct (Legacy.decryptPitchData _ _ _ _) as [pitchText|e].
    2:{ left. split; [reflexivity|]. eexists.
        split; [right; left; reflexivity | reflexivity]. }
    destruct (str_length pitchText <? 50).
    { left. split; [reflexivity|]. eexists.
      split; [right; right; left; reflexivity | reflexivity]. }
    right. cbn [Route.status Route.body wire]. split; [reflexivity|].
    eexists. eexists. split; [reflexivity|].
    split; [rewrite lookup_wire, lookup_with_member; reflexivity|].
    split; [apply legacy_receipt_shape|].
    split; [apply legacy_receipt_shape|].
    set (scores := Legacy.analyzeWithOpenRouter _ _ _ _).
    assert (Hn := analysis_numbers host env (Legacy.sanitize pitchText)
                    (if Legacy.absent (Legacy.model body) then Legacy.DEFAULT_MODEL
                     else Legacy.text_of (Legacy.model body))).
    fold scores in Hn. rewrite forallb_forall in Hn.
    intros k Hk. specialize (Hn k Hk).
    rewrite lookup_wire.
    rewrite lookup_with_member_other.
    + apply wire_number, Hn.
    + intros E. subst k. cbn [Route.requiredKeys In] in Hk.
      repeat (destruct Hk as [Hk|Hk]; [discriminate Hk|]). exact Hk.
Qed.

(** X17.  Every request to the first handler whose members, where present, are
    strings is answered in one of three ways: with status 500 and "Internal server
    error during analysis", which a body gets exactly when it is not JSON or is
    [null]; with status 400 and one of three messages; or with status 200 and an
    object that has a receipt of 64 lowercase hexadecimal digits and the four scores,
    each a number, or [null] where the scorer gave a number beyond the range of the
    doubles. *)
Theorem legacy_POST_cases host env request :
  let r := Legacy.POST host env request in
  (Route.status r = 500 <->
   request = Legacy.BodyMalformed \/ request = Legacy.BodyNull) /\
  ((Route.status r = 500 /\
    Route.body r = JObj [(js "error", JStr (js "Internal server error during analysis"))]) \/
   (Route.status r = 400 /\
    exists message,
      In message [js "Missing required encryption parameters";
                  js "Failed to decrypt pitch data";
                  js "Pitch content too short or invalid"] /\
      Route.body r = JObj [(js "error", JStr message)]) \/
   (Route.status r = 200 /\
    exists members receipt,
      Route.body r = JObj members /\
      lookup (js "receipt") members = Some (JStr receipt) /\
      List.length receipt = 64%nat /\
      forallb is_lower_hex receipt = true /\
      forall k, In k Route.requiredKeys ->
                lookup k members = Some JNull \/ exists q, lookup k members = Some (JNum q))).
Proof.
  cbv zeta.
  destruct (legacy_POST_shape host env request) as [(H5 & Hb & Hr) | [(H4 & Hm) | (H2 & Hm)]].
  - split; [tauto|]. left. split; assumption.
  - split; [|right; left; split; assumption].
    split.
    + intros H. rewrite H in H4. discriminate.
    + intros [-> | ->]; reflexivity.
  - split; [|right; right; split; assumption].
    split.
    + intros H. rewrite H in H2. discriminate.
    + intros [-> | ->]; reflexivity.
Qed.

(** X18.  The first handler takes the scores of an upstream reply without looking at
    their size: the reply is used exactly when the request succeeded, its content is
    a string that is not empty and parses, once trimmed, to an object whose four
    scores are numbers, whatever numbers they are, those beyond the range of the
    doubles included, and whatever else the object holds. *)
Theorem legacy_reply_accepted_iff host env pitchText model scores :
  Legacy.upstream host env pitchText model = Some scores <->
  exists status data content,
    Legacy.fetch env (js "openrouter/" ++ model) pitchText =
    Route.FetchResolved true status (Some data) /\
    Legacy.content_of data = Ok (Some (JStr content)) /\
    content <> [] /\
    JSON_parse host (trim content) = Some (JObj scores) /\
    forall k, In k Route.requiredKeys ->
              (exists q, lookup k scores = Some (JNum q)) \/
              (exists negative, lookup k scores = Some (JInf negative)).
Proof.
  unfold Legacy.upstream. split.
  - destruct (Legacy.fetch env _ pitchText) as [|ok st data]; try discriminate.
    destruct ok; cbn [negb]; try discriminate.
    destruct data as [d|]; try discriminate.
    destruct (Legacy.content_of d) as [[[| | | |content| |]|]|] eqn:Hc; try discriminate.
    destruct content as [|c content]; cbn [Route.is_empty]; try discriminate.
    destruct (JSON_parse host (trim (c :: content))) as [[| | | | | |ms]|] eqn:Hp;
      try discriminate.
    destruct (forallb _ Route.requiredKeys) eqn:E; try discriminate.
    intros H. injection H as <-.
    exists st, d, (c :: content).
    split; [reflexivity|]. split; [exact Hc|]. split; [discriminate|].
    split; [exact Hp|].
    intros k Hk. rewrite forallb_forall in E. specialize (E k Hk).
    destruct (lookup k ms) as [[| |q|n| | |]|]; try discriminate.
    + left. exists q. reflexivity.
    + right. exists n. reflexivity.
  - intros (st & d & content & Hf & Hc & Hne & Hp & Hk).
    rewrite Hf. cbn [negb]. rewrite Hc.
    rewrite (is_empty_false content Hne), Hp.
    assert (E : forallb (fun k => Legacy.is_number (lookup k scores)) Route.requiredKeys = true).
    { apply forallb_forall. intros k Hin.
      destruct (Hk k Hin) as [(q & ->) | (n & ->)]; reflexivity. }
    rewrite E. reflexivity.
Qed.

Lemma firstn_fixed {A} n (l : list A) : firstn n l = l <-> (List.length l <= n)%nat.
Proof.
  split.
  - intros H. rewrite <- H. rewrite length_firstn. lia.
  - apply firstn_all2.
Qed.

Lemma in_firstn {A} n (l : list A) x : In x (firstn n l) -> In x l.
Proof.
  intros H. rewrite <- (firstn_skipn n l). apply in_or_app. left. exact H.
Qed.

Lemma filter_shorter {A} (f : A -> bool) (l : list A) :
  List.length (filter f l) = List.length l -> filter f l = l.
Proof.
  induction l as [|x l IH]; [reflexivity|]. cbn [filter].
  pose proof (filter_length_le f l) as Hle.
  destruct (f x); cbn [List.length]; intros H.
  - f_equal. apply IH. lia.
  - lia.
Qed.

(** X19.  What the first handler sends to the scorer holds no angle bracket and at
    most 10000 code units, every one of them from the pitch; and a pitch is sent as
    it is exactly when it has no angle bracket and at most 10000 code units. *)
Theorem legacy_sanitize_spec pitchText :
  str_length (Legacy.sanitize pitchText) <= 10000 /\
  (forall c, In c (Legacy.sanitize pitchText) -> In c pitchText /\ c <> 60 /\ c <> 62) /\
  (Legacy.sanitize pitchText = pitchText <->
   (forall c, In c pitchText -> c <> 60 /\ c <> 62) /\ str_length pitchText <= 10000).
Proof.
  unfold Legacy.sanitize, substring0, str_length.
  set (keep := fun c : Z => negb ((c =? 60) || (c =? 62))).
  assert (Hkeep : forall c, keep c = true <-> c <> 60 /\ c <> 62).
  { intros c. unfold keep. rewrite negb_true_iff, orb_false_iff, !Z.eqb_neq. tauto. }
  split; [|split].
  - rewrite length_firstn. lia.
  - intros c Hc. apply in_firstn in Hc.
    apply filter_In in Hc. rewrite Hkeep in Hc. exact Hc.
  - split.
    + intros H.
      assert (Hl : (List.length pitchText <= List.length (filter keep pitchText))%nat).
      { rewrite <- H at 1. rewrite length_firstn. lia. }
      pose proof (filter_length_le keep pitchText) as Hle.
      assert (Hf : filter keep pitchText = pitchText) by (apply filter_shorter; lia).
      rewrite Hf in H. apply firstn_fixed in H. split; [|lia].
      intros c Hc. apply Hkeep. rewrite <- Hf in Hc. apply filter_In in Hc. apply Hc.
    + intros (Hall & Hlen).
      assert (Hf : filter keep pitchText = pitchText).
      { apply filter_shorter. clear Hlen.
        induction pitchText as [|x l IH]; [reflexivity|]. cbn [filter].
        rewrite (proj2 (Hkeep x)) by (apply Hall; left; reflexivity).
        cbn [List.length]. f_equal. apply IH. intros c Hc. apply Hall. right. exact Hc. }
      rewrite Hf. apply firstn_fixed. lia.
Qed.

(** X20.  The first handler scores what [encryptPitch] sealed: for a well-formed
    pitch that, the byte order mark apart, has at least 50 code units, the answer
    has status 200, the scorer is given the pitch without its byte order mark and
    its angle brackets and cut to 10000 code units, and the receipt is the digest
    of the ciphertext text, the model name, the time and the scores as
    [JSON.stringify] writes them; the client reads the scores and the receipt as the
    response carries them. *)
Theorem legacy_POST_sealed host env raw_key raw_iv pitch hint :
  List.length raw_key = 32%nat -> is_bytes raw_key = true ->
  List.length raw_iv = 12%nat -> is_bytes raw_iv = true ->
  well_formed pitch = true ->
  50 <= str_length (Text.without_bom pitch) ->
  let e := Client.encryptPitch raw_key raw_iv pitch in
  let modelName := if Legacy.absent hint then Legacy.DEFAULT_MODEL else Legacy.text_of hint in
  let scores :=
    Legacy.analyzeWithOpenRouter host env (Legacy.sanitize (Text.without_bom pitch)) modelName in
  Legacy.POST host env (Legacy.submission e hint) =
  {| Route.status := 200;
     Route.body :=
       wire (JObj (Legacy.with_member (js "receipt")
                     (JStr (to_hex (SHA256.digest (UTF8.encode
                        (Client.encryptedData e ++ [124] ++ modelName ++ [124] ++
                         Legacy.toISOString env ++ [124] ++
                         Legacy.JSON_stringify env (JObj scores))))))
                     scores)) |}.
Proof.
  intros Hkl Hkb Hil Hib Hwf Hlong. cbv zeta.
  unfold Legacy.POST, Legacy.submission.
  cbn [Legacy.encrypted_pitch Legacy.encryption_key Legacy.encryption_iv Legacy.model].
  cbn [Legacy.absent Legacy.text_of].
  destruct (envelope_present raw_key raw_iv pitch Hkl Hil) as (Hc & Hk & Hi).
  rewrite Hc, Hk, Hi. cbn [orb].
  rewrite legacy_decrypt_sealed by assumption.
  rewrite (proj2 (Z.ltb_ge _ _) Hlong). reflexivity.
Qed.

Lemma legacy_POST_sealed_witness :
  Legacy.POST Sample.host Trial.env (Legacy.submission Sample.envelope None) =
  {| Route.status := 200;
     Route.body :=
       wire (JObj (Legacy.with_member (js "receipt")
                     (JStr (to_hex (SHA256.digest (UTF8.encode
                        (Client.encryptedData Sample.envelope ++ [124] ++
                         Legacy.DEFAULT_MODEL ++ [124] ++ Trial.now ++ [124] ++ js "{}")))))
                     (Legacy.mockAnalysis Trial.env))) |}.
Proof.
  apply (legacy_POST_sealed Sample.host Trial.env Sample.raw_key Sample.raw_iv Sample.pitch
           None); try reflexivity.
  vm_compute. discriminate.
Defined.
